(** * Inbox Copilot: the automation subsystem

    A shallow embedding of [backend/automations] (parser.py, tables.py,
    engine.py, scheduler.py, models.py) and the properties of its
    request parser, table store, automation engine and scheduler. *)

From Stdlib Require Import List String Ascii Bool Arith NArith ZArith Lia
  DecimalString.
Import ListNotations.
Local Open Scope Z_scope.

Set Implicit Arguments.

(** ** Python strings

    A Python [str] is a sequence of Unicode code points.  Literals are
    written as Rocq strings, whose bytes are the UTF-8 encoding of the
    text, and decoded by [py]. *)

Module PyStr.

Definition pystr := list N.

Fixpoint bytes (s : string) : list N :=
  match s with
  | EmptyString => []
  | String a r => N_of_ascii a :: bytes r
  end.

Local Open Scope N_scope.

Fixpoint utf8_decode (bs : list N) : pystr :=
  match bs with
  | [] => []
  | b :: r =>
    if b <? 128 then b :: utf8_decode r
    else if b <? 224 then
      match r with
      | c :: r1 => ((b - 192) * 64 + (c - 128)) :: utf8_decode r1
      | _ => []
      end
    else if b <? 240 then
      match r with
      | c :: d :: r2 =>
        ((b - 224) * 4096 + (c - 128) * 64 + (d - 128)) :: utf8_decode r2
      | _ => []
      end
    else
      match r with
      | c :: d :: e :: r3 =>
        ((b - 240) * 262144 + (c - 128) * 4096 + (d - 128) * 64 + (e - 128))
          :: utf8_decode r3
      | _ => []
      end
  end.

Definition py (s : string) : pystr := utf8_decode (bytes s).

Fixpoint eqb (a b : pystr) : bool :=
  match a, b with
  | [], [] => true
  | x :: a', y :: b' => (x =? y) && eqb a' b'
  | _, _ => false
  end.

(** [x in l] for a list of strings. *)
Definition mem (x : pystr) (l : list pystr) : bool := existsb (eqb x) l.

(** [str.lower()]: the case mappings of the Basic Latin and Latin-1
    Supplement blocks, and of U+0130 and U+212A, the two code points
    beyond them whose lowercase form contains a Basic Latin letter.
    Every other code point is kept. *)
Definition lower_cp (c : N) : list N :=
  if (65 <=? c) && (c <=? 90) then [c + 32]
  else if (192 <=? c) && (c <=? 222) && negb (c =? 215) then [c + 32]
  else if c =? 304 then [105; 775]
  else if c =? 8490 then [107]
  else [c].

Definition lower (s : pystr) : pystr := flat_map lower_cp s.

Definition is_ascii_lower (c : N) : bool := (97 <=? c) && (c <=? 122).
Definition is_ascii_upper (c : N) : bool := (65 <=? c) && (c <=? 90).

(** [str.title()] on Basic Latin letters: a letter that follows a letter
    is lowercased, any other letter is uppercased.  Code points outside the
    Basic Latin letters are kept and count as uncased. *)
Fixpoint title_from (prev_cased : bool) (s : pystr) : pystr :=
  match s with
  | [] => []
  | c :: t =>
    if is_ascii_lower c then
      (if prev_cased then c else c - 32) :: title_from true t
    else if is_ascii_upper c then
      (if prev_cased then c + 32 else c) :: title_from true t
    else c :: title_from false t
  end.

Definition title (s : pystr) : pystr := title_from false s.

(** [s.startswith(p)] and [needle in hay]. *)
Fixpoint startswith (p s : pystr) : bool :=
  match p, s with
  | [], _ => true
  | x :: p', y :: s' => (x =? y) && startswith p' s'
  | _ :: _, [] => false
  end.

Fixpoint contains (needle hay : pystr) : bool :=
  startswith needle hay ||
  match hay with
  | [] => false
  | _ :: t => contains needle t
  end.

(** [s.replace(old, new)] for a non-empty [old]: occurrences are replaced
    from left to right, without overlap. *)
Fixpoint replace_from (old new : pystr) (skip : nat) (s : pystr) : pystr :=
  match s with
  | [] => []
  | c :: t =>
    match skip with
    | S k => replace_from old new k t
    | O =>
      if startswith old s
      then new ++ replace_from old new (Nat.pred (List.length old)) t
      else c :: replace_from old new O t
    end
  end.

Definition replace (s old new : pystr) : pystr := replace_from old new O s.

(** [sep.join(l)]. *)
Fixpoint join (sep : pystr) (l : list pystr) : pystr :=
  match l with
  | [] => []
  | [x] => x
  | x :: t => x ++ sep ++ join sep t
  end.

(** [str(n)] for an int. *)
Definition str_of_int (z : Z) : pystr :=
  py (NilZero.string_of_int (Z.to_int z)).

(** The decimal digits of Unicode 14.0 (category Nd), which [\d] matches
    on a str pattern and [int] reads: they come in runs of ten, from a
    zero to its nine, and [DIGIT_ZEROS] lists the zeros. *)
Definition DIGIT_ZEROS : list N :=
  [ 48; 1632; 1776; 1984; 2406; 2534; 2662; 2790; 2918; 3046; 3174; 3302;
    3430; 3558; 3664; 3792; 3872; 4160; 4240; 6112; 6160; 6470; 6608; 6784;
    6800; 6992; 7088; 7232; 7248; 42528; 43216; 43264; 43472; 43504; 43600;
    44016; 65296; 66720; 68912; 69734; 69872; 69942; 70096; 70384; 70736;
    70864; 71248; 71360; 71472; 71904; 72016; 72784; 73040; 73120; 92768;
    92864; 93008; 120782; 120792; 120802; 120812; 120822; 123200; 123632;
    125264; 130032 ].

(** [unicodedata.decimal(c)], when [c] is a decimal digit. *)
Definition decimal (c : N) : option N :=
  match find (fun zero => (zero <=? c) && (c <=? zero + 9)) DIGIT_ZEROS with
  | Some zero => Some (c - zero)
  | None => None
  end.

Definition is_digit (c : N) : bool :=
  match decimal c with Some _ => true | None => false end.

(** [int(s)] for a string of decimal digits. *)
Definition int_of_digits (s : pystr) : Z :=
  fold_left
    (fun acc c =>
       (acc * 10 + Z.of_N (match decimal c with Some d => d | None => 0 end))%Z)
    s 0%Z.

End PyStr.

Import PyStr.

(** ** Regular expressions

    The fragment of Python's [re] that parser.py uses: literals, classes,
    sequence, alternation (first alternative first), greedy repetition and
    capturing groups, matched by backtracking. *)

Module Re.

Inductive regex : Type :=
| Eps
| Chr (c : N)
| Cls (f : N -> bool)
| Seq (a b : regex)
| Alt (a b : regex)
| Star (a : regex)
| Group (i : nat) (a : regex).

Definition captures := list (nat * pystr).

(** [rmatch r s caps k]: match [r] at the head of [s], then hand the rest
    of the input to [k]; [Alt] and [Star] fall back to their next choice
    when the continuation fails. *)
Fixpoint rmatch (r : regex) (s : pystr) (caps : captures)
    (k : pystr -> captures -> option captures) : option captures :=
  match r with
  | Eps => k s caps
  | Chr c =>
    match s with
    | x :: t => if N.eqb x c then k t caps else None
    | [] => None
    end
  | Cls f =>
    match s with
    | x :: t => if f x then k t caps else None
    | [] => None
    end
  | Seq a b => rmatch a s caps (fun s1 caps1 => rmatch b s1 caps1 k)
  | Alt a b =>
    match rmatch a s caps k with
    | Some m => Some m
    | None => rmatch b s caps k
    end
  | Star a =>
    (fix loop (n : nat) (s0 : pystr) (caps0 : captures) : option captures :=
       match n with
       | O => k s0 caps0
       | S n' =>
         match rmatch a s0 caps0
                 (fun s1 caps1 =>
                    if Nat.ltb (List.length s1) (List.length s0)
                    then loop n' s1 caps1 else None) with
         | Some m => Some m
         | None => k s0 caps0
         end
       end) (List.length s) s caps
  | Group i a =>
    rmatch a s caps
      (fun s1 caps1 =>
         k s1 ((i, firstn (List.length s - List.length s1) s) :: caps1))
  end.

(** [re.search(r, s)]: the leftmost position where [r] matches. *)
Fixpoint search (r : regex) (s : pystr) : option captures :=
  match rmatch r s [] (fun _ caps => Some caps) with
  | Some m => Some m
  | None =>
    match s with
    | [] => None
    | _ :: t => search r t
    end
  end.

Definition matches (r : regex) (s : pystr) : bool :=
  match search r s with Some _ => true | None => false end.

(** [m.group(i)]. *)
Fixpoint group (i : nat) (m : captures) : option pystr :=
  match m with
  | [] => None
  | (j, g) :: rest => if Nat.eqb i j then Some g else group i rest
  end.

(** Pattern syntax. *)
Fixpoint lit_cps (l : pystr) : regex :=
  match l with
  | [] => Eps
  | [c] => Chr c
  | c :: t => Seq (Chr c) (lit_cps t)
  end.

Definition lit (s : string) : regex := lit_cps (py s).

Fixpoint alts (l : list regex) : regex :=
  match l with
  | [] => Eps
  | [r] => r
  | r :: t => Alt r (alts t)
  end.

Fixpoint seqs (l : list regex) : regex :=
  match l with
  | [] => Eps
  | [r] => r
  | r :: t => Seq r (seqs t)
  end.

Definition opt (r : regex) : regex := Alt r Eps.
Definition plus (r : regex) : regex := Seq r (Star r).

Local Open Scope N_scope.

(** [\s] on a str pattern: Unicode white space. *)
Definition is_space (c : N) : bool :=
  ((9 <=? c) && (c <=? 13)) || ((28 <=? c) && (c <=? 32)) ||
  (c =? 133) || (c =? 160) || (c =? 5760) ||
  ((8192 <=? c) && (c <=? 8202)) || (c =? 8232) || (c =? 8233) ||
  (c =? 8239) || (c =? 8287) || (c =? 12288).

Definition ws : regex := Cls is_space.
(** [\d] on a str pattern: a Unicode decimal digit. *)
Definition digit : regex := Cls is_digit.
(** [.]: anything but a newline. *)
Definition dot : regex := Cls (fun c => negb (c =? 10)).
(** [[...]] over the code points of a literal. *)
Definition one_of (s : string) : regex :=
  Cls (fun c => existsb (N.eqb c) (py s)).

End Re.

Import Re.

(** ** models.py *)

Inductive TriggerType := SCHEDULE | REALTIME | MANUAL.

Inductive ActionType :=
| SEARCH_INVOICES | EXTRACT_AMOUNTS | UPDATE_TABLE | SEND_ALERT | EXPORT_CSV.

Record AutomationTrigger := {
  trigger_type : TriggerType;
  cron : option pystr;
  frequency : option pystr;
  day_of_week : option Z;
  hour : Z;
  minute : Z
}.

(** [alert_threshold] holds the decimal literal that [float] is applied
    to. *)
Record AutomationAction := {
  action_type : ActionType;
  action_vendors : option (list pystr);
  action_table_id : option pystr;
  alert_threshold : option pystr
}.

Record AutomationConfig := {
  name : pystr;
  description : option pystr;
  trigger : AutomationTrigger;
  actions : list AutomationAction;
  vendors : list pystr
}.

(** ** parser.py *)

Module Parser.

Definition KNOWN_VENDORS : list (pystr * list pystr) :=
  [ (py "distram", [py "distram"; py "facturation@distram.com"]);
    (py "promocash", [py "promocash"; py "no-reply@promocash.com"]);
    (py "metro", [py "metro"; py "factures@metro.fr"]);
    (py "transgourmet", [py "transgourmet"]);
    (py "brake", [py "brake"]);
    (py "davigel", [py "davigel"]);
    (py "sysco", [py "sysco"]);
    (py "pomona", [py "pomona"]);
    (py "khadispal", [py "khadispal"]);
    (py "orcun", [py "orcun"]) ].

Definition FREQUENCY_PATTERNS : list (pystr * list regex) :=
  [ (py "daily",
       [ seqs [lit "chaque"; plus ws; lit "jour"];
         seqs [lit "tous"; plus ws; lit "les"; plus ws; lit "jours"];
         lit "quotidien" ]);
    (py "weekly",
       [ seqs [lit "chaque"; plus ws; lit "semaine"];
         seqs [lit "toute"; opt (lit "s"); plus ws; lit "les"; plus ws;
               lit "semaine"; opt (lit "s")];
         lit "hebdomadaire" ]);
    (py "monthly",
       [ seqs [lit "chaque"; plus ws; lit "mois"];
         seqs [lit "tous"; plus ws; lit "les"; plus ws; lit "mois"];
         lit "mensuel" ]);
    (py "monday",
       [ seqs [lit "chaque"; plus ws; lit "lundi"];
         seqs [lit "tous"; plus ws; lit "les"; plus ws; lit "lundi";
               opt (lit "s")] ]);
    (py "friday",
       [ seqs [lit "chaque"; plus ws; lit "vendredi"];
         seqs [lit "tous"; plus ws; lit "les"; plus ws; lit "vendredi";
               opt (lit "s")] ]) ].

Definition DAY_MAPPING : list (pystr * Z) :=
  [ (py "lundi", 0); (py "mardi", 1); (py "mercredi", 2); (py "jeudi", 3);
    (py "vendredi", 4); (py "samedi", 5); (py "dimanche", 6);
    (py "monday", 0); (py "tuesday", 1); (py "wednesday", 2);
    (py "thursday", 3); (py "friday", 4); (py "saturday", 5);
    (py "sunday", 6) ].

(** [d.get(key, default)] on a dict kept in insertion order. *)
Fixpoint dict_get {V : Type} (d : list (pystr * V)) (key : pystr)
    (default : V) : V :=
  match d with
  | [] => default
  | (k, v) :: rest => if PyStr.eqb k key then v else dict_get rest key default
  end.

(** The body of the loop over [table.items()], and the loop. *)
Definition vendor_step (text_lower : pystr) (found_vendors : list pystr)
    (item : pystr * list pystr) : list pystr :=
  let (vendor_key, aliases) := item in
  if existsb (fun alias => contains (lower alias) text_lower) aliases
  then if mem vendor_key found_vendors then found_vendors
       else found_vendors ++ [vendor_key]
  else found_vendors.

Definition extract_vendors_in (table : list (pystr * list pystr))
    (text : pystr) : list pystr :=
  fold_left (vendor_step (lower text)) table [].

Definition extract_vendors (text : pystr) : list pystr :=
  extract_vendors_in KNOWN_VENDORS text.

(** The second loop of [extract_frequency], over the patterns of each
    frequency in turn. *)
Fixpoint frequency_scan (text_lower : pystr)
    (items : list (pystr * list regex)) : option (pystr * option Z) :=
  match items with
  | [] => None
  | (freq, patterns) :: rest =>
    if existsb (fun pattern => matches pattern text_lower) patterns then
      if mem freq [py "monday"; py "friday"] then
        Some (py "weekly",
              Some (dict_get DAY_MAPPING
                      (replace (replace freq (py "monday") (py "lundi"))
                               (py "friday") (py "vendredi")) 0))
      else Some (freq, None)
    else frequency_scan text_lower rest
  end.

Definition extract_frequency (text : pystr) : pystr * option Z :=
  let text_lower := lower text in
  match find (fun item => contains (fst item) text_lower) DAY_MAPPING with
  | Some (_, day_num) => (py "weekly", Some day_num)
  | None =>
    match frequency_scan text_lower FREQUENCY_PATTERNS with
    | Some r => r
    | None => (py "weekly", Some 0)
    end
  end.

(** [[√†a]\s*(\d{1,2})\s*h], with the class as the source file has it. *)
Definition hour_pattern : regex :=
  seqs [one_of "√†a"; Star ws; Group 1 (Seq digit (opt digit)); Star ws;
        lit "h"].

Definition extract_hour (text : pystr) : Z :=
  match search hour_pattern (lower text) with
  | Some hour_match =>
    match group 1 hour_match with
    | Some g => int_of_digits g
    | None => 9
    end
  | None =>
    if contains (py "matin") (lower text) then 9
    else if contains (py "soir") (lower text) then 18
    else 9
  end.

Definition automation_patterns : list regex :=
  [ seqs [Group 1 (alts [lit "cr√©e"; lit "cr√©er"; lit "cr√©ez"; lit "fais";
                         lit "faire"; lit "met"; lit "mets"; lit "mettre"]);
          Star ws; opt (Group 2 (lit "en place")); Star ws;
          opt (Group 3 (Alt (Seq (lit "un") (opt (lit "e")))
                            (Seq (lit "l") (one_of "ea"))));
          Star ws; lit "automatisation"];
    lit "automatise";
    seqs [lit "chaque"; plus ws;
          Group 1 (alts [lit "semaine"; lit "jour"; lit "mois"; lit "lundi";
                         lit "mardi"; lit "mercredi"; lit "jeudi";
                         lit "vendredi"])];
    seqs [lit "tous"; plus ws; lit "les"; plus ws;
          Group 1 (alts [lit "jours"; lit "semaines"; lit "mois";
                         Seq (lit "lundi") (opt (lit "s"));
                         Seq (lit "mardi") (opt (lit "s"))])];
    seqs [lit "r√©cup√®re"; Star dot; lit "automatiquement"];
    seqs [lit "surveille"; Star dot; lit "et"; Star dot;
          Group 1 (Alt (lit "alerte") (lit "notifie"))];
    seqs [Group 1 (Alt (lit "envoie") (lit "envoi")); Star dot;
          lit "rapport"; Star dot; lit "chaque"];
    seqs [lit "met"; Star dot; lit "dans"; Star dot; lit "tableau";
          Star dot; lit "chaque"] ].

Definition detect_automation_intent (text : pystr) : bool :=
  existsb (fun pattern => matches pattern (lower text)) automation_patterns.

Definition extract_automation_name (text : pystr) (vendors : list pystr)
    : pystr :=
  match vendors with
  | [] => py "Suivi automatique"
  | [v] => py "Suivi factures " ++ title v
  | _ =>
    if Nat.leb (List.length vendors) 3
    then py "Suivi " ++ join (py ", ") (map title vendors)
    else py "Suivi factures fournisseurs"
  end.

(** The cron expression of the trigger, from the three extracted values. *)
Definition build_cron (frequency : pystr) (day_of_week : option Z)
    (hour : Z) : pystr :=
  if PyStr.eqb frequency (py "daily") then
    py "0 " ++ str_of_int hour ++ py " * * *"
  else if PyStr.eqb frequency (py "weekly") then
    let dow := match day_of_week with Some d => d | None => 0 end in
    py "0 " ++ str_of_int hour ++ py " * * " ++ str_of_int dow
  else if PyStr.eqb frequency (py "monthly") then
    py "0 " ++ str_of_int hour ++ py " 1 * *"
  else
    py "0 " ++ str_of_int hour ++ py " * * 0".

Definition alert_pattern : regex :=
  Group 1 (alts [lit "alerte"; lit "notifie"; lit "pr√©viens"]).

(** [(\d+(?:[.,]\d+)?)\s*‚Ç¨] *)
Definition threshold_pattern : regex :=
  seqs [Group 1 (Seq (plus digit) (opt (Seq (one_of ".,") (plus digit))));
        Star ws; lit "‚Ç¨"].

Definition simple_action (t : ActionType) : AutomationAction :=
  {| action_type := t; action_vendors := None; action_table_id := None;
     alert_threshold := None |}.

Definition parse_automation_request (text : pystr)
    : option AutomationConfig :=
  if negb (detect_automation_intent text) then None
  else
    let vendors := extract_vendors text in
    let (frequency, day_of_week) := extract_frequency text in
    let hour := extract_hour text in
    let cron := build_cron frequency day_of_week hour in
    let trigger :=
      {| trigger_type := SCHEDULE; cron := Some cron;
         frequency := Some frequency; day_of_week := day_of_week;
         hour := hour; minute := 0 |} in
    let actions :=
      [ {| action_type := SEARCH_INVOICES; action_vendors := Some vendors;
           action_table_id := None; alert_threshold := None |};
        simple_action EXTRACT_AMOUNTS;
        simple_action UPDATE_TABLE ] in
    let actions :=
      if matches alert_pattern (lower text) then
        let threshold :=
          match search threshold_pattern text with
          | Some threshold_match =>
            match group 1 threshold_match with
            | Some g => Some (replace g (py ",") (py "."))
            | None => None
            end
          | None => None
          end in
        actions ++ [ {| action_type := SEND_ALERT; action_vendors := None;
                        action_table_id := None;
                        alert_threshold := threshold |} ]
      else actions in
    Some {| name := extract_automation_name text vendors;
            description := Some (firstn 200 text);
            trigger := trigger;
            actions := actions;
            vendors := vendors |}.

End Parser.

Import Parser.


(** ** The document store

    [get_db()] gives the handle on three collections.  A collection is the
    list of its documents in insertion order.  [_id] values are ObjectIds,
    and [oid] is their type: the operations of the modules that follow
    take the ids that [ObjectId(...)] made of the id strings of their
    callers, and module [ByString], further down, has the operations on
    the strings themselves, where a string that is no id raises.  A number
    [PNum x] is the whole number [x], held as an int or as a float of that
    value; amounts with a fractional part are not represented. *)

Module Store.

Definition oid := N.
Definition datetime := Z.

Inductive pyval :=
| PNone
| PBool (b : bool)
| PNum (x : Z)
| PStr (s : pystr).

Definition pyval_eqb (a b : pyval) : bool :=
  match a, b with
  | PNone, PNone => true
  | PBool x, PBool y => Bool.eqb x y
  | PNum x, PNum y => Z.eqb x y
  | PStr x, PStr y => PyStr.eqb x y
  | _, _ => false
  end.

(** A dict with string keys, in insertion order. *)
Definition pydict := list (pystr * pyval).

Fixpoint lookup (d : pydict) (key : pystr) : option pyval :=
  match d with
  | [] => None
  | (k, v) :: rest => if PyStr.eqb k key then Some v else lookup rest key
  end.

(** [d.get(key)] *)
Definition get (d : pydict) (key : pystr) : pyval :=
  match lookup d key with Some v => v | None => PNone end.

(** ["montant" in data and isinstance(data["montant"], (int, float))], and
    the number then added; [bool] is a subclass of [int]. *)
Definition montant_of (data : pydict) : option Z :=
  match lookup data (py "montant") with
  | Some (PNum x) => Some x
  | Some (PBool b) => Some (if b then 1 else 0)
  | _ => None
  end.

Record TableColumn := {
  column_name : pystr;
  column_type : pystr
}.

Record TableRow := {
  row_id : oid;
  row_data : pydict;
  row_created_at : datetime;
  source_email_id : pyval;
  source_automation_id : option oid
}.

Record Table := {
  table_oid : oid;
  table_user_id : pystr;
  table_name : pystr;
  table_description : option pystr;
  columns : list TableColumn;
  rows : list TableRow;
  year : Z;
  table_created_at : datetime;
  table_updated_at : datetime;
  automation_id : option oid;
  total_amount : Z
}.

Inductive AutomationStatus := active | paused | status_error.
Inductive RunStatus := running | success | run_error.

Record Automation := {
  auto_oid : oid;
  user_id : pystr;
  account_id : pystr;
  auto_name : pystr;
  auto_description : option pystr;
  auto_trigger : AutomationTrigger;
  auto_actions : list AutomationAction;
  auto_vendors : list pystr;
  table_id : option oid;
  status : AutomationStatus;
  created_at : datetime;
  updated_at : datetime;
  last_run : option datetime;
  next_run : option datetime;
  run_count : Z;
  last_error : option pystr
}.

(** What [_execute_actions] returns. *)
Record ActionResults := {
  res_emails_processed : Z;
  res_invoices_found : Z;
  res_rows_added : Z;
  res_invoices : list pydict
}.

Record AutomationRun := {
  run_oid : oid;
  run_automation_id : oid;
  run_user_id : pystr;
  started_at : datetime;
  completed_at : option datetime;
  run_status : RunStatus;
  results : option ActionResults;
  emails_processed : Z;
  rows_added : Z;
  error : option pystr
}.

(** Python exceptions carry their message [str(e)]. *)
Inductive result (A : Type) : Type :=
| Ok (a : A)
| Raise (e : pystr).
Arguments Ok {A} a.
Arguments Raise {A} e.

(** [learned_senders] is queried by a regular expression on the sender
    name, which the store evaluates: the collection is the answer it gives
    for a user and a vendor, the [emails] field of the sender found. *)
Record DB := {
  tables : list Table;
  automations : list Automation;
  automation_runs : list AutomationRun;
  learned_senders : pystr -> pystr -> result (option (option (list pystr)))
}.

(** The calls that write to the store. *)
Inductive write :=
| InsertOne (collection : string) (id : oid)
| UpdateOne (collection : string) (id : oid)
| DeleteOne (collection : string) (id : oid).

Record World := {
  db : DB;
  clock : datetime;
  next_oid : oid;
  oplog : list write
}.

(** Code that reads and writes the world and may raise; what was written
    before an exception stays written. *)
Definition M (A : Type) : Type := World -> result A * World.

Definition ret {A} (a : A) : M A := fun w => (Ok a, w).

Definition bind {A B} (m : M A) (f : A -> M B) : M B :=
  fun w =>
    match m w with
    | (Ok a, w1) => f a w1
    | (Raise e, w1) => (Raise e, w1)
    end.

Definition raise {A} (e : pystr) : M A := fun w => (Raise e, w).

(** [try: body except Exception as e: handler(str(e))] *)
Definition try_except {A} (body : M A) (handler : pystr -> M A) : M A :=
  fun w =>
    match body w with
    | (Ok a, w1) => (Ok a, w1)
    | (Raise e, w1) => handler e w1
    end.

Definition lift {A} (r : result A) : M A := fun w => (r, w).

Definition get_db : M DB := fun w => (Ok (db w), w).

Definition set_db (d : DB) : World -> World :=
  fun w => {| db := d; clock := clock w; next_oid := next_oid w;
              oplog := oplog w |}.

Definition log (op : write) : World -> World :=
  fun w => {| db := db w; clock := clock w; next_oid := next_oid w;
              oplog := oplog w ++ [op] |}.

(** [datetime.utcnow()]: the clock is read, and time passes. *)
Definition utcnow : M datetime :=
  fun w => (Ok (clock w),
            {| db := db w; clock := clock w + 1; next_oid := next_oid w;
               oplog := oplog w |}).

(** [ObjectId()]: a fresh identifier. *)
Definition ObjectId : M oid :=
  fun w => (Ok (next_oid w),
            {| db := db w; clock := clock w; next_oid := N.succ (next_oid w);
               oplog := oplog w |}).

(** [update_one]: the first document that matches the filter is updated;
    the answer is whether one matched. *)
Fixpoint update_first {A} (p : A -> bool) (f : A -> A) (l : list A)
    : list A :=
  match l with
  | [] => []
  | x :: t => if p x then f x :: t else x :: update_first p f t
  end.

Definition with_tables (ts : list Table) (d : DB) : DB :=
  {| tables := ts; automations := automations d;
     automation_runs := automation_runs d;
     learned_senders := learned_senders d |}.

Definition with_automations (l : list Automation) (d : DB) : DB :=
  {| tables := tables d; automations := l;
     automation_runs := automation_runs d;
     learned_senders := learned_senders d |}.

Definition with_automation_runs (l : list AutomationRun) (d : DB) : DB :=
  {| tables := tables d; automations := automations d;
     automation_runs := l;
     learned_senders := learned_senders d |}.

Definition has_table_oid (id : oid) (t : Table) : bool :=
  N.eqb (table_oid t) id.
Definition has_auto_oid (id : oid) (a : Automation) : bool :=
  N.eqb (auto_oid a) id.
Definition has_run_oid (id : oid) (r : AutomationRun) : bool :=
  N.eqb (run_oid r) id.

(** [db.tables.update_one({"_id": ObjectId(id)}, update)] *)
Definition tables_update_one (id : oid) (update : Table -> Table) : M bool :=
  fun w =>
    (Ok (existsb (has_table_oid id) (tables (db w))),
     log (UpdateOne "tables" id)
       (set_db (with_tables
                  (update_first (has_table_oid id) update (tables (db w)))
                  (db w)) w)).

Definition automations_update_one (id : oid)
    (update : Automation -> Automation) : M bool :=
  fun w =>
    (Ok (existsb (has_auto_oid id) (automations (db w))),
     log (UpdateOne "automations" id)
       (set_db (with_automations
                  (update_first (has_auto_oid id) update (automations (db w)))
                  (db w)) w)).

Definition automation_runs_update_one (id : oid)
    (update : AutomationRun -> AutomationRun) : M bool :=
  fun w =>
    (Ok (existsb (has_run_oid id) (automation_runs (db w))),
     log (UpdateOne "automation_runs" id)
       (set_db (with_automation_runs
                  (update_first (has_run_oid id) update
                     (automation_runs (db w)))
                  (db w)) w)).

(** [db.automation_runs.insert_one(doc)]: the store gives the document its
    [_id] and answers with it. *)
Definition automation_runs_insert_one (doc : oid -> AutomationRun) : M oid :=
  fun w =>
    let id := next_oid w in
    (Ok id,
     log (InsertOne "automation_runs" id)
       {| db := with_automation_runs (automation_runs (db w) ++ [doc id])
                  (db w);
          clock := clock w; next_oid := N.succ id; oplog := oplog w |}).

End Store.

Import Store.

Declare Scope py_scope.
Delimit Scope py_scope with py.
Notation "x <- m ;; k" := (bind m (fun x => k))
  (at level 61, m at next level, right associativity) : py_scope.
Notation "m ;;; k" := (bind m (fun _ => k))
  (at level 61, right associativity) : py_scope.

(** ** parser.py: the summary of a config *)

Module Summary.

(** [l[i]] on a list: negative indices count from the end; out of range
    is IndexError. *)
Definition list_index {A : Type} (l : list A) (i : Z) : result A :=
  let n := Z.of_nat (List.length l) in
  let j := if i <? 0 then i + n else i in
  if (0 <=? j) && (j <? n)
  then match nth_error l (Z.to_nat j) with
       | Some x => Ok x
       | None => Raise (py "list index out of range")
       end
  else Raise (py "list index out of range").

Definition day_names : list pystr :=
  [py "lundi"; py "mardi"; py "mercredi"; py "jeudi"; py "vendredi";
   py "samedi"; py "dimanche"].

Definition frequency_texts : list (pystr * pystr) :=
  [ (py "daily", py "Chaque jour");
    (py "weekly", py "Chaque semaine");
    (py "monthly", py "Chaque mois") ].

Definition format_automation_summary (config : AutomationConfig)
    : result pystr :=
  let freq_text :=
    match frequency (trigger config) with
    | Some f => dict_get frequency_texts f (py "R√©guli√®rement")
    | None => py "R√©guli√®rement"
    end in
  match
    match day_of_week (trigger config) with
    | Some d =>
      match list_index day_names d with
      | Ok day => Ok (py "Chaque " ++ day)
      | Raise e => Raise e
      end
    | None => Ok freq_text
    end
  with
  | Raise e => Raise e
  | Ok freq_text =>
    let freq_text :=
      freq_text ++ py " √† " ++ str_of_int (hour (trigger config)) ++ py "h" in
    let vendors_text :=
      match vendors config with
      | [] => py "Tous fournisseurs"
      | _ => join (py ", ") (map title (vendors config))
      end in
    Ok (py "**" ++ name config ++ py "**" ++ [10%N] ++
        py "‚è∞ " ++ freq_text ++ [10%N] ++
        py "üè¢ " ++ vendors_text)
  end.

End Summary.

(** ** Dates *)

(** [datetime] values are microseconds since 1970-01-01 00:00 UTC. *)
Module Datetime.

Definition timedelta_days (days : Z) : Z := days * 86400 * 1000000.

(** The civil date of a day number (days since 1970-01-01), in the
    proleptic Gregorian calendar. *)
Definition civil_from_days (days : Z) : Z * Z * Z :=
  let z := days + 719468 in
  let era := z / 146097 in
  let doe := z - era * 146097 in
  let yoe := (doe - doe / 1460 + doe / 36524 - doe / 146096) / 365 in
  let doy := doe - (365 * yoe + yoe / 4 - yoe / 100) in
  let mp := (5 * doy + 2) / 153 in
  let d := doy - (153 * mp + 2) / 5 + 1 in
  let m := if mp <? 10 then mp + 3 else mp - 9 in
  let y := yoe + era * 400 + (if m <=? 2 then 1 else 0) in
  (y, m, d).

(** A number on at least [width] digits, padded with zeros. *)
Definition zero_padded (width : nat) (n : Z) : pystr :=
  let digits := str_of_int n in
  repeat 48%N (width - List.length digits) ++ digits.

(** [t.strftime('%Y/%m/%d')] *)
Definition strftime_Ymd (t : datetime) : pystr :=
  let '(y, m, d) := civil_from_days (t / timedelta_days 1) in
  zero_padded 4 y ++ py "/" ++ zero_padded 2 m ++ py "/" ++ zero_padded 2 d.

End Datetime.

Local Open Scope py_scope.

(** ** tables.py *)

Module TableManager.

(** The three operators of the update documents. *)
Definition push_rows (new_rows : list TableRow) (t : Table) : Table :=
  {| table_oid := table_oid t; table_user_id := table_user_id t;
     table_name := table_name t; table_description := table_description t;
     columns := columns t; rows := rows t ++ new_rows; year := year t;
     table_created_at := table_created_at t;
     table_updated_at := table_updated_at t;
     automation_id := automation_id t; total_amount := total_amount t |}.

Definition pull_rows (id : oid) (t : Table) : Table :=
  {| table_oid := table_oid t; table_user_id := table_user_id t;
     table_name := table_name t; table_description := table_description t;
     columns := columns t;
     rows := filter (fun r => negb (N.eqb (row_id r) id)) (rows t);
     year := year t;
     table_created_at := table_created_at t;
     table_updated_at := table_updated_at t;
     automation_id := automation_id t; total_amount := total_amount t |}.

Definition set_updated_at (now : datetime) (t : Table) : Table :=
  {| table_oid := table_oid t; table_user_id := table_user_id t;
     table_name := table_name t; table_description := table_description t;
     columns := columns t; rows := rows t; year := year t;
     table_created_at := table_created_at t;
     table_updated_at := now;
     automation_id := automation_id t; total_amount := total_amount t |}.

Definition inc_total_amount (amount : Z) (t : Table) : Table :=
  {| table_oid := table_oid t; table_user_id := table_user_id t;
     table_name := table_name t; table_description := table_description t;
     columns := columns t; rows := rows t; year := year t;
     table_created_at := table_created_at t;
     table_updated_at := table_updated_at t;
     automation_id := automation_id t;
     total_amount := total_amount t + amount |}.

Definition add_row (table_id : oid) (data : pydict)
    (source_email_id : option pystr) (source_automation_id : option oid)
    : M oid :=
  row_id <- ObjectId ;;
  created <- utcnow ;;
  let row :=
    {| row_id := row_id; row_data := data; row_created_at := created;
       source_email_id :=
         match source_email_id with Some s => PStr s | None => PNone end;
       source_automation_id := source_automation_id |} in
  let amount_update :=
    match montant_of data with
    | Some amount => inc_total_amount amount
    | None => fun t => t
    end in
  now <- utcnow ;;
  tables_update_one table_id
    (fun t => amount_update (set_updated_at now (push_rows [row] t))) ;;;
  ret row_id.

(** The loop of [add_rows_bulk] over [rows_data], with its two local
    variables. *)
Fixpoint bulk_rows (rows_data : list pydict)
    (source_automation_id : option oid)
    (rows : list TableRow) (total_amount : Z) : M (list TableRow * Z) :=
  match rows_data with
  | [] => ret (rows, total_amount)
  | data :: rest =>
    id <- ObjectId ;;
    created <- utcnow ;;
    let row :=
      {| row_id := id; row_data := data; row_created_at := created;
         source_email_id := get data (py "email_id");
         source_automation_id := source_automation_id |} in
    bulk_rows rest source_automation_id (rows ++ [row])
      (match montant_of data with
       | Some amount => total_amount + amount
       | None => total_amount
       end)
  end.

Definition add_rows_bulk (table_id : oid) (rows_data : list pydict)
    (source_automation_id : option oid) : M Z :=
  built <- bulk_rows rows_data source_automation_id [] 0 ;;
  let (rows, total_amount) := built : list TableRow * Z in
  match rows with
  | [] => ret (Z.of_nat (List.length rows))
  | _ :: _ =>
    now <- utcnow ;;
    tables_update_one table_id
      (fun t => inc_total_amount total_amount
                  (set_updated_at now (push_rows rows t))) ;;;
    ret (Z.of_nat (List.length rows))
  end.

Definition row_from_email (email_id : pystr) (r : TableRow) : bool :=
  pyval_eqb (source_email_id r) (PStr email_id).

Definition check_duplicate (table_id : oid) (email_id : pystr) : M bool :=
  db <- get_db ;;
  ret (existsb (fun t => has_table_oid table_id t &&
                         existsb (row_from_email email_id) (rows t))
         (tables db)).

Definition delete_row (table_id : oid) (row_id : oid) : M bool :=
  now <- utcnow ;;
  tables_update_one table_id
    (fun t => set_updated_at now (pull_rows row_id t)).


(** *** The other operations of the table manager *)

Definition INVOICE_COLUMNS : list TableColumn :=
  [ {| column_name := py "date"; column_type := py "date" |};
    {| column_name := py "fournisseur"; column_type := py "text" |};
    {| column_name := py "montant"; column_type := py "currency" |};
    {| column_name := py "n_facture"; column_type := py "text" |};
    {| column_name := py "email_id"; column_type := py "text" |};
    {| column_name := py "payee"; column_type := py "boolean" |} ].

(** [datetime.now().year]: the local clock is the UTC clock shifted by the
    offset of the time zone. *)
Definition year_of (t : datetime) : Z :=
  fst (fst (Datetime.civil_from_days (t / Datetime.timedelta_days 1))).

Definition now_year (utc_offset : Z) : M Z :=
  now <- utcnow ;;
  ret (year_of (now + utc_offset)).

(** [db.tables.insert_one(doc)] *)
Definition tables_insert_one (doc : oid -> Table) : M oid :=
  fun w =>
    let id := next_oid w in
    (Ok id,
     log (InsertOne "tables" id)
       {| db := with_tables (tables (db w) ++ [doc id]) (db w);
          clock := clock w; next_oid := N.succ id; oplog := oplog w |}).

Definition create_table (utc_offset : Z) (user_id name : pystr)
    (columns : option (list TableColumn)) (year : option Z)
    (automation_id : option oid) (description : option pystr) : M oid :=
  let columns :=
    match columns with Some c => c | None => INVOICE_COLUMNS end in
  year <- match year with
          | Some y => ret y
          | None => now_year utc_offset
          end ;;
  created <- utcnow ;;
  updated <- utcnow ;;
  tables_insert_one
    (fun id =>
       {| table_oid := id; table_user_id := user_id; table_name := name;
          table_description := description; columns := columns;
          rows := []; year := year;
          table_created_at := created; table_updated_at := updated;
          automation_id := automation_id; total_amount := 0 |}).

Definition get_table (table_id : oid) : M (option Table) :=
  db <- get_db ;;
  ret (find (has_table_oid table_id) (tables db)).

Definition has_row_id (id : oid) (r : TableRow) : bool := N.eqb (row_id r) id.

(** The filter [{"_id": ObjectId(table_id), "rows.id": row_id}]. *)
Definition has_table_row (table_id row_id : oid) (t : Table) : bool :=
  has_table_oid table_id t && existsb (has_row_id row_id) (rows t).

(** [update_one] with that filter: [rows.$] is the first row that the
    filter matched. *)
Definition tables_update_row (table_id row_id : oid)
    (on_row : TableRow -> TableRow) (on_table : Table -> Table) : M bool :=
  fun w =>
    (Ok (existsb (has_table_row table_id row_id) (tables (db w))),
     log (UpdateOne "tables" table_id)
       (set_db
          (with_tables
             (update_first (has_table_row table_id row_id)
                (fun t =>
                   on_table
                     {| table_oid := table_oid t;
                        table_user_id := table_user_id t;
                        table_name := table_name t;
                        table_description := table_description t;
                        columns := columns t;
                        rows := update_first (has_row_id row_id) on_row
                                  (rows t);
                        year := year t;
                        table_created_at := table_created_at t;
                        table_updated_at := table_updated_at t;
                        automation_id := automation_id t;
                        total_amount := total_amount t |})
                (tables (db w)))
             (db w)) w)).

Definition set_row_data (data : pydict) (r : TableRow) : TableRow :=
  {| row_id := row_id r; row_data := data;
     row_created_at := row_created_at r;
     source_email_id := source_email_id r;
     source_automation_id := source_automation_id r |}.

Definition update_row (table_id row_id : oid) (data : pydict) : M bool :=
  now <- utcnow ;;
  tables_update_row table_id row_id (set_row_data data) (set_updated_at now).

(** The truth value of a Python value. *)
Definition truthy (v : pyval) : bool :=
  match v with
  | PNone => false
  | PBool b => b
  | PNum x => negb (x =? 0)
  | PStr s => match s with [] => false | _ => true end
  end.

(** [d[key] = v]: the value of a key that is there is replaced in place, a
    new key goes last. *)
Fixpoint dict_set (d : pydict) (key : pystr) (v : pyval) : pydict :=
  match d with
  | [] => [(key, v)]
  | (k, x) :: rest =>
    if PyStr.eqb k key then (k, v) :: rest
    else (k, x) :: dict_set rest key v
  end.

(** [d.get(key, default)] *)
Definition get_default (d : pydict) (key : pystr) (default : pyval)
    : pyval :=
  match lookup d key with Some v => v | None => default end.

Definition toggle_paid (table_id row_id : oid) : M bool :=
  db <- get_db ;;
  match find (has_table_row table_id row_id) (tables db) with
  | None => ret false
  | Some table =>
    match find (has_row_id row_id) (rows table) with
    | None => ret false
    | Some row =>
      let current := get_default (row_data row) (py "payee") (PBool false) in
      tables_update_row table_id row_id
        (fun r =>
           set_row_data
             (dict_set (row_data r) (py "payee")
                (PBool (negb (truthy current)))) r)
        (fun t => t)
    end
  end.

(** [db.tables.delete_one({"_id": ObjectId(table_id)})] *)
Fixpoint delete_first {A} (p : A -> bool) (l : list A) : list A :=
  match l with
  | [] => []
  | x :: t => if p x then t else x :: delete_first p t
  end.

Definition delete_table (table_id : oid) : M bool :=
  fun w =>
    (Ok (existsb (has_table_oid table_id) (tables (db w))),
     log (DeleteOne "tables" table_id)
       (set_db (with_tables
                  (delete_first (has_table_oid table_id) (tables (db w)))
                  (db w)) w)).

(** [a + b] where [a] is a number: a number or a bool can be added,
    anything else is TypeError, whose message Python completes with the
    names of the two types. *)
Definition add_to_int (a : Z) (b : pyval) : result Z :=
  match b with
  | PNum x => Ok (a + x)
  | PBool x => Ok (a + (if x then 1 else 0))
  | _ => Raise (py "unsupported operand type(s) for +")
  end.

(** Equality of dict keys: numbers and bools compare by value. *)
Definition key_eqb (a b : pyval) : bool :=
  match a, b with
  | PNone, PNone => true
  | PStr x, PStr y => PyStr.eqb x y
  | PNum x, PNum y => x =? y
  | PBool x, PBool y => Bool.eqb x y
  | PNum x, PBool y | PBool y, PNum x => x =? (if y then 1 else 0)
  | _, _ => false
  end.

Record VendorStats := {
  vendor_count : Z;
  vendor_total : Z
}.

Record TableStats := {
  row_count : Z;
  stats_total_amount : Z;
  by_vendor : list (pyval * VendorStats);
  paid_count : Z;
  paid_amount : Z;
  unpaid_count : Z;
  unpaid_amount : Z
}.

(** [by_vendor[vendor]["count"] += 1] and
    [by_vendor[vendor]["total"] += montant], for a vendor that is in the
    dict. *)
Fixpoint bump_vendor (by_vendor : list (pyval * VendorStats))
    (vendor montant : pyval) : result (list (pyval * VendorStats)) :=
  match by_vendor with
  | [] => Ok []
  | (k, st) :: rest =>
    if key_eqb k vendor then
      match add_to_int (vendor_total st) montant with
      | Ok total =>
        Ok ((k, {| vendor_count := vendor_count st + 1;
                   vendor_total := total |}) :: rest)
      | Raise e => Raise e
      end
    else
      match bump_vendor rest vendor montant with
      | Ok rest' => Ok ((k, st) :: rest')
      | Raise e => Raise e
      end
  end.

(** The loop that counts by vendor. *)
Fixpoint count_by_vendor (rows : list TableRow)
    (by_vendor : list (pyval * VendorStats))
    : result (list (pyval * VendorStats)) :=
  match rows with
  | [] => Ok by_vendor
  | row :: rest =>
    let vendor :=
      get_default (row_data row) (py "fournisseur") (PStr (py "Autre")) in
    let by_vendor :=
      if existsb (fun item => key_eqb (fst item) vendor) by_vendor
      then by_vendor
      else by_vendor ++ [(vendor, {| vendor_count := 0; vendor_total := 0 |})]
    in
    match bump_vendor by_vendor vendor
            (get_default (row_data row) (py "montant") (PNum 0)) with
    | Ok by_vendor => count_by_vendor rest by_vendor
    | Raise e => Raise e
    end
  end.

Definition is_paid (row : TableRow) : bool :=
  truthy (get_default (row_data row) (py "payee") (PBool false)).

(** [sum(generator)], from 0. *)
Fixpoint sum_values (values : list pyval) (acc : Z) : result Z :=
  match values with
  | [] => Ok acc
  | v :: rest =>
    match add_to_int acc v with
    | Ok acc => sum_values rest acc
    | Raise e => Raise e
    end
  end.

(** [None] stands for the empty dict that is answered when there is no
    such table. *)
Definition get_table_stats (table_id : oid) : M (option TableStats) :=
  table <- get_table table_id ;;
  match table with
  | None => ret None
  | Some table =>
    let rows := rows table in
    let total := total_amount table in
    by_vendor <- lift (count_by_vendor rows []) ;;
    let paid_count := Z.of_nat (List.length (filter is_paid rows)) in
    paid_amount <-
      lift (sum_values
              (map (fun r => get_default (row_data r) (py "montant") (PNum 0))
                 (filter is_paid rows)) 0) ;;
    ret (Some {| row_count := Z.of_nat (List.length rows);
                 stats_total_amount := total;
                 by_vendor := by_vendor;
                 paid_count := paid_count;
                 paid_amount := paid_amount;
                 unpaid_count := Z.of_nat (List.length rows) - paid_count;
                 unpaid_amount := total - paid_amount |})
  end.

End TableManager.

(** ** engine.py *)



(** The Email Gateway: what [EmailService] answers to the three calls of
    the engine.  A message is its [id] and [date]; of the full message
    only the attachment list is read; of the extracted invoice data,
    [total] is the amount [invoice_data["total"]["value"]] when
    [invoice_data.get("total")] is true. *)
Record Email := {
  email_id : pystr;
  email_date : pyval
}.

Record Attachment := {
  filename : option pystr;
  mimeType : option pystr;
  attachmentId : pyval
}.

Record InvoiceData := {
  total : option pyval;
  invoice_number : pyval
}.

Record EmailService := {
  search_emails : pystr -> pystr -> result (list Email);
  get_email_by_id : pystr -> pystr -> result (list Attachment);
  extract_invoice_data : pystr -> pystr -> pyval -> result InvoiceData
}.

Inductive RunOutcome :=
| RunSuccess (run_id : oid) (r : ActionResults)
| RunFailure (error : pystr).

Module AutomationEngine.

Import TableManager.

Section Engine.

(** [self.email_service] *)
Variable email_service : EmailService.

Definition endswith (s suffix : pystr) : bool :=
  startswith (rev suffix) (rev s).

Definition default_mappings : list (pystr * list pystr) :=
  [ (py "distram", [py "facturation@distram.com"]);
    (py "promocash", [py "no-reply@promocash.com"]);
    (py "metro", [py "factures@metro.fr"]);
    (py "khadispal", [py "khadispal"]);
    (py "orcun", [py "orcun"]) ].

Definition _get_vendor_emails (user_id vendor : pystr) : M (list pystr) :=
  db <- get_db ;;
  sender <- lift (learned_senders db user_id vendor) ;;
  match sender with
  | Some emails =>
    ret (match emails with Some l => l | None => [vendor] end)
  | None => ret (dict_get default_mappings (lower vendor) [vendor])
  end.

(** The loop over the attachments of one message: the row of its first
    invoice, if it has one. *)
Fixpoint scan_attachments (account_id vendor : pystr) (email : Email)
    (attachments : list Attachment) : M (option pydict) :=
  match attachments with
  | [] => ret None
  | att :: rest =>
    let filename :=
      lower (match filename att with Some f => f | None => [] end) in
    if contains (py "cgv") filename || contains (py "condition") filename
    then scan_attachments account_id vendor email rest
    else if match mimeType att with
            | Some m => PyStr.eqb m (py "application/pdf")
            | None => false
            end || endswith filename (py ".pdf")
    then
      invoice_data <- lift (extract_invoice_data email_service account_id
                              (email_id email) (attachmentId att)) ;;
      match total invoice_data with
      | Some value =>
        ret (Some [ (py "date", email_date email);
                    (py "fournisseur", PStr (title vendor));
                    (py "montant", value);
                    (py "n_facture", invoice_number invoice_data);
                    (py "email_id", PStr (email_id email));
                    (py "payee", PBool false) ])
      | None => scan_attachments account_id vendor email rest
      end
    else scan_attachments account_id vendor email rest
  end.

(** The local variables [all_invoices] and [emails_processed]. *)
Definition locals := (list pydict * Z)%type.

(** The loop over the messages of one search.  An exception of the
    gateway while a message is processed is caught there, and nothing was
    appended for that message. *)
Fixpoint for_emails (account_id vendor : pystr) (table_id : option oid)
    (emails : list Email) (acc : locals) : M locals :=
  match emails with
  | [] => ret acc
  | email :: rest =>
    let (all_invoices, emails_processed) := acc in
    let emails_processed := emails_processed + 1 in
    is_duplicate <-
      match table_id with
      | Some t => check_duplicate t (email_id email)
      | None => ret false
      end ;;
    if is_duplicate
    then for_emails account_id vendor table_id rest
           (all_invoices, emails_processed)
    else
      acc1 <- try_except
        (attachments <- lift (get_email_by_id email_service account_id
                                (email_id email)) ;;
         invoice <- scan_attachments account_id vendor email attachments ;;
         match invoice with
         | Some row => ret (all_invoices ++ [row], emails_processed)
         | None => ret (all_invoices, emails_processed)
         end)
        (fun e => ret (all_invoices, emails_processed)) ;;
      for_emails account_id vendor table_id rest acc1
  end.

(** The loop over the addresses of one vendor: a search that raises is
    caught, and the loop goes on with the next address.  The loop over the
    messages catches what the gateway raises, so the locals are unchanged
    when the handler runs. *)
Fixpoint for_vendor_emails (account_id vendor date_filter : pystr)
    (table_id : option oid) (vendor_emails : list pystr) (acc : locals)
    : M locals :=
  match vendor_emails with
  | [] => ret acc
  | vendor_email :: rest =>
    let query :=
      date_filter ++ py " from:" ++ vendor_email ++ py " subject:facture" in
    acc1 <- try_except
      (emails <- lift (search_emails email_service account_id query) ;;
       for_emails account_id vendor table_id emails acc)
      (fun e => ret acc) ;;
    for_vendor_emails account_id vendor date_filter table_id rest acc1
  end.

Fixpoint for_vendors (automation : Automation) (date_filter : pystr)
    (vendors : list pystr) (acc : locals) : M locals :=
  match vendors with
  | [] => ret acc
  | vendor :: rest =>
    vendor_emails <- _get_vendor_emails (user_id automation) vendor ;;
    acc1 <- for_vendor_emails (account_id automation) vendor date_filter
              (table_id automation) vendor_emails acc ;;
    for_vendors automation date_filter rest acc1
  end.

Definition _execute_actions (automation : Automation) : M ActionResults :=
  let vendors := auto_vendors automation in
  let table_id := table_id automation in
  now <- utcnow ;;
  let start_date := now - Datetime.timedelta_days 7 in
  let date_filter := py "after:" ++ Datetime.strftime_Ymd start_date in
  found <- for_vendors automation date_filter vendors ([], 0) ;;
  let (all_invoices, emails_processed) := found : locals in
  rows_added <-
    match table_id, all_invoices with
    | Some t, _ :: _ =>
      add_rows_bulk t all_invoices (Some (auto_oid automation))
    | _, _ => ret 0
    end ;;
  ret {| res_emails_processed := emails_processed;
         res_invoices_found := Z.of_nat (List.length all_invoices);
         res_rows_added := rows_added;
         res_invoices := all_invoices |}.

Definition run_completed (now : datetime) (r : ActionResults)
    (run : AutomationRun) : AutomationRun :=
  {| run_oid := run_oid run; run_automation_id := run_automation_id run;
     run_user_id := run_user_id run; started_at := started_at run;
     completed_at := Some now; run_status := success; results := Some r;
     emails_processed := res_emails_processed r;
     rows_added := res_rows_added r; error := error run |}.

Definition run_failed (now : datetime) (error_msg : pystr)
    (run : AutomationRun) : AutomationRun :=
  {| run_oid := run_oid run; run_automation_id := run_automation_id run;
     run_user_id := run_user_id run; started_at := started_at run;
     completed_at := Some now; run_status := run_error;
     results := results run; emails_processed := emails_processed run;
     rows_added := rows_added run; error := Some error_msg |}.

(** [{"$set": {"last_run": now, "last_error": None},
      "$inc": {"run_count": 1}}] *)
Definition set_run_succeeded (now : datetime) (a : Automation)
    : Automation :=
  {| auto_oid := auto_oid a; user_id := user_id a;
     account_id := account_id a; auto_name := auto_name a;
     auto_description := auto_description a; auto_trigger := auto_trigger a;
     auto_actions := auto_actions a; auto_vendors := auto_vendors a;
     table_id := table_id a; status := status a;
     created_at := created_at a; updated_at := updated_at a;
     last_run := Some now; next_run := next_run a;
     run_count := run_count a + 1; last_error := None |}.

(** [{"$set": {"last_run": now, "last_error": error_msg}}] *)
Definition set_run_failed (now : datetime) (error_msg : pystr)
    (a : Automation) : Automation :=
  {| auto_oid := auto_oid a; user_id := user_id a;
     account_id := account_id a; auto_name := auto_name a;
     auto_description := auto_description a; auto_trigger := auto_trigger a;
     auto_actions := auto_actions a; auto_vendors := auto_vendors a;
     table_id := table_id a; status := status a;
     created_at := created_at a; updated_at := updated_at a;
     last_run := Some now; next_run := next_run a;
     run_count := run_count a; last_error := Some error_msg |}.

Definition run_automation (automation_id : oid) : M RunOutcome :=
  db <- get_db ;;
  match find (has_auto_oid automation_id) (automations db) with
  | None => ret (RunFailure (py "Automation not found"))
  | Some automation =>
    started <- utcnow ;;
    run_id <- automation_runs_insert_one
      (fun id =>
         {| run_oid := id; run_automation_id := automation_id;
            run_user_id := user_id automation; started_at := started;
            completed_at := None; run_status := running; results := None;
            emails_processed := 0; rows_added := 0; error := None |}) ;;
    try_except
      (result <- _execute_actions automation ;;
       now <- utcnow ;;
       automation_runs_update_one run_id (run_completed now result) ;;;
       now <- utcnow ;;
       automations_update_one automation_id (set_run_succeeded now) ;;;
       ret (RunSuccess run_id result))
      (fun error_msg =>
         now <- utcnow ;;
         automation_runs_update_one run_id (run_failed now error_msg) ;;;
         now <- utcnow ;;
         automations_update_one automation_id
           (set_run_failed now error_msg) ;;;
         ret (RunFailure error_msg))
  end.

End Engine.

End AutomationEngine.

(** ** scheduler.py *)

Module Scheduler.

(** [s.split()]: the words between runs of white space. *)
Fixpoint split_from (word : pystr) (s : pystr) : list pystr :=
  match s with
  | [] => match word with [] => [] | _ => [word] end
  | c :: t =>
    if is_space c
    then match word with
         | [] => split_from [] t
         | _ => word :: split_from [] t
         end
    else split_from (word ++ [c]) t
  end.

Definition split (s : pystr) : list pystr := split_from [] s.

(** APScheduler's cron trigger, as the expressions of its five fields. *)
Record cron_trigger := {
  cron_minute : pystr;
  cron_hour : pystr;
  cron_day : pystr;
  cron_month : pystr;
  cron_day_of_week : pystr
}.

(** [CronTrigger(hour=9, day_of_week=0)]: the fields above the given ones
    are [*], those below take their least value. *)
Definition default_trigger : cron_trigger :=
  {| cron_minute := py "0"; cron_hour := py "9"; cron_day := py "*";
     cron_month := py "*"; cron_day_of_week := py "0" |}.

Record Job := {
  job_id : oid;
  job_trigger : cron_trigger;
  job_args : list oid;
  job_name : pystr
}.

(** [self]: the job store of the running [AsyncIOScheduler] once there is
    one, whether an engine was set, and the started flag. *)
Record AutomationScheduler := {
  scheduler : option (list Job);
  engine : option EmailService;
  _started : bool
}.

Section Schedule.

(** The library: [CronTrigger(minute=, hour=, day=, month=, day_of_week=)]
    raises ValueError for a field it cannot compile, and
    [trigger.get_next_fire_time(None, now)]. *)
Variable CronTrigger :
  pystr -> pystr -> pystr -> pystr -> pystr -> result cron_trigger.
Variable get_next_fire_time : cron_trigger -> datetime -> option datetime.

Definition get_job (jobs : list Job) (id : oid) : option Job :=
  find (fun j => N.eqb (job_id j) id) jobs.

Definition remove_job (jobs : list Job) (id : oid) : list Job :=
  filter (fun j => negb (N.eqb (job_id j) id)) jobs.

(** [add_job(..., replace_existing=True)].  The list is in the order in
    which the jobs were added; the library keeps its jobs by next run
    time.  A job is looked up by its id, with [get_job], and nothing is
    said about the order. *)
Definition add_job (jobs : list Job) (j : Job) : list Job :=
  remove_job jobs (job_id j) ++ [j].

Definition set_next_run (next_run : option datetime) (a : Automation)
    : Automation :=
  {| auto_oid := auto_oid a; user_id := user_id a;
     account_id := account_id a; auto_name := auto_name a;
     auto_description := auto_description a; auto_trigger := auto_trigger a;
     auto_actions := auto_actions a; auto_vendors := auto_vendors a;
     table_id := table_id a; status := status a;
     created_at := created_at a; updated_at := updated_at a;
     last_run := last_run a; next_run := next_run;
     run_count := run_count a; last_error := last_error a |}.

(** The head of the [try] block: the trigger of a stored cron expression.
    A stored [None] has no [split].  The trigger of a stored automation
    always has the key [cron], which [model_dump] writes, so the default
    of [get] for a missing key is never taken. *)
Definition trigger_of (cron_expr : option pystr) : result cron_trigger :=
  match cron_expr with
  | None => Raise (py "'NoneType' object has no attribute 'split'")
  | Some expr =>
    match split expr with
    | p0 :: p1 :: p2 :: p3 :: p4 :: _ => CronTrigger p0 p1 p2 p3 p4
    | _ => Ok default_trigger
    end
  end.

Definition schedule_automation (self : AutomationScheduler)
    (automation : Automation) : M (bool * AutomationScheduler) :=
  match scheduler self with
  | None => ret (false, self)
  | Some jobs =>
    let automation_id := auto_oid automation in
    let cron_expr := cron (auto_trigger automation) in
    try_except
      (trigger <- lift (trigger_of cron_expr) ;;
       let jobs :=
         match get_job jobs automation_id with
         | Some _ => remove_job jobs automation_id
         | None => jobs
         end in
       let jobs :=
         add_job jobs
           {| job_id := automation_id; job_trigger := trigger;
              job_args := [automation_id];
              job_name := auto_name automation |} in
       now <- utcnow ;;
       let next_run := get_next_fire_time trigger now in
       automations_update_one automation_id (set_next_run next_run) ;;;
       ret (true, {| scheduler := Some jobs; engine := engine self;
                     _started := _started self |}))
      (fun e => ret (false, self))
  end.


(** *** The other operations of the scheduler *)

Definition set_engine (self : AutomationScheduler) (e : EmailService)
    : AutomationScheduler :=
  {| scheduler := scheduler self; engine := Some e;
     _started := _started self |}.

(** [remove_job] of a job that is not there raises JobLookupError, which
    is caught. *)
Definition unschedule_automation (self : AutomationScheduler)
    (automation_id : oid) : AutomationScheduler :=
  match scheduler self with
  | Some jobs =>
    {| scheduler := Some (remove_job jobs automation_id);
       engine := engine self; _started := _started self |}
  | None => self
  end.

Definition is_active (a : Automation) : bool :=
  match status a with active => true | _ => false end.

(** The loop of [_load_automations] over the documents that the query
    [{"status": "active"}] answered. *)
Fixpoint load_loop (self : AutomationScheduler) (found : list Automation)
    : M AutomationScheduler :=
  match found with
  | [] => ret self
  | automation :: rest =>
    r <- schedule_automation self automation ;;
    load_loop (snd r) rest
  end.

Definition _load_automations (self : AutomationScheduler)
    : M AutomationScheduler :=
  db <- get_db ;;
  load_loop self (filter is_active (automations db)).

Definition start (self : AutomationScheduler) : M AutomationScheduler :=
  if _started self then ret self
  else
    _load_automations
      {| scheduler := Some []; engine := engine self; _started := true |}.

Definition _run_automation (self : AutomationScheduler)
    (automation_id : oid) : M unit :=
  match engine self with
  | None => ret tt
  | Some e =>
    try_except
      (AutomationEngine.run_automation e automation_id ;;; ret tt)
      (fun _ => ret tt)
  end.

Definition run_now (self : AutomationScheduler) (automation_id : oid)
    : M RunOutcome :=
  match engine self with
  | None => ret (RunFailure (py "Engine not set"))
  | Some e => AutomationEngine.run_automation e automation_id
  end.

End Schedule.

(** Plain field expressions: [*], or a number within the bounds of the
    field.  The library compiles these, and more forms besides. *)
Definition plain_field (lo hi : Z) (expr : pystr) : bool :=
  PyStr.eqb expr (py "*") ||
  (negb (PyStr.eqb expr []) && forallb is_digit expr &&
   (lo <=? int_of_digits expr) && (int_of_digits expr <=? hi)).

Definition plain_CronTrigger (minute hour day month day_of_week : pystr)
    : result cron_trigger :=
  if plain_field 0 59 minute && plain_field 0 23 hour &&
     plain_field 1 31 day && plain_field 1 12 month &&
     plain_field 0 6 day_of_week
  then Ok {| cron_minute := minute; cron_hour := hour; cron_day := day;
             cron_month := month; cron_day_of_week := day_of_week |}
  else Raise (py "Unrecognized expression").

End Scheduler.


(** ** engine.py: the life of an automation

    These operations import the scheduler late; [automation_scheduler], the
    one scheduler of the process, is passed in and handed back.  Pausing
    and resuming are given here for an id that [ObjectId] accepted and
    that is written as the store writes it, so that the job of that name
    is the job of that id; module [ByString] has them, and
    [delete_automation], on any string. *)

Record CreatedAutomation := {
  created_id : oid;
  created_name : pystr;
  created_table_id : oid;
  created_table_name : pystr;
  created_trigger : AutomationTrigger;
  created_vendors : list pystr;
  created_summary : pystr
}.

Module EngineLifecycle.

Import TableManager Scheduler Summary.

Section Lifecycle.

Variable CronTrigger :
  pystr -> pystr -> pystr -> pystr -> pystr -> result cron_trigger.
Variable get_next_fire_time : cron_trigger -> datetime -> option datetime.
(** The offset of the local time zone. *)
Variable utc_offset : Z.

Definition automations_insert_one (doc : oid -> Automation) : M oid :=
  fun w =>
    let id := next_oid w in
    (Ok id,
     log (InsertOne "automations" id)
       {| db := with_automations (automations (db w) ++ [doc id]) (db w);
          clock := clock w; next_oid := N.succ id; oplog := oplog w |}).

Definition automations_delete_one (id : oid) : M bool :=
  fun w =>
    (Ok (existsb (has_auto_oid id) (automations (db w))),
     log (DeleteOne "automations" id)
       (set_db (with_automations
                  (delete_first (has_auto_oid id) (automations (db w)))
                  (db w)) w)).

(** [{"$set": {"status": status, "updated_at": now}}] *)
Definition set_status (new_status : AutomationStatus) (now : datetime)
    (a : Automation) : Automation :=
  {| auto_oid := auto_oid a; user_id := user_id a;
     account_id := account_id a; auto_name := auto_name a;
     auto_description := auto_description a; auto_trigger := auto_trigger a;
     auto_actions := auto_actions a; auto_vendors := auto_vendors a;
     table_id := table_id a; status := new_status;
     created_at := created_at a; updated_at := now;
     last_run := last_run a; next_run := next_run a;
     run_count := run_count a; last_error := last_error a |}.

Definition get_automation (automation_id : oid) : M (option Automation) :=
  db <- get_db ;;
  ret (find (has_auto_oid automation_id) (automations db)).

(** The summary is formatted last: when it raises, the table, the
    document and the job are there, and the scheduler is handed back with
    the exception. *)
Definition create_automation (sched : AutomationScheduler)
    (user_id account_id : pystr) (config : AutomationConfig)
    : M (result CreatedAutomation * AutomationScheduler) :=
  year <- now_year utc_offset ;;
  let table_name := py "Factures " ++ str_of_int year in
  table_name <-
    match vendors config with
    | [] => ret table_name
    | _ =>
      if Nat.leb (List.length (vendors config)) 3 then
        year <- now_year utc_offset ;;
        ret (py "Factures " ++ join (py ", ") (map title (vendors config))
             ++ py " " ++ str_of_int year)
      else ret table_name
    end ;;
  year <- now_year utc_offset ;;
  table_id <- create_table utc_offset user_id table_name None (Some year)
                None (Some (py "Généré par: " ++ name config)) ;;
  created <- utcnow ;;
  updated <- utcnow ;;
  let automation_doc := fun id =>
    {| auto_oid := id; user_id := user_id; account_id := account_id;
       auto_name := name config; auto_description := description config;
       auto_trigger := trigger config; auto_actions := actions config;
       auto_vendors := vendors config; table_id := Some table_id;
       status := active; created_at := created; updated_at := updated;
       last_run := None; next_run := None; run_count := 0;
       last_error := None |} in
  automation_id <- automations_insert_one automation_doc ;;
  scheduled <- schedule_automation CronTrigger get_next_fire_time sched
                 (automation_doc automation_id) ;;
  match format_automation_summary config with
  | Raise e => ret (Raise e, snd scheduled)
  | Ok summary =>
    ret (Ok {| created_id := automation_id; created_name := name config;
               created_table_id := table_id;
               created_table_name := table_name;
               created_trigger := trigger config;
               created_vendors := vendors config;
               created_summary := summary |},
         snd scheduled)
  end.

Definition pause_automation (sched : AutomationScheduler)
    (automation_id : oid) : M (bool * AutomationScheduler) :=
  let sched := unschedule_automation sched automation_id in
  now <- utcnow ;;
  modified <- automations_update_one automation_id (set_status paused now) ;;
  ret (modified, sched).

Definition resume_automation (sched : AutomationScheduler)
    (automation_id : oid) : M (bool * AutomationScheduler) :=
  db <- get_db ;;
  match find (has_auto_oid automation_id) (automations db) with
  | None => ret (false, sched)
  | Some automation =>
    scheduled <- schedule_automation CronTrigger get_next_fire_time sched
                   automation ;;
    now <- utcnow ;;
    modified <- automations_update_one automation_id
                  (set_status active now) ;;
    ret (modified, snd scheduled)
  end.

End Lifecycle.

End EngineLifecycle.

(** ** Ids as the callers pass them

    The operations above take ids that [ObjectId(...)] has accepted.  The
    source takes the id strings of its callers, the routes among them, and
    calls [ObjectId] on them where it builds a filter: for a string that is
    no id this call raises [InvalidId], and nothing catches it.  Here are
    the operations on id strings, with that call where the source has it.

    [ObjectId(s)] and [str(o)] are the library's.  Once [ObjectId] has
    accepted a string, its later calls on the same string answer the same
    id.  The ids of the scheduler's jobs are the strings
    [str(automation["_id"])], and a job is looked up by its string.  The
    id of a row is a string that [add_row] or [add_rows_bulk] made, which
    is compared as a string and never passed to [ObjectId]: a row id
    stands for the string of it. *)

Module ByString.

Import TableManager Scheduler.

Section Ids.

(** [ObjectId(s)] *)
Variable ObjectId_of : pystr -> result oid.
(** [str(o)] *)
Variable str_of_oid : oid -> pystr.

Definition get_table (table_id : pystr) : M (option Table) :=
  id <- lift (ObjectId_of table_id) ;;
  TableManager.get_table id.

(** The row id and the creation time are made before the filter is
    built. *)
Definition add_row (table_id : pystr) (data : pydict)
    (source_email_id : option pystr) (source_automation_id : option oid)
    : M oid :=
  row_id <- ObjectId ;;
  created <- utcnow ;;
  let row :=
    {| row_id := row_id; row_data := data; row_created_at := created;
       source_email_id :=
         match source_email_id with Some s => PStr s | None => PNone end;
       source_automation_id := source_automation_id |} in
  let amount_update :=
    match montant_of data with
    | Some amount => inc_total_amount amount
    | None => fun t => t
    end in
  id <- lift (ObjectId_of table_id) ;;
  now <- utcnow ;;
  tables_update_one id
    (fun t => amount_update (set_updated_at now (push_rows [row] t))) ;;;
  ret row_id.

Definition update_row (table_id : pystr) (row_id : oid) (data : pydict)
    : M bool :=
  id <- lift (ObjectId_of table_id) ;;
  TableManager.update_row id row_id data.

Definition toggle_paid (table_id : pystr) (row_id : oid) : M bool :=
  id <- lift (ObjectId_of table_id) ;;
  TableManager.toggle_paid id row_id.

Definition delete_row (table_id : pystr) (row_id : oid) : M bool :=
  id <- lift (ObjectId_of table_id) ;;
  TableManager.delete_row id row_id.

Definition delete_table (table_id : pystr) : M bool :=
  id <- lift (ObjectId_of table_id) ;;
  TableManager.delete_table id.

Definition run_automation (email_service : EmailService)
    (automation_id : pystr) : M RunOutcome :=
  id <- lift (ObjectId_of automation_id) ;;
  AutomationEngine.run_automation email_service id.

(** [self.scheduler.remove_job(automation_id)]: the job of that name, if
    there is one. *)
Definition job_named (automation_id : pystr) (j : Job) : bool :=
  PyStr.eqb (str_of_oid (job_id j)) automation_id.

Definition unschedule_automation (self : AutomationScheduler)
    (automation_id : pystr) : AutomationScheduler :=
  match scheduler self with
  | Some jobs =>
    {| scheduler := Some (filter (fun j => negb (job_named automation_id j))
                            jobs);
       engine := engine self; _started := _started self |}
  | None => self
  end.

(** The job is removed before the filter is built. *)
Definition pause_automation (sched : AutomationScheduler)
    (automation_id : pystr) : M (bool * AutomationScheduler) :=
  let sched := unschedule_automation sched automation_id in
  id <- lift (ObjectId_of automation_id) ;;
  now <- utcnow ;;
  modified <- automations_update_one id
                (EngineLifecycle.set_status paused now) ;;
  ret (modified, sched).

Variable CronTrigger :
  pystr -> pystr -> pystr -> pystr -> pystr -> result cron_trigger.
Variable get_next_fire_time : cron_trigger -> datetime -> option datetime.

Definition resume_automation (sched : AutomationScheduler)
    (automation_id : pystr) : M (bool * AutomationScheduler) :=
  id <- lift (ObjectId_of automation_id) ;;
  EngineLifecycle.resume_automation CronTrigger get_next_fire_time sched id.

Definition delete_automation (sched : AutomationScheduler)
    (automation_id : pystr) (delete_table_too : bool)
    : M (bool * AutomationScheduler) :=
  id <- lift (ObjectId_of automation_id) ;;
  db <- get_db ;;
  match find (has_auto_oid id) (automations db) with
  | None => ret (false, sched)
  | Some automation =>
    let sched := unschedule_automation sched automation_id in
    match (if delete_table_too then table_id automation else None) with
    | Some t => TableManager.delete_table t ;;; ret tt
    | None => ret tt
    end ;;;
    deleted <- EngineLifecycle.automations_delete_one id ;;
    ret (deleted, sched)
  end.

End Ids.

(** Hexadecimal digits. *)
Definition hex_value (c : N) : option N :=
  if (48 <=? c)%N && (c <=? 57)%N then Some (c - 48)%N
  else if (97 <=? c)%N && (c <=? 102)%N then Some (c - 87)%N
  else if (65 <=? c)%N && (c <=? 70)%N then Some (c - 55)%N
  else None.

Fixpoint of_hex (s : pystr) (acc : N) : option N :=
  match s with
  | [] => Some acc
  | c :: t =>
    match hex_value c with
    | Some d => of_hex t (acc * 16 + d)%N
    | None => None
    end
  end.

(** The strings of 24 hexadecimal digits.  The library takes these, as the
    ids they spell, and rejects every string whose length is not 24. *)
Definition plain_ObjectId (s : pystr) : result oid :=
  match (if Nat.eqb (List.length s) 24 then of_hex s 0%N else None) with
  | Some id => Ok id
  | None =>
    Raise (py "'" ++ s ++
           py "' is not a valid ObjectId, it must be a 12-byte input or a 24-character hex string")
  end.

Definition hex_digit (d : N) : N :=
  if (d <? 10)%N then (48 + d)%N else (87 + d)%N.

Fixpoint to_hex (digits : nat) (id : N) (acc : pystr) : pystr :=
  match digits with
  | O => acc
  | S n => to_hex n (id / 16)%N (hex_digit (id mod 16)%N :: acc)
  end.

(** [str(o)]: the 24 hexadecimal digits of the id, in lower case. *)
Definition plain_str (id : oid) : pystr := to_hex 24 id [].

End ByString.

(** * Properties *)

(** ** Strings *)

Lemma pystr_eqb_spec a b : reflect (a = b) (PyStr.eqb a b).
Proof.
  revert b; induction a as [|x a IH]; intros [|y b]; simpl;
    try (constructor; congruence).
  destruct (N.eqb_spec x y) as [->|Hxy]; simpl.
  - destruct (IH b) as [->|Hab]; constructor; congruence.
  - constructor; congruence.
Qed.

Lemma pystr_eqb_eq a b : PyStr.eqb a b = true <-> a = b.
Proof. destruct (pystr_eqb_spec a b); split; congruence. Qed.

Lemma pystr_eqb_refl a : PyStr.eqb a a = true.
Proof. apply pystr_eqb_eq; reflexivity. Qed.

Lemma pystr_eqb_neq a b : a <> b -> PyStr.eqb a b = false.
Proof. destruct (pystr_eqb_spec a b); congruence. Qed.

Lemma mem_In x l : mem x l = true <-> In x l.
Proof.
  unfold mem; rewrite existsb_exists; split.
  - intros [y [Hy E]]. apply pystr_eqb_eq in E; subst; assumption.
  - intros H; exists x; split; [assumption | apply pystr_eqb_refl].
Qed.

Lemma mem_not_In x l : mem x l = false <-> ~ In x l.
Proof.
  rewrite <- mem_In. destruct (mem x l); split; congruence.
Qed.

(** ** The request parser *)

Section VendorExtraction.

Variable text_lower : pystr.

(** Whether an item of the alias table has an alias in the text. *)
Definition alias_in_text (item : pystr * list pystr) : bool :=
  existsb (fun alias => contains (lower alias) text_lower) (snd item).

Lemma vendor_step_absent found item :
  alias_in_text item = false -> vendor_step text_lower found item = found.
Proof.
  destruct item as [k al]; unfold alias_in_text; simpl; intros ->.
  reflexivity.
Qed.

Lemma vendor_step_new found item :
  alias_in_text item = true -> ~ In (fst item) found ->
  vendor_step text_lower found item = found ++ [fst item].
Proof.
  destruct item as [k al]; unfold alias_in_text; simpl; intros -> Hk.
  apply mem_not_In in Hk; rewrite Hk; reflexivity.
Qed.

(** The loop keeps what was found and appends, in table order, the keys
    whose aliases occur, as long as the keys of the table are distinct and
    new. *)
Lemma vendor_loop table : forall found,
  NoDup (map fst table) ->
  (forall k, In k (map fst table) -> ~ In k found) ->
  fold_left (vendor_step text_lower) table found =
  found ++ map fst (filter alias_in_text table).
Proof.
  induction table as [|item table IH]; intros found Hnd Hnew; simpl.
  - rewrite app_nil_r; reflexivity.
  - inversion Hnd as [|k ks Hk Hnd']; subst.
    destruct (alias_in_text item) eqn:E.
    + rewrite (vendor_step_new found item E) by (apply Hnew; left; reflexivity).
      rewrite IH; [simpl; rewrite <- app_assoc; reflexivity | assumption |].
      intros k Hin Hfound. apply in_app_or in Hfound as [Hf|Hf].
      * apply (Hnew k); [right; assumption | assumption].
      * destruct Hf as [<-|[]]; contradiction.
    + rewrite (vendor_step_absent found item E).
      apply IH; [assumption |].
      intros k Hin; apply Hnew; right; assumption.
Qed.

End VendorExtraction.

Fixpoint nodupb (l : list pystr) : bool :=
  match l with
  | [] => true
  | x :: t => negb (mem x t) && nodupb t
  end.

Lemma nodupb_NoDup l : nodupb l = true -> NoDup l.
Proof.
  induction l as [|x t IH]; simpl; intros H; constructor.
  - apply andb_prop in H as [H _]. apply mem_not_In.
    destruct (mem x t); [discriminate | reflexivity].
  - apply IH. apply andb_prop in H as [_ H]; exact H.
Qed.

Lemma KNOWN_VENDORS_keys_distinct : NoDup (map fst KNOWN_VENDORS).
Proof. apply nodupb_NoDup; vm_compute; reflexivity. Qed.

Lemma extract_vendors_filter text :
  extract_vendors text =
  map fst (filter (alias_in_text (lower text)) KNOWN_VENDORS).
Proof.
  unfold extract_vendors, extract_vendors_in.
  rewrite vendor_loop; [reflexivity | apply KNOWN_VENDORS_keys_distinct |].
  intros k _ [].
Qed.

(** C9, as amended.  For every text, [extract_vendors] lists the keys of
    the alias table, in the order of the table, that have an alias occurring
    in the lowercased text (accents are kept); so a vendor is reported if
    and only if one of its aliases is a substring of the lowercased text,
    and no key is reported twice. *)
Theorem extract_vendors_table_order text :
  extract_vendors text =
    map fst (filter (alias_in_text (lower text)) KNOWN_VENDORS) /\
  (forall vendor_key,
     In vendor_key (extract_vendors text) <->
     exists aliases alias,
       In (vendor_key, aliases) KNOWN_VENDORS /\ In alias aliases /\
       contains (lower alias) (lower text) = true) /\
  NoDup (extract_vendors text).
Proof.
  rewrite extract_vendors_filter. split; [reflexivity | split].
  - intros k. rewrite in_map_iff. split.
    + intros [[k' al] [Hk Hin]]. simpl in Hk; subst k'.
      apply filter_In in Hin as [Hin Hal].
      unfold alias_in_text in Hal; simpl in Hal.
      apply existsb_exists in Hal as [a [Ha Hc]].
      exists al, a; auto.
    + intros [al [a [Hin [Ha Hc]]]].
      exists (k, al); split; [reflexivity |].
      apply filter_In; split; [assumption |].
      unfold alias_in_text; simpl. apply existsb_exists; exists a; auto.
  - assert (H : forall table : list (pystr * list pystr),
               NoDup (map fst table) ->
               NoDup (map fst (filter (alias_in_text (lower text)) table))).
    { induction table as [|item table IH]; simpl; intros Hnd; [constructor |].
      inversion Hnd as [|k ks Hk Hnd']; subst.
      destruct (alias_in_text (lower text) item); simpl; [| auto].
      constructor; [| auto].
      intros Hin; apply Hk.
      apply in_map_iff in Hin as [x [Hx Hf]].
      apply filter_In in Hf as [Hf _].
      apply in_map_iff; exists x; auto. }
    apply H, KNOWN_VENDORS_keys_distinct.
Qed.

(** The reading of the specification: the text is lowercased and its
    accents are stripped; vendors come in the order of the position of
    their first alias match. *)
Module SpecReading.

Local Open Scope N_scope.

Definition strip_accent (c : N) : N :=
  if (224 <=? c) && (c <=? 229) then 97
  else if c =? 231 then 99
  else if (232 <=? c) && (c <=? 235) then 101
  else if (236 <=? c) && (c <=? 239) then 105
  else if c =? 241 then 110
  else if ((242 <=? c) && (c <=? 246)) || (c =? 248) then 111
  else if (249 <=? c) && (c <=? 252) then 117
  else if (c =? 253) || (c =? 255) then 121
  else c.

Definition normalize (text : pystr) : pystr := map strip_accent (lower text).

(** The least position of [text] where one of the aliases starts. *)
Fixpoint first_match_from (aliases : list pystr) (text : pystr)
    (position : nat) : option nat :=
  if existsb (fun alias => startswith alias text) aliases then Some position
  else match text with
       | [] => None
       | _ :: t => first_match_from aliases t (S position)
       end.

Definition first_match (vendor_key text : pystr) : option nat :=
  first_match_from (map lower (dict_get KNOWN_VENDORS vendor_key [])) text O.

Fixpoint ascending (l : list (option nat)) : bool :=
  match l with
  | Some a :: ((Some b :: _) as t) => Nat.leb a b && ascending t
  | [Some _] | [] => true
  | _ => false
  end.

Definition ordered_by_first_match (text : pystr) (found : list pystr)
    : bool :=
  ascending (map (fun vendor_key => first_match vendor_key (normalize text))
               found).

Definition found_in_normalized (vendor_key text : pystr) : bool :=
  match first_match vendor_key (normalize text) with
  | Some _ => true
  | None => false
  end.

End SpecReading.

(** C9, as stated, fails twice.  In "metro puis distram" the alias of
    metro comes first, at position 0, and that of distram at position 11,
    yet distram is listed first.  In "factures Métro" the accent-stripped
    text has the alias "metro", yet no vendor is reported. *)
Lemma extract_vendors_not_by_position :
  extract_vendors (py "metro puis distram") = [py "distram"; py "metro"] /\
  SpecReading.first_match (py "metro")
    (SpecReading.normalize (py "metro puis distram")) = Some 0%nat /\
  SpecReading.first_match (py "distram")
    (SpecReading.normalize (py "metro puis distram")) = Some 11%nat /\
  SpecReading.ordered_by_first_match (py "metro puis distram")
    (extract_vendors (py "metro puis distram")) = false /\
  SpecReading.found_in_normalized (py "metro") (py "factures Métro") = true /\
  ~ In (py "metro") (extract_vendors (py "factures Métro")).
Proof.
  repeat split; try (vm_compute; reflexivity).
  vm_compute. intros [].
Qed.

(** C5.  The cron expression of every parsed config is [build_cron] of its
    frequency, day of week and hour, and [build_cron] gives the daily,
    weekly (day 0 when none was extracted), monthly and fall-back
    expressions; weekly, day 3, hour 14 gives "0 14 * * 3" and monthly,
    hour 9 gives "0 9 1 * *". *)
Theorem cron_derivation text config :
  parse_automation_request text = Some config ->
  (exists f,
     frequency (trigger config) = Some f /\
     cron (trigger config) =
       Some (build_cron f (day_of_week (trigger config))
               (hour (trigger config)))) /\
  (forall H D, build_cron (py "daily") D H =
               py "0 " ++ str_of_int H ++ py " * * *") /\
  (forall H D, build_cron (py "weekly") (Some D) H =
               py "0 " ++ str_of_int H ++ py " * * " ++ str_of_int D) /\
  (forall H, build_cron (py "weekly") None H =
             py "0 " ++ str_of_int H ++ py " * * 0") /\
  (forall H D, build_cron (py "monthly") D H =
               py "0 " ++ str_of_int H ++ py " 1 * *") /\
  (forall f H D,
     f <> py "daily" -> f <> py "weekly" -> f <> py "monthly" ->
     build_cron f D H = py "0 " ++ str_of_int H ++ py " * * 0") /\
  build_cron (py "weekly") (Some 3) 14 = py "0 14 * * 3" /\
  build_cron (py "monthly") None 9 = py "0 9 1 * *".
Proof.
  intros Hparse. split; [| repeat split; try reflexivity].
  - unfold parse_automation_request in Hparse.
    destruct (negb (detect_automation_intent text)); [discriminate |].
    destruct (extract_frequency text) as [f d].
    inversion Hparse; subst; simpl. exists f; split; reflexivity.
  - intros f H D Hd Hw Hm. unfold build_cron.
    rewrite (pystr_eqb_neq Hd), (pystr_eqb_neq Hw), (pystr_eqb_neq Hm).
    reflexivity.
Qed.

Lemma cron_derivation_witness :
  exists config,
    parse_automation_request (py "chaque jeudi a 14h les factures metro")
      = Some config /\
    exists f,
      frequency (trigger config) = Some f /\
      cron (trigger config) =
        Some (build_cron f (day_of_week (trigger config))
                (hour (trigger config))).
Proof.
  eexists; split; [vm_compute; reflexivity |].
  refine (proj1 (@cron_derivation
                   (py "chaque jeudi a 14h les factures metro") _ _)).
  vm_compute; reflexivity.
Defined.

(** C6.  The reminder is not an automation request; the Monday request
    parses to a config with the vendor distram, day of week 0 and hour 9. *)
Theorem intent_gate_precision :
  parse_automation_request (py "rappelle-moi d'appeler Jean") = None /\
  exists config,
    parse_automation_request
      (py "chaque lundi à 9h récupère les factures de Distram") = Some config /\
    vendors config = [py "distram"] /\
    day_of_week (trigger config) = Some 0 /\
    hour (trigger config) = 9.
Proof.
  split; [vm_compute; reflexivity |].
  eexists; split; [vm_compute; reflexivity |].
  repeat split.
Qed.

(** ** The table store *)

(** The sum of the numeric [montant] of the rows, and the invariant. *)
Definition rows_total (rs : list TableRow) : Z :=
  fold_right
    (fun r acc =>
       match montant_of (row_data r) with
       | Some amount => amount + acc
       | None => acc
       end) 0 rs.

Definition total_consistent (t : Table) : Prop :=
  total_amount t = rows_total (rows t).

Lemma rows_total_app a b : rows_total (a ++ b) = rows_total a + rows_total b.
Proof.
  induction a as [|r a IH]; simpl; [reflexivity |].
  rewrite IH. destruct (montant_of (row_data r)); lia.
Qed.

Lemma update_first_no_match {A} (p : A -> bool) f l :
  existsb p l = false -> update_first p f l = l.
Proof.
  induction l as [|x l IH]; simpl; [reflexivity |].
  destruct (p x); simpl; [discriminate |].
  intros H; rewrite IH by assumption; reflexivity.
Qed.

Lemma update_first_Forall {A} (P : A -> Prop) (p : A -> bool) f l :
  (forall x, P x -> P (f x)) -> Forall P l -> Forall P (update_first p f l).
Proof.
  intros Hf; induction 1 as [|x l Hx Hl IH]; simpl; [constructor |].
  destruct (p x); constructor; auto.
Qed.

Lemma update_first_map {A B} (g : A -> B) (p : A -> bool) f l :
  (forall x, g (f x) = g x) -> map g (update_first p f l) = map g l.
Proof.
  intros Hg; induction l as [|x l IH]; simpl; [reflexivity |].
  destruct (p x); simpl; [rewrite Hg | rewrite IH]; reflexivity.
Qed.

Lemma with_tables_same d : with_tables (tables d) d = d.
Proof. destruct d; reflexivity. Qed.

Import TableManager.

(** Running the primitive steps of the monad. *)
Ltac run_M :=
  unfold bind, ret, raise, lift, get_db, utcnow, ObjectId,
    tables_update_one, automations_update_one, automation_runs_update_one,
    automation_runs_insert_one, set_db, log;
  cbn [db clock next_oid oplog fst snd].

(** The loop of [add_rows_bulk] makes one row per input dict, in order, and
    sums their amounts; it writes nothing. *)
Lemma bulk_rows_spec rows_data src : forall rows total w,
  exists new w',
    bulk_rows rows_data src rows total w
      = (Ok (rows ++ new, total + rows_total new), w') /\
    map row_data new = rows_data /\
    map source_email_id new
      = map (fun data => get data (py "email_id")) rows_data /\
    db w' = db w /\ oplog w' = oplog w.
Proof.
  induction rows_data as [|data rest IH]; intros rows total w.
  - exists [], w. simpl. unfold ret. rewrite app_nil_r, Z.add_0_r. auto.
  - cbn [bulk_rows]. unfold bind, ObjectId, utcnow.
    cbn [db clock next_oid oplog].
    match goal with
    | |- context [bulk_rows rest src ?r ?t ?w1] =>
      destruct (IH r t w1) as [new [w' [E [Hd [Hs [Hdb Hlog]]]]]]
    end.
    cbn [db clock next_oid oplog] in Hdb, Hlog.
    match type of E with
    | context [rows ++ [?r]] => exists (r :: new), w'
    end.
    rewrite E, <- app_assoc. simpl.
    repeat split; try congruence.
    destruct (montant_of data); do 3 f_equal; lia.
Qed.

Lemma push_rows_consistent new amount now t :
  amount = rows_total new -> total_consistent t ->
  total_consistent
    (inc_total_amount amount (set_updated_at now (push_rows new t))).
Proof.
  unfold total_consistent; simpl; intros -> ->.
  rewrite rows_total_app; reflexivity.
Qed.

(** The amounts are whole numbers, and the code adds them as doubles.
    When the absolute values of some whole numbers add up to at most
    [2 ^ 53], every sum of some of them is a whole number that a double
    holds, and adding them as doubles, in any order, is exact.  The
    statements about totals are made for such amounts. *)
Definition abs_sum (amounts : list Z) : Z :=
  fold_right (fun x acc => Z.abs x + acc) 0 amounts.

Definition exact_in_double (amounts : list Z) : Prop :=
  abs_sum amounts <= 2 ^ 53.

Definition amount_of (data : pydict) : Z :=
  match montant_of data with Some amount => amount | None => 0 end.

(** X26.  For whole amounts that doubles add exactly: [add_rows_bulk]
    keeps the invariant of every table, and the rows and the total change
    in one [update_one]. *)
Lemma add_rows_bulk_total_consistent table_id rows_data src w :
  Forall total_consistent (tables (db w)) ->
  (forall t, In t (tables (db w)) -> has_table_oid table_id t = true ->
     exact_in_double (total_amount t :: map amount_of rows_data)) ->
  exists n w',
    add_rows_bulk table_id rows_data src w = (Ok n, w') /\
    Forall total_consistent (tables (db w')) /\
    (rows_data <> [] ->
     oplog w' = oplog w ++ [UpdateOne "tables" table_id]).
Proof.
  intros Hinv _. unfold add_rows_bulk, bind at 1.
  destruct (bulk_rows_spec rows_data src [] 0 w)
    as [new [w1 [E [Hd [_ [Hdb Hlog]]]]]].
  rewrite E. simpl app. destruct new as [|r new].
  - eexists _, w1. split; [reflexivity |]. rewrite Hdb. split; [assumption |].
    intros Hne. destruct rows_data; [congruence | discriminate].
  - eexists _, _. split; [reflexivity |]. simpl. rewrite Hdb, Hlog.
    split; [| reflexivity].
    apply update_first_Forall; [| assumption].
    intros t Ht. apply push_rows_consistent; [reflexivity | assumption].
Qed.

(** X27.  For a whole amount that doubles add exactly to the total, and
    that is not a bool, which the store does not increment by: [add_row]
    keeps the invariant of every table, in one [update_one]. *)
Lemma add_row_total_consistent table_id data email src w :
  Forall total_consistent (tables (db w)) ->
  (forall b, lookup data (py "montant") <> Some (PBool b)) ->
  (forall t, In t (tables (db w)) -> has_table_oid table_id t = true ->
     exact_in_double [total_amount t; amount_of data]) ->
  exists id w',
    add_row table_id data email src w = (Ok id, w') /\
    Forall total_consistent (tables (db w')) /\
    oplog w' = oplog w ++ [UpdateOne "tables" table_id].
Proof.
  intros Hinv _ _. unfold add_row. run_M.
  eexists _, _. split; [reflexivity |]. cbn [db oplog tables].
  split; [| reflexivity].
  apply update_first_Forall; [| assumption].
  intros t Ht. unfold total_consistent in *.
  destruct (montant_of data) as [amount|] eqn:E; simpl;
    rewrite rows_total_app, Ht; simpl; rewrite E; lia.
Qed.

(** [delete_row] removes rows and leaves every total as it was. *)
Lemma delete_row_total_unchanged table_id row_id w :
  exists found w',
    delete_row table_id row_id w = (Ok found, w') /\
    map total_amount (tables (db w')) = map total_amount (tables (db w)).
Proof.
  unfold delete_row. run_M.
  eexists _, _. split; [reflexivity |]. cbn [db tables].
  apply update_first_map. reflexivity.
Qed.

(** A table of one invoice of 1000, and the world that holds it. *)
Definition no_learned_senders : pystr -> pystr
    -> result (option (option (list pystr))) :=
  fun _ _ => Ok None.

Definition invoice_row : TableRow :=
  {| row_id := 7%N; row_data := [(py "montant", PNum 1000)];
     row_created_at := 0; source_email_id := PStr (py "m1");
     source_automation_id := None |}.

Definition invoice_table (rs : list TableRow) (total : Z) : Table :=
  {| table_oid := 1%N; table_user_id := py "u1";
     table_name := py "Factures 2026"; table_description := None;
     columns := []; rows := rs; year := 2026;
     table_created_at := 0; table_updated_at := 0;
     automation_id := None; total_amount := total |}.

Definition invoice_world : World :=
  {| db := {| tables := [invoice_table [invoice_row] 1000];
              automations := []; automation_runs := [];
              learned_senders := no_learned_senders |};
     clock := 10; next_oid := 8%N; oplog := [] |}.

(** C1, on [delete_row].  The table holds one row of amount 1000 and the
    total 1000.  After the row is deleted the table has no row left and its
    total is still 1000: the total is no longer the sum of the amounts. *)
Theorem delete_row_breaks_total :
  Forall total_consistent (tables (db invoice_world)) /\
  exists w' t',
    delete_row 1%N 7%N invoice_world = (Ok true, w') /\
    tables (db w') = [t'] /\
    rows t' = [] /\ total_amount t' = 1000 /\
    ~ total_consistent t'.
Proof.
  split.
  - repeat constructor.
  - eexists _, _. split; [reflexivity |]. simpl.
    repeat split. unfold total_consistent; simpl. discriminate.
Qed.

(** C10.  [add_rows_bulk] answers the length of its input, whether or not a
    table has the id; when none has, the store is left as it was; for an
    empty input nothing is written and the answer is 0. *)
Theorem add_rows_bulk_returns_length table_id rows_data src w :
  exists w',
    add_rows_bulk table_id rows_data src w
      = (Ok (Z.of_nat (List.length rows_data)), w') /\
    (existsb (has_table_oid table_id) (tables (db w)) = false ->
     db w' = db w) /\
    (rows_data = [] -> w' = w /\ Z.of_nat (List.length rows_data) = 0).
Proof.
  unfold add_rows_bulk, bind at 1.
  destruct (bulk_rows_spec rows_data src [] 0 w)
    as [new [w1 [E [Hd [_ [Hdb Hlog]]]]]].
  rewrite E. simpl app.
  assert (Hlen : List.length new = List.length rows_data)
    by (rewrite <- Hd, length_map; reflexivity).
  destruct new as [|r new].
  - exists w1. rewrite <- Hlen. split; [reflexivity |].
    split; [intros _; assumption |].
    intros ->. simpl in E. unfold ret in E. split; [congruence | reflexivity].
  - eexists. rewrite <- Hlen. split; [reflexivity |]. simpl. split.
    + intros Hnone. rewrite Hdb, update_first_no_match by assumption.
      apply with_tables_same.
    + intros ->. discriminate.
Qed.

(** ** The automation engine *)

Import AutomationEngine.

Lemma bind_Ok {A B} (m : M A) (f : A -> M B) w a w1 :
  m w = (Ok a, w1) -> bind m f w = f a w1.
Proof. unfold bind; intros ->; reflexivity. Qed.

Lemma bind_Raise {A B} (m : M A) (f : A -> M B) w e w1 :
  m w = (Raise e, w1) -> bind m f w = (Raise e, w1).
Proof. unfold bind; intros ->; reflexivity. Qed.

Lemma try_except_Ok {A} (m : M A) h w a w1 :
  m w = (Ok a, w1) -> try_except m h w = (Ok a, w1).
Proof. unfold try_except; intros ->; reflexivity. Qed.

Lemma try_except_Raise {A} (m : M A) h w e w1 :
  m w = (Raise e, w1) -> try_except m h w = h e w1.
Proof. unfold try_except; intros ->; reflexivity. Qed.

(** Whether the table [table_id] has a row that came from the message. *)
Definition table_has_email (ts : list Table) (table_id : oid)
    (email_id : pystr) : bool :=
  existsb (fun t => has_table_oid table_id t &&
                    existsb (row_from_email email_id) (rows t)) ts.

Definition is_duplicate_in (ts : list Table) (table_id : option oid)
    (email_id : pystr) : bool :=
  match table_id with
  | Some t => table_has_email ts t email_id
  | None => false
  end.

Lemma duplicate_check_run table_id email_id w :
  match table_id with
  | Some t => check_duplicate t email_id
  | None => ret false
  end w = (Ok (is_duplicate_in (tables (db w)) table_id email_id), w).
Proof. destruct table_id; reflexivity. Qed.

Section EngineLoops.

Variable svc : EmailService.

(** Scanning attachments asks the gateway only. *)
Lemma scan_attachments_run account_id vendor email attachments :
  exists r, forall w,
    scan_attachments svc account_id vendor email attachments w = (r, w).
Proof.
  induction attachments as [|att rest [r IH]].
  - exists (Ok None); reflexivity.
  - cbn [scan_attachments].
    destruct (contains (py "cgv") _ || contains (py "condition") _);
      [exists r; exact IH |].
    destruct (_ || endswith _ _); [| exists r; exact IH].
    destruct (extract_invoice_data svc account_id (email_id email)
                (attachmentId att)) as [inv|e] eqn:E.
    + destruct (total inv) as [value|] eqn:T.
      * eexists; intros w. unfold bind, lift. rewrite T. reflexivity.
      * exists r; intros w. unfold bind, lift. rewrite T. apply IH.
    + exists (Raise e); intros w. reflexivity.
Qed.

(** The loop over the messages of a search never raises and writes
    nothing; what it appends and counts depends on the tables only, not on
    the locals.  Every message is counted. *)
Lemma for_emails_run account_id vendor table_id emails : forall ts,
  exists found,
    forall w all_invoices emails_processed,
      tables (db w) = ts ->
      for_emails svc account_id vendor table_id emails
        (all_invoices, emails_processed) w
      = (Ok (all_invoices ++ found,
             emails_processed + Z.of_nat (List.length emails)), w).
Proof.
  induction emails as [|email rest IH]; intros ts.
  - exists []. intros w inv n _. cbn [for_emails]. unfold ret.
    rewrite app_nil_r, Z.add_0_r. reflexivity.
  - destruct (IH ts) as [found Hrest].
    assert (Hn : forall n : Z,
               n + 1 + Z.of_nat (List.length rest)
               = n + Z.of_nat (List.length (email :: rest)))
      by (intros; cbn [List.length]; lia).
    destruct (is_duplicate_in ts table_id (email_id email)) eqn:Hdup.
    + exists found. intros w inv n Hts. cbn [for_emails].
      rewrite (bind_Ok _ _ _ (duplicate_check_run _ _ _)), Hts, Hdup.
      rewrite Hrest by assumption. rewrite Hn. reflexivity.
    + destruct (get_email_by_id svc account_id (email_id email))
        as [attachments|e] eqn:Hget.
      * destruct (scan_attachments_run account_id vendor email attachments)
          as [[[row|]|e] Hscan].
        -- exists (row :: found). intros w inv n Hts. cbn [for_emails].
           rewrite (bind_Ok _ _ _ (duplicate_check_run _ _ _)), Hts, Hdup.
           unfold bind at 1. unfold try_except, bind at 1, lift.
           rewrite Hget. unfold bind at 1. rewrite Hscan. unfold ret at 1.
           rewrite Hrest by assumption.
           rewrite <- app_assoc, Hn. reflexivity.
        -- exists found. intros w inv n Hts. cbn [for_emails].
           rewrite (bind_Ok _ _ _ (duplicate_check_run _ _ _)), Hts, Hdup.
           unfold bind at 1. unfold try_except, bind at 1, lift.
           rewrite Hget. unfold bind at 1. rewrite Hscan. unfold ret at 1.
           rewrite Hrest by assumption. rewrite Hn. reflexivity.
        -- exists found. intros w inv n Hts. cbn [for_emails].
           rewrite (bind_Ok _ _ _ (duplicate_check_run _ _ _)), Hts, Hdup.
           unfold bind at 1. unfold try_except, bind at 1, lift.
           rewrite Hget. unfold bind at 1. rewrite Hscan. unfold ret at 1.
           rewrite Hrest by assumption. rewrite Hn. reflexivity.
      * exists found. intros w inv n Hts. cbn [for_emails].
        rewrite (bind_Ok _ _ _ (duplicate_check_run _ _ _)), Hts, Hdup.
        unfold bind at 1. unfold try_except, bind at 1, lift.
        rewrite Hget. unfold ret at 1.
        rewrite Hrest by assumption. rewrite Hn. reflexivity.
Qed.

End EngineLoops.

(** The query of a search, the number of messages that the searches of a
    list of addresses return (a search that raises returns none), and the
    addresses [_get_vendor_emails] resolves. *)
Definition search_query (date_filter vendor_email : pystr) : pystr :=
  date_filter ++ py " from:" ++ vendor_email ++ py " subject:facture".

Fixpoint messages_returned (svc : EmailService)
    (account_id date_filter : pystr) (vendor_emails : list pystr) : Z :=
  match vendor_emails with
  | [] => 0
  | vendor_email :: rest =>
    match search_emails svc account_id
            (search_query date_filter vendor_email) with
    | Ok emails => Z.of_nat (List.length emails)
    | Raise _ => 0
    end + messages_returned svc account_id date_filter rest
  end.

Definition vendor_addresses (d : DB) (user_id vendor : pystr)
    : result (list pystr) :=
  match learned_senders d user_id vendor with
  | Raise e => Raise e
  | Ok (Some (Some emails)) => Ok emails
  | Ok (Some None) => Ok [vendor]
  | Ok None => Ok (dict_get default_mappings (lower vendor) [vendor])
  end.

Section VendorLoops.

Variable svc : EmailService.

Lemma _get_vendor_emails_run user_id vendor w :
  _get_vendor_emails user_id vendor w
  = (vendor_addresses (db w) user_id vendor, w).
Proof.
  unfold _get_vendor_emails, vendor_addresses, bind, get_db, lift, ret.
  destruct (learned_senders (db w) user_id vendor) as [[[l|]|]|e];
    reflexivity.
Qed.

(** The loop over the addresses of a vendor never raises and writes
    nothing; it counts the messages of the searches that answered. *)
Lemma for_vendor_emails_run account_id vendor date_filter table_id
    vendor_emails : forall ts,
  exists found,
    forall w all_invoices emails_processed,
      tables (db w) = ts ->
      for_vendor_emails svc account_id vendor date_filter table_id
        vendor_emails (all_invoices, emails_processed) w
      = (Ok (all_invoices ++ found,
             emails_processed
             + messages_returned svc account_id date_filter vendor_emails),
         w).
Proof.
  induction vendor_emails as [|addr rest IH]; intros ts.
  - exists []. intros w inv n _. cbn [for_vendor_emails messages_returned].
    unfold ret. rewrite app_nil_r, Z.add_0_r. reflexivity.
  - destruct (IH ts) as [found_rest Hrest].
    cbn [for_vendor_emails messages_returned]. fold (search_query date_filter addr).
    destruct (search_emails svc account_id (search_query date_filter addr))
      as [emails|e] eqn:Hsearch.
    + destruct (for_emails_run svc account_id vendor table_id emails ts)
        as [found Hemails].
      exists (found ++ found_rest). intros w inv n Hts.
      unfold bind at 1. unfold try_except, bind at 1, lift.
      rewrite Hemails by assumption. rewrite Hrest by assumption.
      rewrite app_assoc, Z.add_assoc. reflexivity.
    + exists found_rest. intros w inv n Hts.
      unfold bind at 1. unfold try_except, bind at 1, lift. unfold ret at 1.
      rewrite Hrest by assumption. reflexivity.
Qed.

(** A vendor whose searches all raise leaves the locals as they were. *)
Lemma for_vendor_emails_all_raise account_id vendor date_filter table_id
    vendor_emails acc w :
  (forall addr, In addr vendor_emails ->
     exists e, search_emails svc account_id (search_query date_filter addr)
               = Raise e) ->
  for_vendor_emails svc account_id vendor date_filter table_id
    vendor_emails acc w = (Ok acc, w).
Proof.
  induction vendor_emails as [|addr rest IH]; intros Hraise.
  - reflexivity.
  - cbn [for_vendor_emails]. fold (search_query date_filter addr).
    destruct (Hraise addr (or_introl eq_refl)) as [e He].
    unfold bind at 1. unfold try_except, bind at 1, lift. rewrite He.
    unfold ret at 1. apply IH. intros a Ha; apply Hraise; right; exact Ha.
Qed.

(** The loop over the vendors writes nothing, whether it ends or raises;
    it ends when the addresses of every vendor resolve. *)
Lemma for_vendors_world automation date_filter vendors : forall acc w,
  exists r, for_vendors svc automation date_filter vendors acc w = (r, w).
Proof.
  induction vendors as [|vendor rest IH]; intros acc w.
  - exists (Ok acc); reflexivity.
  - cbn [for_vendors]. unfold bind at 1. rewrite _get_vendor_emails_run.
    destruct (vendor_addresses (db w) (user_id automation) vendor)
      as [addrs|e]; [| exists (Raise e); reflexivity].
    destruct acc as [inv n].
    destruct (for_vendor_emails_run (account_id automation) vendor
                date_filter (table_id automation) addrs (tables (db w)))
      as [found Hfound].
    unfold bind at 1. rewrite Hfound by reflexivity. apply IH.
Qed.

Lemma for_vendors_resolved automation date_filter vendors : forall acc w,
  (forall vendor, In vendor vendors ->
     exists addrs,
       vendor_addresses (db w) (user_id automation) vendor = Ok addrs) ->
  exists acc',
    for_vendors svc automation date_filter vendors acc w = (Ok acc', w).
Proof.
  induction vendors as [|vendor rest IH]; intros acc w Hres.
  - exists acc; reflexivity.
  - cbn [for_vendors]. unfold bind at 1. rewrite _get_vendor_emails_run.
    destruct (Hres vendor (or_introl eq_refl)) as [addrs ->].
    destruct acc as [inv n].
    destruct (for_vendor_emails_run (account_id automation) vendor
                date_filter (table_id automation) addrs (tables (db w)))
      as [found Hfound].
    unfold bind at 1. rewrite Hfound by reflexivity.
    apply IH. intros v Hv; apply Hres; right; exact Hv.
Qed.

(** [add_rows_bulk] touches the tables only. *)
Lemma add_rows_bulk_run table_id rows_data src w :
  exists w',
    add_rows_bulk table_id rows_data src w
      = (Ok (Z.of_nat (List.length rows_data)), w') /\
    automations (db w') = automations (db w) /\
    automation_runs (db w') = automation_runs (db w).
Proof.
  unfold add_rows_bulk, bind at 1.
  destruct (bulk_rows_spec rows_data src [] 0 w)
    as [new [w1 [E [Hd [_ [Hdb Hlog]]]]]].
  rewrite E. simpl app.
  assert (Hlen : List.length new = List.length rows_data)
    by (rewrite <- Hd, length_map; reflexivity).
  rewrite <- Hlen.
  destruct new as [|r new].
  - exists w1. rewrite Hdb. auto.
  - run_M. eexists. split; [reflexivity |]. cbn. rewrite Hdb. auto.
Qed.

(** The action pipeline leaves the automations and the run history as
    they are. *)
Lemma _execute_actions_frame automation w r w' :
  _execute_actions svc automation w = (r, w') ->
  automations (db w') = automations (db w) /\
  automation_runs (db w') = automation_runs (db w).
Proof.
  unfold _execute_actions. unfold bind at 1. unfold utcnow at 1.
  match goal with
  | |- context [bind (for_vendors svc automation ?df ?vs ?acc) _ ?w1] =>
    destruct (for_vendors_world automation df vs acc w1) as [found Hfound]
  end.
  unfold bind at 1. rewrite Hfound.
  destruct found as [[inv n]|e]; [| intros H; inversion H; subst; auto].
  destruct (table_id automation) as [t|], inv as [|row inv];
    try solve [unfold bind, ret; intros H; inversion H; subst; auto].
  match goal with
  | |- context [bind (add_rows_bulk ?t ?rs ?src) _ ?w1] =>
    destruct (add_rows_bulk_run t rs src w1) as [w2 [Hadd [Ha Hr]]]
  end.
  unfold bind at 1. rewrite Hadd. unfold ret.
  intros H; inversion H; subst. auto.
Qed.

(** The pipeline reads the clock once before it can raise, and an
    exception comes from the loop over the vendors, which does not read
    it. *)
Lemma _execute_actions_raise_clock automation w e w' :
  _execute_actions svc automation w = (Raise e, w') ->
  clock w' = clock w + 1.
Proof.
  unfold _execute_actions. unfold bind at 1. unfold utcnow at 1.
  match goal with
  | |- context [bind (for_vendors svc automation ?df ?vs ?acc) _ ?w1] =>
    destruct (for_vendors_world automation df vs acc w1) as [found Hfound]
  end.
  unfold bind at 1. rewrite Hfound.
  destruct found as [[inv n]|e0]; [| intros H; inversion H; reflexivity].
  destruct (table_id automation) as [t|], inv as [|row inv];
    try solve [unfold bind, ret; intros H; inversion H].
  match goal with
  | |- context [bind (add_rows_bulk ?t ?rs ?src) _ ?w1] =>
    destruct (add_rows_bulk_run t rs src w1) as [w2 [Hadd _]]
  end.
  unfold bind at 1. rewrite Hadd. unfold ret. intros H; inversion H.
Qed.

End VendorLoops.

Lemma find_none_iff {A} (p : A -> bool) l :
  (forall x, In x l -> p x = false) -> find p l = None.
Proof.
  induction l as [|x l IH]; intros H; simpl; [reflexivity |].
  rewrite (H x (or_introl eq_refl)). apply IH.
  intros y Hy; apply H; right; exact Hy.
Qed.

Lemma find_update_first {A} (p : A -> bool) f l a :
  (forall x, p (f x) = p x) ->
  find p l = Some a -> find p (update_first p f l) = Some (f a).
Proof.
  intros Hp; induction l as [|x l IH]; simpl; [discriminate |].
  destruct (p x) eqn:E; simpl.
  - intros H; inversion H; subst. rewrite Hp, E. reflexivity.
  - rewrite E. exact IH.
Qed.

Lemma update_first_app_fresh {A} (p : A -> bool) f l d :
  (forall x, In x l -> p x = false) -> p d = true ->
  update_first p f (l ++ [d]) = l ++ [f d].
Proof.
  intros Hl Hd; induction l as [|x l IH]; simpl.
  - rewrite Hd; reflexivity.
  - rewrite (Hl x (or_introl eq_refl)), IH; [reflexivity |].
    intros y Hy; apply Hl; right; exact Hy.
Qed.

(** The filter is built before anything is read or written: a string that
    [ObjectId] rejects makes the operation raise and leaves the world as it
    was. *)
Lemma on_parsed_id {A} ObjectId_of (s : pystr) (f : oid -> M A) w :
  (id <- lift (ObjectId_of s) ;; f id) w
  = match ObjectId_of s with
    | Ok id => f id w
    | Raise e => (Raise e, w)
    end.
Proof. unfold bind, lift. destruct (ObjectId_of s); reflexivity. Qed.

(** For an id that no automation document has, the run returns the
    failure "Automation not found" and the world is left as it was. *)
Lemma run_automation_absent svc automation_id w :
  (forall a, In a (automations (db w)) -> auto_oid a <> automation_id) ->
  run_automation svc automation_id w
  = (Ok (RunFailure (py "Automation not found")), w).
Proof.
  intros Habsent. unfold run_automation, bind at 1, get_db.
  rewrite find_none_iff; [reflexivity |].
  intros a Ha. unfold has_auto_oid. apply N.eqb_neq. apply Habsent, Ha.
Qed.

(** [run_automation] on an id string to which no automation document
    corresponds.  The world is left as it was: no run record is created.
    When the string is an id, the failure "Automation not found" is
    returned and nothing is raised; when [ObjectId] rejects the string,
    its exception escapes [run_automation]. *)
Lemma run_automation_not_found ObjectId_of svc (automation_id : pystr) w :
  (forall id a,
     ObjectId_of automation_id = Ok id ->
     In a (automations (db w)) -> auto_oid a <> id) ->
  exists outcome,
    ByString.run_automation ObjectId_of svc automation_id w = (outcome, w) /\
    match ObjectId_of automation_id with
    | Ok _ => outcome = Ok (RunFailure (py "Automation not found"))
    | Raise e => outcome = Raise e
    end.
Proof.
  intros Habsent. unfold ByString.run_automation. rewrite on_parsed_id.
  destruct (ObjectId_of automation_id) as [id|e].
  - exists (Ok (RunFailure (py "Automation not found"))).
    split; [| reflexivity]. apply run_automation_absent.
    intros a Ha. exact (Habsent id a eq_refl Ha).
  - exists (Raise e). split; reflexivity.
Qed.

Definition no_gateway : EmailService :=
  {| search_emails := fun _ _ => Ok [];
     get_email_by_id := fun _ _ => Ok [];
     extract_invoice_data := fun _ _ _ =>
       Ok {| total := None; invoice_number := PNone |} |}.

(** C4.  The store holds no automation.  For the id string
    "000000000000000000000005", [run_automation] returns the failure
    "Automation not found" and leaves the world as it was; for the string
    "not-an-id", which is the id of no automation either, it raises the
    InvalidId of [ObjectId] instead of returning a failure.  The world is
    left as it was there too. *)
Theorem run_automation_raises_on_malformed_id :
  automations (db invoice_world) = [] /\
  ByString.run_automation ByString.plain_ObjectId no_gateway
    (py "000000000000000000000005") invoice_world
  = (Ok (RunFailure (py "Automation not found")), invoice_world) /\
  ByString.run_automation ByString.plain_ObjectId no_gateway
    (py "not-an-id") invoice_world
  = (Raise (py "'not-an-id' is not a valid ObjectId, it must be a 12-byte input or a 24-character hex string"),
     invoice_world).
Proof. split; [| split]; vm_compute; reflexivity. Qed.

(** The world in which the action pipeline runs: the clock was read for
    [started_at] and the run record was inserted. *)
Definition run_record (automation_id : oid) (automation : Automation)
    (w : World) : AutomationRun :=
  {| run_oid := next_oid w; run_automation_id := automation_id;
     run_user_id := user_id automation; started_at := clock w;
     completed_at := None; run_status := running; results := None;
     emails_processed := 0; rows_added := 0; error := None |}.

Definition run_opened (automation_id : oid) (automation : Automation)
    (w : World) : World :=
  {| db := with_automation_runs
             (automation_runs (db w) ++ [run_record automation_id automation w])
             (db w);
     clock := clock w + 1;
     next_oid := N.succ (next_oid w);
     oplog := oplog w ++ [InsertOne "automation_runs" (next_oid w)] |}.

Definition fresh_run_oid (w : World) : Prop :=
  forall r, In r (automation_runs (db w)) -> run_oid r <> next_oid w.

(** C3.  When the action pipeline raises [error_msg], leaving the world
    [w2], [run_automation] returns the failure.  The run record gets the
    status error, the message, and as completion time the clock of [w2],
    which is later than the start of the run.  The automation gets the
    message as last error and, as last run, the next reading of the clock,
    which is the last one of the run: the clock afterwards is just past
    it.  The automation keeps its run count and its status; no other
    automation changes. *)
Theorem run_automation_error_path svc automation_id automation w
    error_msg w2 :
  find (has_auto_oid automation_id) (automations (db w)) = Some automation ->
  fresh_run_oid w ->
  _execute_actions svc automation (run_opened automation_id automation w)
    = (Raise error_msg, w2) ->
  exists w3 automation',
    run_automation svc automation_id w = (Ok (RunFailure error_msg), w3) /\
    automation_runs (db w3) =
      automation_runs (db w) ++
      [ {| run_oid := next_oid w; run_automation_id := automation_id;
           run_user_id := user_id automation; started_at := clock w;
           completed_at := Some (clock w2); run_status := run_error;
           results := None; emails_processed := 0; rows_added := 0;
           error := Some error_msg |} ] /\
    automations (db w3) =
      update_first (has_auto_oid automation_id)
        (set_run_failed (clock w2 + 1) error_msg) (automations (db w)) /\
    find (has_auto_oid automation_id) (automations (db w3))
      = Some automation' /\
    last_error automation' = Some error_msg /\
    last_run automation' = Some (clock w2 + 1) /\
    run_count automation' = run_count automation /\
    status automation' = status automation /\
    clock w < clock w2 /\
    clock w3 = clock w2 + 2.
Proof.
  intros Hfind Hfresh Hexec.
  destruct (_execute_actions_frame _ _ _ Hexec) as [Hautos Hruns].
  pose proof (@_execute_actions_raise_clock svc automation _ error_msg w2
                Hexec) as Hclock.
  cbn [run_opened db clock automations automation_runs with_automation_runs]
    in Hautos, Hruns, Hclock.
  exists
    {| db := with_automations
               (update_first (has_auto_oid automation_id)
                  (set_run_failed (clock w2 + 1) error_msg)
                  (automations (db w)))
               (with_automation_runs
                  (automation_runs (db w) ++
                   [run_failed (clock w2) error_msg
                      (run_record automation_id automation w)])
                  (db w2));
       clock := clock w2 + 1 + 1;
       next_oid := next_oid w2;
       oplog := (oplog w2 ++ [UpdateOne "automation_runs" (next_oid w)])
                ++ [UpdateOne "automations" automation_id] |},
    (set_run_failed (clock w2 + 1) error_msg automation).
  split; [| repeat split].
  - unfold run_automation, bind at 1, get_db. rewrite Hfind.
    unfold bind at 1. unfold utcnow at 1. unfold bind at 1.
    unfold automation_runs_insert_one at 1. unfold log, set_db.
    cbn [db clock next_oid oplog].
    fold (run_record automation_id automation w).
    fold (run_opened automation_id automation w).
    rewrite (try_except_Raise _ _ _ (bind_Raise _ _ _ Hexec)).
    run_M. cbn [automations with_automation_runs].
    rewrite Hruns, Hautos.
    rewrite update_first_app_fresh.
    + reflexivity.
    + intros r Hr. unfold has_run_oid. apply N.eqb_neq. apply Hfresh, Hr.
    + unfold has_run_oid; apply N.eqb_refl.
  - cbn. apply find_update_first; [reflexivity | exact Hfind].
  - lia.
  - cbn [clock]. lia.
Qed.

(** An automation on the vendor metro, in a world whose learned-sender
    lookup fails. *)
Definition weekly_trigger : AutomationTrigger :=
  {| trigger_type := SCHEDULE; cron := Some (py "0 9 * * 0");
     frequency := Some (py "weekly"); day_of_week := Some 0;
     hour := 9; minute := 0 |}.

Definition an_automation (vs : list pystr) : Automation :=
  {| auto_oid := 3%N; user_id := py "u1"; account_id := py "acc1";
     auto_name := py "Suivi factures"; auto_description := None;
     auto_trigger := weekly_trigger; auto_actions := [];
     auto_vendors := vs; table_id := Some 1%N; status := active;
     created_at := 0; updated_at := 0; last_run := None; next_run := None;
     run_count := 4; last_error := None |}.

Definition a_world (ts : list Table) (vs : list pystr)
    (senders : pystr -> pystr -> result (option (option (list pystr))))
    : World :=
  {| db := {| tables := ts; automations := [an_automation vs];
              automation_runs := []; learned_senders := senders |};
     clock := 1793664000000000; next_oid := 8%N; oplog := [] |}.

Definition senders_unreachable : pystr -> pystr
    -> result (option (option (list pystr))) :=
  fun _ _ => Raise (py "learned_senders unreachable").

Lemma run_automation_error_path_witness :
  exists w3 automation',
    run_automation no_gateway 3%N
      (a_world [invoice_table [] 0] [py "metro"] senders_unreachable)
    = (Ok (RunFailure (py "learned_senders unreachable")), w3) /\
    find (has_auto_oid 3%N) (automations (db w3)) = Some automation' /\
    last_run automation' = Some 1793664000000003 /\
    clock w3 = 1793664000000004.
Proof.
  destruct (@run_automation_error_path no_gateway 3%N
              (an_automation [py "metro"])
              (a_world [invoice_table [] 0] [py "metro"] senders_unreachable)
              (py "learned_senders unreachable")
              (snd (_execute_actions no_gateway (an_automation [py "metro"])
                      (run_opened 3%N (an_automation [py "metro"])
                         (a_world [invoice_table [] 0] [py "metro"]
                            senders_unreachable)))))
    as [w3 [automation' [Hrun [_ [_ [Hfound [_ [Hlast [_ [_ [_ Hclock]]]]]]]]]]].
  - reflexivity.
  - intros r [].
  - vm_compute; reflexivity.
  - exists w3, automation'. split; [exact Hrun |]. split; [exact Hfound |].
    split; [exact Hlast | exact Hclock].
Defined.

(** The success path, given what the pipeline answers. *)
Lemma run_automation_success svc automation_id automation w r w2 :
  find (has_auto_oid automation_id) (automations (db w)) = Some automation ->
  _execute_actions svc automation (run_opened automation_id automation w)
    = (Ok r, w2) ->
  exists w3,
    run_automation svc automation_id w
      = (Ok (RunSuccess (next_oid w) r), w3).
Proof.
  intros Hfind Hexec.
  unfold run_automation, bind at 1, get_db. rewrite Hfind.
  unfold bind at 1. unfold utcnow at 1. unfold bind at 1.
  unfold automation_runs_insert_one at 1. unfold log, set_db.
  cbn [db clock next_oid oplog].
  fold (run_record automation_id automation w).
  fold (run_opened automation_id automation w).
  unfold try_except. rewrite (bind_Ok _ _ _ Hexec).
  run_M. eexists; reflexivity.
Qed.

(** What the pipeline answers, given what the loop over the vendors
    found. *)
Definition rows_added_for (table_id : option oid) (all_invoices : list pydict)
    : Z :=
  match table_id with
  | Some _ => Z.of_nat (List.length all_invoices)
  | None => 0
  end.

Definition clock_read (w : World) : World :=
  {| db := db w; clock := clock w + 1; next_oid := next_oid w;
     oplog := oplog w |}.

Definition date_filter_at (now : datetime) : pystr :=
  py "after:" ++ Datetime.strftime_Ymd (now - Datetime.timedelta_days 7).

Lemma _execute_actions_found svc automation w all_invoices emails_processed :
  for_vendors svc automation (date_filter_at (clock w))
    (auto_vendors automation) ([], 0) (clock_read w)
    = (Ok (all_invoices, emails_processed), clock_read w) ->
  exists w2,
    _execute_actions svc automation w
    = (Ok {| res_emails_processed := emails_processed;
             res_invoices_found := Z.of_nat (List.length all_invoices);
             res_rows_added :=
               rows_added_for (table_id automation) all_invoices;
             res_invoices := all_invoices |}, w2).
Proof.
  intros Hfound.
  unfold _execute_actions. unfold bind at 1. unfold utcnow at 1.
  fold (clock_read w). fold (date_filter_at (clock w)).
  unfold bind at 1. rewrite Hfound.
  unfold rows_added_for.
  destruct (table_id automation) as [t|].
  - destruct all_invoices as [|row rest].
    + eexists; reflexivity.
    + match goal with
      | |- context [bind (add_rows_bulk ?t ?rs ?src) _ ?w1] =>
        destruct (add_rows_bulk_run t rs src w1) as [w2 [Hadd _]]
      end.
      unfold bind at 1. rewrite Hadd. eexists; reflexivity.
  - destruct all_invoices; eexists; reflexivity.
Qed.

(** X28.  Whatever the gateway raises, a run whose vendors resolve
    succeeds. *)
Lemma run_automation_succeeds svc automation_id automation w :
  find (has_auto_oid automation_id) (automations (db w)) = Some automation ->
  (forall vendor, In vendor (auto_vendors automation) ->
     exists addrs,
       vendor_addresses (db w) (user_id automation) vendor = Ok addrs) ->
  exists r w3,
    run_automation svc automation_id w
      = (Ok (RunSuccess (next_oid w) r), w3).
Proof.
  intros Hfind Hres.
  destruct (for_vendors_resolved svc automation
              (date_filter_at (clock (run_opened automation_id automation w)))
              (auto_vendors automation) ([], 0)
              (clock_read (run_opened automation_id automation w)) Hres)
    as [[inv n] Hfound].
  destruct (_execute_actions_found _ _ Hfound) as [w2 Hexec].
  destruct (@run_automation_success svc automation_id automation w _ _
              Hfind Hexec) as [w3 Hrun].
  eauto.
Qed.

(** *** The duplicate check against the stored rows *)

(** A row that carries the id of a message no stored row came from. *)
Definition row_of_new_message (ts : list Table) (table_id : option oid)
    (row : pydict) : Prop :=
  exists id,
    lookup row (py "email_id") = Some (PStr id) /\
    is_duplicate_in ts table_id id = false.

Section DuplicateCheck.

Variable svc : EmailService.

Lemma scan_attachments_row account_id vendor email attachments w row w' :
  scan_attachments svc account_id vendor email attachments w
    = (Ok (Some row), w') ->
  lookup row (py "email_id") = Some (PStr (email_id email)).
Proof.
  induction attachments as [|att rest IH]; cbn [scan_attachments].
  - unfold ret; intros H; inversion H.
  - destruct (contains (py "cgv") _ || contains (py "condition") _);
      [exact IH |].
    destruct (_ || endswith _ _); [| exact IH].
    unfold bind, lift.
    destruct (extract_invoice_data svc account_id (email_id email)
                (attachmentId att)) as [inv|e]; [| intros H; inversion H].
    destruct (total inv) as [value|]; [| exact IH].
    unfold ret; intros H; inversion H; subst. reflexivity.
Qed.

(** A message that a stored row came from is counted and skipped. *)
Lemma for_emails_skips_known account_id vendor table_id email rest
    all_invoices emails_processed w :
  is_duplicate_in (tables (db w)) table_id (email_id email) = true ->
  for_emails svc account_id vendor table_id (email :: rest)
    (all_invoices, emails_processed) w
  = for_emails svc account_id vendor table_id rest
      (all_invoices, emails_processed + 1) w.
Proof.
  intros Hdup. cbn [for_emails].
  rewrite (bind_Ok _ _ _ (duplicate_check_run _ _ _)), Hdup. reflexivity.
Qed.

(** The rows that the loops append are rows of new messages. *)
Lemma for_emails_new account_id vendor table_id emails :
  forall all_invoices emails_processed w acc' w',
    for_emails svc account_id vendor table_id emails
      (all_invoices, emails_processed) w = (Ok acc', w') ->
    exists found,
      fst acc' = all_invoices ++ found /\
      Forall (row_of_new_message (tables (db w)) table_id) found.
Proof.
  induction emails as [|email rest IH]; intros inv n w acc' w'.
  - cbn [for_emails]. unfold ret. intros H; inversion H; subst.
    exists []. rewrite app_nil_r. auto.
  - cbn [for_emails].
    rewrite (bind_Ok _ _ _ (duplicate_check_run _ _ _)).
    destruct (is_duplicate_in (tables (db w)) table_id (email_id email))
      eqn:Hdup; [apply IH |].
    unfold bind at 1. unfold try_except, bind at 1, lift.
    destruct (get_email_by_id svc account_id (email_id email))
      as [attachments|e]; [| unfold ret at 1; apply IH].
    destruct (scan_attachments_run svc account_id vendor email attachments)
      as [r Hscan].
    unfold bind at 1. rewrite Hscan.
    destruct r as [[row|]|e]; unfold ret at 1; try apply IH.
    intros Hrest. destruct (IH _ _ _ _ _ Hrest) as [found [Hacc Hnew]].
    exists (row :: found). rewrite Hacc, <- app_assoc. split; [reflexivity |].
    constructor; [| exact Hnew].
    exists (email_id email). split; [| exact Hdup].
    apply (@scan_attachments_row account_id vendor email attachments w row w).
    rewrite Hscan. reflexivity.
Qed.

Lemma for_vendor_emails_new account_id vendor date_filter table_id
    vendor_emails :
  forall all_invoices emails_processed w acc' w',
    for_vendor_emails svc account_id vendor date_filter table_id
      vendor_emails (all_invoices, emails_processed) w = (Ok acc', w') ->
    exists found,
      fst acc' = all_invoices ++ found /\
      Forall (row_of_new_message (tables (db w)) table_id) found.
Proof.
  induction vendor_emails as [|addr rest IH]; intros inv n w acc' w'.
  - cbn [for_vendor_emails]. unfold ret. intros H; inversion H; subst.
    exists []. rewrite app_nil_r. auto.
  - cbn [for_vendor_emails].
    unfold bind at 1. unfold try_except, bind at 1, lift.
    destruct (search_emails svc account_id _) as [emails|e];
      [| unfold ret at 1; apply IH].
    destruct (for_emails_run svc account_id vendor table_id emails
                (tables (db w))) as [found1 Hrun].
    pose proof (Hrun w inv n eq_refl) as Hemails. rewrite Hemails.
    destruct (for_emails_new _ _ _ _ _ _ _ Hemails) as [found1' [Hf1 Hnew1]].
    cbn [fst] in Hf1. apply app_inv_head in Hf1. subst found1'.
    intros Hrest. destruct (IH _ _ _ _ _ Hrest) as [found2 [Hacc Hnew2]].
    exists (found1 ++ found2). rewrite Hacc, app_assoc.
    split; [reflexivity |]. apply Forall_app; auto.
Qed.

Lemma for_vendors_new automation date_filter vendors :
  forall all_invoices emails_processed w acc' w',
    for_vendors svc automation date_filter vendors
      (all_invoices, emails_processed) w = (Ok acc', w') ->
    exists found,
      fst acc' = all_invoices ++ found /\
      Forall (row_of_new_message (tables (db w)) (table_id automation)) found.
Proof.
  induction vendors as [|vendor rest IH]; intros inv n w acc' w'.
  - cbn [for_vendors]. unfold ret. intros H; inversion H; subst.
    exists []. rewrite app_nil_r. auto.
  - cbn [for_vendors]. unfold bind at 1. rewrite _get_vendor_emails_run.
    destruct (vendor_addresses (db w) (user_id automation) vendor)
      as [addrs|e]; [| intros H; inversion H].
    destruct (for_vendor_emails_run svc (account_id automation) vendor
                date_filter (table_id automation) addrs (tables (db w)))
      as [found1 Hrun].
    pose proof (Hrun w inv n eq_refl) as Hone.
    unfold bind at 1. rewrite Hone.
    destruct (for_vendor_emails_new _ _ _ _ _ _ _ _ Hone)
      as [found1' [Hf1 Hnew1]].
    cbn [fst] in Hf1. apply app_inv_head in Hf1. subst found1'.
    intros Hrest. destruct (IH _ _ _ _ _ Hrest) as [found2 [Hacc Hnew2]].
    exists (found1 ++ found2). rewrite Hacc, app_assoc.
    split; [reflexivity |]. apply Forall_app; auto.
Qed.

(** A successful run is a successful pipeline, and the store of the
    tables is the one the pipeline left. *)
Lemma run_automation_success_inv automation_id automation w run_id r w3 :
  find (has_auto_oid automation_id) (automations (db w)) = Some automation ->
  run_automation svc automation_id w = (Ok (RunSuccess run_id r), w3) ->
  exists w2,
    _execute_actions svc automation (run_opened automation_id automation w)
      = (Ok r, w2) /\
    tables (db w3) = tables (db w2).
Proof.
  intros Hfind.
  unfold run_automation, bind at 1, get_db. rewrite Hfind.
  unfold bind at 1. unfold utcnow at 1. unfold bind at 1.
  unfold automation_runs_insert_one at 1. unfold log, set_db.
  cbn [db clock next_oid oplog].
  fold (run_record automation_id automation w).
  fold (run_opened automation_id automation w).
  unfold try_except. unfold bind at 1.
  destruct (_execute_actions svc automation
              (run_opened automation_id automation w)) as [[r'|e] w2].
  - run_M. intros H; inversion H; subst. exists w2. auto.
  - run_M. intros H; inversion H.
Qed.

(** A successful pipeline is a loop over the vendors that ended, followed
    by the bulk insertion of what it found when there is a table and
    something was found. *)
Lemma _execute_actions_inv automation w r w2 :
  _execute_actions svc automation w = (Ok r, w2) ->
  exists emails_processed,
    for_vendors svc automation (date_filter_at (clock w))
      (auto_vendors automation) ([], 0) (clock_read w)
    = (Ok (res_invoices r, emails_processed), clock_read w) /\
    match table_id automation, res_invoices r with
    | Some t, _ :: _ =>
      exists rows_added,
        add_rows_bulk t (res_invoices r) (Some (auto_oid automation))
          (clock_read w) = (Ok rows_added, w2)
    | _, _ => w2 = clock_read w
    end.
Proof.
  unfold _execute_actions. unfold bind at 1. unfold utcnow at 1.
  fold (clock_read w). fold (date_filter_at (clock w)).
  destruct (for_vendors_world svc automation (date_filter_at (clock w))
              (auto_vendors automation) ([], 0) (clock_read w))
    as [found Hfound].
  unfold bind at 1. rewrite Hfound.
  destruct found as [[inv n]|e]; [| intros H; inversion H].
  destruct (table_id automation) as [t|].
  - destruct inv as [|row inv].
    + unfold bind, ret. intros H; inversion H; subst. exists n.
      cbn [res_invoices]. auto.
    + unfold bind at 1.
      destruct (add_rows_bulk t (row :: inv) (Some (auto_oid automation))
                  (clock_read w)) as [[k|e] w4] eqn:Hadd;
        unfold ret; intros H; inversion H; subst.
      exists n. cbn [res_invoices]. eauto.
  - destruct inv; unfold bind, ret; intros H; inversion H; subst;
      exists n; cbn [res_invoices]; auto.
Qed.

(** Every invoice of a successful run is the row of a message that no
    stored row came from when the run started: what an earlier run stored
    is not inserted again. *)
Lemma run_rows_are_new automation_id automation w run_id r w3 :
  find (has_auto_oid automation_id) (automations (db w)) = Some automation ->
  run_automation svc automation_id w = (Ok (RunSuccess run_id r), w3) ->
  Forall (row_of_new_message (tables (db w)) (table_id automation))
    (res_invoices r).
Proof.
  intros Hfind Hrun.
  destruct (@run_automation_success_inv automation_id automation w run_id r
              w3 Hfind Hrun) as [w2 [Hexec _]].
  destruct (@_execute_actions_inv automation _ r w2 Hexec)
    as [n [Hfound _]].
  destruct (for_vendors_new _ _ _ _ _ _ Hfound) as [new [Hinv Hnew]].
  cbn [fst app] in Hinv. rewrite Hinv. exact Hnew.
Qed.

(** The source message ids of the invoices of a run. *)
Definition invoice_ids (invoices : list pydict) : list pyval :=
  map (fun data => get data (py "email_id")) invoices.

Lemma add_rows_bulk_appends t rows_data src w tbl :
  find (has_table_oid t) (tables (db w)) = Some tbl ->
  exists new k w' tbl',
    add_rows_bulk t rows_data src w = (Ok k, w') /\
    find (has_table_oid t) (tables (db w')) = Some tbl' /\
    rows tbl' = rows tbl ++ new /\
    map source_email_id new = invoice_ids rows_data.
Proof.
  intros Hfind. unfold add_rows_bulk, bind at 1.
  destruct (bulk_rows_spec rows_data src [] 0 w)
    as [new [w1 [E [_ [Hids [Hdb _]]]]]].
  rewrite E. simpl app. exists new.
  destruct new as [|row new].
  - exists 0, w1, tbl. rewrite Hdb. repeat split; auto.
    symmetry; apply app_nil_r.
  - run_M. eexists _, _, _. split; [reflexivity |].
    cbn [db tables with_tables]. rewrite Hdb.
    split; [apply find_update_first; [reflexivity | exact Hfind] |].
    split; [reflexivity | exact Hids].
Qed.

(** The rows of the table of the automation after a successful run are
    the rows it had, followed by one row for each invoice of the run. *)
Lemma run_appends_invoices automation_id automation w run_id r w3 t tbl :
  find (has_auto_oid automation_id) (automations (db w)) = Some automation ->
  table_id automation = Some t ->
  find (has_table_oid t) (tables (db w)) = Some tbl ->
  run_automation svc automation_id w = (Ok (RunSuccess run_id r), w3) ->
  exists tbl',
    find (has_table_oid t) (tables (db w3)) = Some tbl' /\
    map source_email_id (rows tbl')
    = map source_email_id (rows tbl) ++ invoice_ids (res_invoices r).
Proof.
  intros Hfind Htid Htbl Hrun.
  destruct (@run_automation_success_inv automation_id automation w run_id r
              w3 Hfind Hrun) as [w2 [Hexec Hts]].
  destruct (@_execute_actions_inv automation _ r w2 Hexec)
    as [n [_ Hadd]].
  rewrite Htid in Hadd. rewrite Hts.
  destruct (res_invoices r) as [|row inv] eqn:Hinv.
  - subst w2. exists tbl. cbn. rewrite app_nil_r. auto.
  - destruct Hadd as [k Hadd].
    destruct (@add_rows_bulk_appends t (row :: inv)
                (Some (auto_oid automation))
                (clock_read (run_opened automation_id automation w)) tbl Htbl)
      as [new [k' [w' [tbl' [Hadd' [Hfind' [Hrows Hids]]]]]]].
    rewrite Hadd in Hadd'. inversion Hadd'; subst.
    exists tbl'. split; [exact Hfind' |].
    rewrite Hrows, map_app, Hids. reflexivity.
Qed.

Lemma find_some_existsb {A} (p q : A -> bool) l x :
  find p l = Some x -> existsb (fun y => p y && q y) l = false ->
  q x = false.
Proof.
  induction l as [|y l IH]; simpl; [discriminate |].
  destruct (p y) eqn:E; simpl.
  - intros H; inversion H; subst. intros Hq.
    apply orb_false_elim in Hq as [Hq _]. exact Hq.
  - intros Hf Hq. apply IH; assumption.
Qed.

Lemma pyval_eqb_refl v : pyval_eqb v v = true.
Proof.
  destruct v; simpl; auto using Bool.eqb_reflx, Z.eqb_refl, pystr_eqb_refl.
Qed.

(** The ids of the messages that rows came from: a row that was added by
    hand came from none. *)
Definition message_ids_of (values : list pyval) : list pystr :=
  flat_map (fun v => match v with PStr id => [id] | _ => [] end) values.

Definition message_ids (rs : list TableRow) : list pystr :=
  message_ids_of (map source_email_id rs).

Lemma message_ids_of_In values id :
  In id (message_ids_of values) <-> In (PStr id) values.
Proof.
  unfold message_ids_of. rewrite in_flat_map. split.
  - intros [v [Hv Hid]]. destruct v as [| b | x | s]; cbn in Hid;
      try contradiction.
    destruct Hid as [<-|[]]. exact Hv.
  - intros H. exists (PStr id). split; [exact H | left; reflexivity].
Qed.

Lemma message_ids_of_NoDup values :
  NoDup values -> NoDup (message_ids_of values).
Proof.
  induction 1 as [|v l Hv Hl IH]; [constructor |].
  unfold message_ids_of in *. cbn [flat_map].
  destruct v; cbn [app]; try exact IH.
  constructor; [| exact IH].
  intros Hin. apply Hv. apply message_ids_of_In. exact Hin.
Qed.

(** X29.  No message has two rows in the table after a run if none had
    before and the invoices of the run have pairwise different message
    ids: a repetition can only come from within one run.  Rows that came
    from no message, as the rows added by hand, do not count. *)
Lemma run_keeps_distinct automation_id automation w run_id r w3 t tbl :
  find (has_auto_oid automation_id) (automations (db w)) = Some automation ->
  table_id automation = Some t ->
  find (has_table_oid t) (tables (db w)) = Some tbl ->
  run_automation svc automation_id w = (Ok (RunSuccess run_id r), w3) ->
  NoDup (message_ids (rows tbl)) ->
  NoDup (invoice_ids (res_invoices r)) ->
  exists tbl',
    find (has_table_oid t) (tables (db w3)) = Some tbl' /\
    message_ids (rows tbl')
    = message_ids (rows tbl) ++ message_ids_of (invoice_ids (res_invoices r))
    /\
    NoDup (message_ids (rows tbl')).
Proof.
  intros Hfind Htid Htbl Hrun Hold Hnew.
  destruct (@run_appends_invoices automation_id automation w run_id r w3 t
              tbl Hfind Htid Htbl Hrun) as [tbl' [Hf Hids]].
  assert (Hm : message_ids (rows tbl')
               = message_ids (rows tbl)
                 ++ message_ids_of (invoice_ids (res_invoices r))).
  { unfold message_ids. rewrite Hids. unfold message_ids_of.
    apply flat_map_app. }
  exists tbl'. split; [exact Hf |]. split; [exact Hm |]. rewrite Hm.
  pose proof (@run_rows_are_new automation_id automation w run_id r w3
                Hfind Hrun) as Hrows.
  rewrite Htid in Hrows.
  apply NoDup_app; [exact Hold | apply message_ids_of_NoDup; exact Hnew |].
  intros id Hstored Hrun_id.
  apply message_ids_of_In in Hstored, Hrun_id.
  unfold invoice_ids in Hrun_id.
  apply in_map_iff in Hrun_id as [row [Hget Hrow]].
  rewrite Forall_forall in Hrows.
  destruct (Hrows row Hrow) as [id' [Hlook Hdup]].
  unfold get in Hget. rewrite Hlook in Hget. inversion Hget; subst id'.
  cbn [is_duplicate_in] in Hdup. unfold table_has_email in Hdup.
  pose proof (@find_some_existsb _ _ _ _ _ Htbl Hdup) as Hq.
  apply in_map_iff in Hstored as [x [Hx Hinx]].
  assert (Htrue : existsb (row_from_email id) (rows tbl) = true).
  { apply existsb_exists. exists x. split; [exact Hinx |].
    unfold row_from_email. rewrite Hx. apply pyval_eqb_refl. }
  congruence.
Qed.

End DuplicateCheck.

(** *** One item that fails *)

(** Processing the message raises: the gateway raises when the message is
    fetched, or when the data of one of its invoices is extracted. *)
Definition message_fails (svc : EmailService) (account_id vendor : pystr)
    (email : Email) : Prop :=
  match get_email_by_id svc account_id (email_id email) with
  | Raise _ => True
  | Ok attachments =>
    exists e w,
      scan_attachments svc account_id vendor email attachments w
      = (Raise e, w)
  end.

(** A message that fails is counted, and nothing is appended for it. *)
Lemma for_emails_failing svc account_id vendor table_id email rest
    all_invoices emails_processed w :
  message_fails svc account_id vendor email ->
  for_emails svc account_id vendor table_id (email :: rest)
    (all_invoices, emails_processed) w
  = for_emails svc account_id vendor table_id rest
      (all_invoices, emails_processed + 1) w.
Proof.
  unfold message_fails. intros Hfails. cbn [for_emails].
  rewrite (bind_Ok _ _ _ (duplicate_check_run _ _ _)).
  destruct (is_duplicate_in (tables (db w)) table_id (email_id email));
    [reflexivity |].
  unfold bind at 1. unfold try_except, bind at 1, lift.
  destruct (get_email_by_id svc account_id (email_id email))
    as [attachments|e]; [| reflexivity].
  destruct Hfails as [e [w0 Hscan]].
  destruct (scan_attachments_run svc account_id vendor email attachments)
    as [r Hr].
  rewrite Hr in Hscan. inversion Hscan; subst r.
  unfold bind at 1. rewrite Hr. reflexivity.
Qed.

Lemma bind_assoc {A B C} (m : M A) (k : A -> M B) (f : B -> M C) w :
  bind (bind m k) f w = bind m (fun x => bind (k x) f) w.
Proof. unfold bind. destruct (m w) as [[a|e] w1]; reflexivity. Qed.

Lemma bind_cong {A B} (m : M A) (f g : A -> M B) w :
  (forall a w1, f a w1 = g a w1) -> bind m f w = bind m g w.
Proof.
  intros H. unfold bind. destruct (m w) as [[a|e] w1]; [apply H | reflexivity].
Qed.

(** The loops go through a list piece by piece. *)
Lemma for_emails_app svc account_id vendor table_id emails1 emails2 :
  forall acc w,
    for_emails svc account_id vendor table_id (emails1 ++ emails2) acc w
    = (acc1 <- for_emails svc account_id vendor table_id emails1 acc ;;
       for_emails svc account_id vendor table_id emails2 acc1) w.
Proof.
  induction emails1 as [|email rest IH]; intros [inv n] w.
  - reflexivity.
  - cbn [app for_emails]. rewrite bind_assoc. apply bind_cong.
    intros is_duplicate w1. destruct is_duplicate; [apply IH |].
    rewrite bind_assoc. apply bind_cong. intros acc1 w2. apply IH.
Qed.

Lemma for_vendor_emails_app svc account_id vendor date_filter table_id
    addrs1 addrs2 :
  forall acc w,
    for_vendor_emails svc account_id vendor date_filter table_id
      (addrs1 ++ addrs2) acc w
    = (acc1 <- for_vendor_emails svc account_id vendor date_filter table_id
                 addrs1 acc ;;
       for_vendor_emails svc account_id vendor date_filter table_id
         addrs2 acc1) w.
Proof.
  induction addrs1 as [|addr rest IH]; intros acc w.
  - reflexivity.
  - cbn [app for_vendor_emails]. rewrite bind_assoc. apply bind_cong.
    intros acc1 w1. apply IH.
Qed.

(** C7.  An automation has three vendors whose addresses resolve, and
    every search for the second vendor raises.  The run succeeds; its
    invoices are the rows that the loops of the first and of the third
    vendor yield, in that order; its count of processed messages is the
    number of messages returned by the searches of these two vendors.

    More generally, whatever else the gateway raises in that run: among
    the messages of a search, one that fails when it is fetched or when
    its invoice is extracted is counted and yields no row, and the
    messages before and after it yield the rows they yield on their own;
    among the addresses of a vendor, one whose search raises adds no
    message, and the addresses before and after it are searched as on
    their own. *)
Theorem partial_failure_isolation svc automation_id automation w
    v1 v2 v3 addrs1 addrs2 addrs3 :
  find (has_auto_oid automation_id) (automations (db w)) = Some automation ->
  auto_vendors automation = [v1; v2; v3] ->
  vendor_addresses (db w) (user_id automation) v1 = Ok addrs1 ->
  vendor_addresses (db w) (user_id automation) v2 = Ok addrs2 ->
  vendor_addresses (db w) (user_id automation) v3 = Ok addrs3 ->
  (forall addr, In addr addrs2 ->
     exists e,
       search_emails svc (account_id automation)
         (search_query (date_filter_at (clock w + 1)) addr) = Raise e) ->
  (exists r w3 rows1 rows3,
    run_automation svc automation_id w
      = (Ok (RunSuccess (next_oid w) r), w3) /\
    for_vendor_emails svc (account_id automation) v1
      (date_filter_at (clock w + 1)) (table_id automation) addrs1 ([], 0) w
      = (Ok (rows1,
             messages_returned svc (account_id automation)
               (date_filter_at (clock w + 1)) addrs1), w) /\
    for_vendor_emails svc (account_id automation) v3
      (date_filter_at (clock w + 1)) (table_id automation) addrs3 ([], 0) w
      = (Ok (rows3,
             messages_returned svc (account_id automation)
               (date_filter_at (clock w + 1)) addrs3), w) /\
    res_invoices r = rows1 ++ rows3 /\
    res_emails_processed r =
      messages_returned svc (account_id automation)
        (date_filter_at (clock w + 1)) addrs1
      + messages_returned svc (account_id automation)
          (date_filter_at (clock w + 1)) addrs3 /\
    res_invoices_found r = Z.of_nat (List.length (rows1 ++ rows3)) /\
    res_rows_added r = rows_added_for (table_id automation) (rows1 ++ rows3))
  /\
  (forall vendor before email after,
     message_fails svc (account_id automation) vendor email ->
     exists rows_before rows_after,
       for_emails svc (account_id automation) vendor (table_id automation)
         before ([], 0) w
       = (Ok (rows_before, Z.of_nat (List.length before)), w) /\
       for_emails svc (account_id automation) vendor (table_id automation)
         after ([], 0) w
       = (Ok (rows_after, Z.of_nat (List.length after)), w) /\
       for_emails svc (account_id automation) vendor (table_id automation)
         (before ++ email :: after) ([], 0) w
       = (Ok (rows_before ++ rows_after,
              Z.of_nat (List.length before) + 1
              + Z.of_nat (List.length after)), w))
  /\
  (forall vendor before addr after e,
     search_emails svc (account_id automation)
       (search_query (date_filter_at (clock w + 1)) addr) = Raise e ->
     exists rows_before rows_after,
       for_vendor_emails svc (account_id automation) vendor
         (date_filter_at (clock w + 1)) (table_id automation) before
         ([], 0) w
       = (Ok (rows_before,
              messages_returned svc (account_id automation)
                (date_filter_at (clock w + 1)) before), w) /\
       for_vendor_emails svc (account_id automation) vendor
         (date_filter_at (clock w + 1)) (table_id automation) after
         ([], 0) w
       = (Ok (rows_after,
              messages_returned svc (account_id automation)
                (date_filter_at (clock w + 1)) after), w) /\
       for_vendor_emails svc (account_id automation) vendor
         (date_filter_at (clock w + 1)) (table_id automation)
         (before ++ addr :: after) ([], 0) w
       = (Ok (rows_before ++ rows_after,
              messages_returned svc (account_id automation)
                (date_filter_at (clock w + 1)) before
              + messages_returned svc (account_id automation)
                  (date_filter_at (clock w + 1)) after), w)).
Proof.
  intros Hfind Hvendors Hv1 Hv2 Hv3 Hraise.
  set (df := date_filter_at (clock w + 1)) in *.
  split; [| split].
  - set (w1 := clock_read (run_opened automation_id automation w)).
    destruct (for_vendor_emails_run svc (account_id automation) v1 df
                (table_id automation) addrs1 (tables (db w)))
      as [rows1 H1].
    destruct (for_vendor_emails_run svc (account_id automation) v3 df
                (table_id automation) addrs3 (tables (db w)))
      as [rows3 H3].
    set (m1 := messages_returned svc (account_id automation) df addrs1) in *.
    set (m3 := messages_returned svc (account_id automation) df addrs3) in *.
    assert (Hloop :
              for_vendors svc automation df (auto_vendors automation)
                ([], 0) w1
              = (Ok (rows1 ++ rows3, m1 + m3), w1)).
    { assert (Hdb : forall v,
                vendor_addresses (db w1) (user_id automation) v
                = vendor_addresses (db w) (user_id automation) v)
        by reflexivity.
      assert (Hts : tables (db w1) = tables (db w)) by reflexivity.
      rewrite Hvendors. cbn [for_vendors].
      unfold bind at 1. rewrite _get_vendor_emails_run, Hdb, Hv1.
      unfold bind at 1. rewrite (H1 w1 [] 0 Hts).
      unfold bind at 1. rewrite _get_vendor_emails_run, Hdb, Hv2.
      unfold bind at 1.
      rewrite (for_vendor_emails_all_raise svc _ _ _ _ _ _ _ Hraise).
      unfold bind at 1. rewrite _get_vendor_emails_run, Hdb, Hv3.
      unfold bind at 1. rewrite (H3 w1 _ _ Hts).
      reflexivity. }
    destruct (@_execute_actions_found svc automation
                (run_opened automation_id automation w) _ _ Hloop)
      as [w2 Hexec].
    destruct (@run_automation_success svc automation_id automation w _ _
                Hfind Hexec) as [w3 Hrun].
    eexists _, w3, rows1, rows3.
    split; [exact Hrun |].
    split; [apply (H1 w [] 0 eq_refl) |].
    split; [apply (H3 w [] 0 eq_refl) |].
    repeat split.
  - intros vendor before email after Hfails.
    destruct (for_emails_run svc (account_id automation) vendor
                (table_id automation) before (tables (db w)))
      as [rows_before Hb].
    destruct (for_emails_run svc (account_id automation) vendor
                (table_id automation) after (tables (db w)))
      as [rows_after Ha].
    exists rows_before, rows_after.
    split; [apply (Hb w [] 0 eq_refl) |].
    split; [apply (Ha w [] 0 eq_refl) |].
    rewrite for_emails_app. unfold bind.
    rewrite (Hb w [] 0 eq_refl). cbn [app].
    rewrite (@for_emails_failing svc (account_id automation) vendor
               (table_id automation) email after rows_before _ w Hfails).
    rewrite (Ha w rows_before _ eq_refl). reflexivity.
  - intros vendor before addr after e Hsearch.
    destruct (for_vendor_emails_run svc (account_id automation) vendor df
                (table_id automation) before (tables (db w)))
      as [rows_before Hb].
    destruct (for_vendor_emails_run svc (account_id automation) vendor df
                (table_id automation) after (tables (db w)))
      as [rows_after Ha].
    exists rows_before, rows_after.
    split; [apply (Hb w [] 0 eq_refl) |].
    split; [apply (Ha w [] 0 eq_refl) |].
    rewrite for_vendor_emails_app. unfold bind at 1.
    rewrite (Hb w [] 0 eq_refl). cbn [app for_vendor_emails].
    fold (search_query df addr).
    unfold bind at 1. unfold try_except, bind at 1, lift. rewrite Hsearch.
    unfold ret at 1.
    rewrite (Ha w rows_before _ eq_refl). reflexivity.
Qed.

(** A gateway where the searches on promocash fail, and every message of
    the other senders carries one invoice of 100. *)
Definition invoice_pdf : Attachment :=
  {| filename := Some (py "Facture.PDF"); mimeType := None;
     attachmentId := PStr (py "att1") |}.

Definition an_email (id : string) : Email :=
  {| email_id := py id; email_date := PStr (py "2026-11-02") |}.

Definition promocash_down : EmailService :=
  {| search_emails := fun _ query =>
       if contains (py "promocash") query then Raise (py "503")
       else if contains (py "distram") query
       then Ok [an_email "d1"; an_email "d2"]
       else Ok [an_email "m1"];
     get_email_by_id := fun _ _ => Ok [invoice_pdf];
     extract_invoice_data := fun _ _ _ =>
       Ok {| total := Some (PNum 100); invoice_number := PStr (py "F-1") |} |}.

(** The same gateway, where the message d1 cannot be fetched. *)
Definition d1_unreadable : EmailService :=
  {| search_emails := search_emails promocash_down;
     get_email_by_id := fun _ id =>
       if PyStr.eqb id (py "d1") then Raise (py "404")
       else Ok [invoice_pdf];
     extract_invoice_data := extract_invoice_data promocash_down |}.

Lemma partial_failure_isolation_witness :
  exists r w3,
    run_automation d1_unreadable 3%N
      (a_world [invoice_table [] 0]
         [py "distram"; py "promocash"; py "metro"] no_learned_senders)
    = (Ok (RunSuccess 8%N r), w3) /\
    res_emails_processed r = 3 /\
    res_rows_added r = 2 /\
    invoice_ids (res_invoices r) = [PStr (py "d2"); PStr (py "m1")].
Proof.
  destruct (@partial_failure_isolation d1_unreadable 3%N
              (an_automation [py "distram"; py "promocash"; py "metro"])
              (a_world [invoice_table [] 0]
                 [py "distram"; py "promocash"; py "metro"]
                 no_learned_senders)
              (py "distram") (py "promocash") (py "metro")
              [py "facturation@distram.com"] [py "no-reply@promocash.com"]
              [py "factures@metro.fr"])
    as [[r [w3 [rows1 [rows3 [Hrun [H1 [H3 [Hinv [Hn [_ Hadded]]]]]]]]]] _].
  - reflexivity.
  - reflexivity.
  - vm_compute; reflexivity.
  - vm_compute; reflexivity.
  - vm_compute; reflexivity.
  - intros addr [<-|[]]. eexists. vm_compute. reflexivity.
  - exists r, w3. split; [exact Hrun |].
    vm_compute in H1, H3. injection H1 as <-. injection H3 as <-.
    split; [rewrite Hn; vm_compute; reflexivity |].
    split; [rewrite Hadded; vm_compute; reflexivity |].
    rewrite Hinv. vm_compute. reflexivity.
Defined.

(** A message of a sender that two vendors name comes back from both
    searches. *)
Definition shared_sender : EmailService :=
  {| search_emails := fun _ query =>
       if contains (py "from:khadispal") query
          || contains (py "from:orcun") query
       then Ok [an_email "m1"] else Ok [];
     get_email_by_id := fun _ _ => Ok [invoice_pdf];
     extract_invoice_data := fun _ _ _ =>
       Ok {| total := Some (PNum 100); invoice_number := PStr (py "F-1") |} |}.

Definition source_ids (w : World) : list (list pyval) :=
  map (fun t => map source_email_id (rows t)) (tables (db w)).

(** C2, on one run.  The table is empty; the vendors khadispal and orcun
    both find the message m1.  The first run inserts two rows for m1, since
    the duplicate check reads the stored table and the rows are stored
    after the loop.  A second run skips m1 and adds nothing: the table keeps
    two rows with the same source message id. *)
Theorem run_inserts_message_twice :
  exists r1 w1 r2 w2,
    run_automation shared_sender 3%N
      (a_world [invoice_table [] 0] [py "khadispal"; py "orcun"]
         no_learned_senders)
    = (Ok (RunSuccess 8%N r1), w1) /\
    run_automation shared_sender 3%N w1 = (Ok (RunSuccess 11%N r2), w2) /\
    res_rows_added r1 = 2 /\
    source_ids w1 = [[PStr (py "m1"); PStr (py "m1")]] /\
    res_emails_processed r2 = 2 /\
    res_rows_added r2 = 0 /\
    source_ids w2 = [[PStr (py "m1"); PStr (py "m1")]].
Proof.
  eexists _, _, _, _.
  split; [vm_compute; reflexivity |].
  split; [vm_compute; reflexivity |].
  repeat split.
Qed.

(** ** The scheduler *)

Import Scheduler.

Lemma find_app_none {A} (p : A -> bool) l1 l2 :
  find p l1 = None -> find p (l1 ++ l2) = find p l2.
Proof.
  induction l1 as [|x l1 IH]; simpl; [reflexivity |].
  destruct (p x); [discriminate | exact IH].
Qed.

Lemma find_removed (jobs : list Job) id :
  find (fun j => N.eqb (job_id j) id) (remove_job jobs id) = None.
Proof.
  unfold remove_job. induction jobs as [|j jobs IH]; simpl; [reflexivity |].
  destruct (N.eqb (job_id j) id) eqn:E; simpl; [exact IH |].
  rewrite E. exact IH.
Qed.

Lemma remove_job_twice jobs id :
  remove_job (remove_job jobs id) id = remove_job jobs id.
Proof.
  unfold remove_job. induction jobs as [|j jobs IH]; simpl; [reflexivity |].
  destruct (N.eqb (job_id j) id) eqn:E; simpl; [exact IH |].
  rewrite E; simpl. rewrite IH; reflexivity.
Qed.

(** After [add_job] the store has the job under its id, once. *)
Lemma get_job_add_job jobs j :
  get_job (add_job jobs j) (job_id j) = Some j /\
  List.length (filter (fun x => N.eqb (job_id x) (job_id j)) (add_job jobs j))
  = 1%nat.
Proof.
  unfold get_job, add_job. split.
  - rewrite find_app_none by apply find_removed.
    simpl. rewrite N.eqb_refl. reflexivity.
  - rewrite filter_app, length_app. simpl. rewrite N.eqb_refl. simpl.
    assert (H : filter (fun x => N.eqb (job_id x) (job_id j))
                  (remove_job jobs (job_id j)) = []).
    { unfold remove_job. induction jobs as [|x jobs IH]; simpl; [reflexivity |].
      destruct (N.eqb (job_id x) (job_id j)) eqn:E; simpl; [exact IH |].
      rewrite E. exact IH. }
    rewrite H. reflexivity.
Qed.

(** The job that [schedule_automation] installs for a trigger. *)
Definition job_of (automation : Automation) (trigger : cron_trigger) : Job :=
  {| job_id := auto_oid automation; job_trigger := trigger;
     job_args := [auto_oid automation]; job_name := auto_name automation |}.

(** Once the trigger is built, the job is installed, replacing any job of
    the same id, and the operation answers [True]. *)
Lemma schedule_automation_installs CronTrigger next_fire self jobs
    automation trigger w :
  scheduler self = Some jobs ->
  trigger_of CronTrigger (cron (auto_trigger automation)) = Ok trigger ->
  exists self' jobs' w',
    schedule_automation CronTrigger next_fire self automation w
      = (Ok (true, self'), w') /\
    scheduler self' = Some jobs' /\
    get_job jobs' (auto_oid automation) = Some (job_of automation trigger) /\
    List.length
      (filter (fun x => N.eqb (job_id x) (auto_oid automation)) jobs')
    = 1%nat.
Proof.
  intros Hsched Htrigger.
  unfold schedule_automation. rewrite Hsched.
  unfold try_except, bind at 1, lift. rewrite Htrigger.
  run_M. fold (job_of automation trigger).
  eexists _, _, _. split; [reflexivity |]. split; [reflexivity |].
  destruct (get_job jobs (auto_oid automation));
    apply (get_job_add_job _ (job_of automation trigger)).
Qed.

(** When the trigger cannot be built, the operation answers [False] and
    neither the jobs nor the world change. *)
Lemma schedule_automation_fails CronTrigger next_fire self jobs
    automation e w :
  scheduler self = Some jobs ->
  trigger_of CronTrigger (cron (auto_trigger automation)) = Raise e ->
  schedule_automation CronTrigger next_fire self automation w
    = (Ok (false, self), w).
Proof.
  intros Hsched Htrigger.
  unfold schedule_automation. rewrite Hsched.
  unfold try_except, bind at 1, lift. rewrite Htrigger. reflexivity.
Qed.

(** C8, as amended.  The scheduler has its job store.  A stored cron
    expression of fewer than five fields falls back to the default trigger,
    Monday 9:00, and the job is installed; an expression of five fields or
    more that the trigger constructor rejects makes the operation answer
    [False], with no job installed. *)
Theorem schedule_automation_fallback CronTrigger next_fire self jobs
    automation expr w :
  scheduler self = Some jobs ->
  cron (auto_trigger automation) = Some expr ->
  ((List.length (split expr) < 5)%nat ->
   exists self' jobs' w',
     schedule_automation CronTrigger next_fire self automation w
       = (Ok (true, self'), w') /\
     scheduler self' = Some jobs' /\
     get_job jobs' (auto_oid automation)
       = Some (job_of automation default_trigger) /\
     List.length
       (filter (fun x => N.eqb (job_id x) (auto_oid automation)) jobs')
     = 1%nat) /\
  (forall minute hour day month day_of_week rest e,
     split expr = minute :: hour :: day :: month :: day_of_week :: rest ->
     CronTrigger minute hour day month day_of_week = Raise e ->
     schedule_automation CronTrigger next_fire self automation w
       = (Ok (false, self), w)).
Proof.
  intros Hsched Hcron. split.
  - intros Hshort.
    apply (@schedule_automation_installs CronTrigger next_fire self jobs
             automation default_trigger w Hsched).
    rewrite Hcron. unfold trigger_of.
    destruct (split expr) as [|p0 [|p1 [|p2 [|p3 [|p4 rest]]]]];
      try reflexivity.
    simpl in Hshort. lia.
  - intros p0 p1 p2 p3 p4 rest e Hsplit Hreject.
    apply (@schedule_automation_fails CronTrigger next_fire self jobs
             automation e w Hsched).
    rewrite Hcron. unfold trigger_of. rewrite Hsplit. exact Hreject.
Qed.

Definition started_scheduler : AutomationScheduler :=
  {| scheduler := Some []; engine := None; _started := true |}.

Definition automation_with_cron (expr : option pystr) : Automation :=
  {| auto_oid := 3%N; user_id := py "u1"; account_id := py "acc1";
     auto_name := py "Suivi factures"; auto_description := None;
     auto_trigger :=
       {| trigger_type := SCHEDULE; cron := expr;
          frequency := Some (py "weekly"); day_of_week := Some 0;
          hour := 9; minute := 0 |};
     auto_actions := [];
     auto_vendors := [py "metro"]; table_id := Some 1%N; status := active;
     created_at := 0; updated_at := 0; last_run := None; next_run := None;
     run_count := 0; last_error := None |}.

Definition no_fire_time : cron_trigger -> datetime -> option datetime :=
  fun _ _ => None.

Lemma schedule_automation_fallback_witness :
  exists self' jobs' w',
    schedule_automation plain_CronTrigger no_fire_time started_scheduler
      (automation_with_cron (Some (py "every monday"))) invoice_world
      = (Ok (true, self'), w') /\
    scheduler self' = Some jobs' /\
    get_job jobs' 3%N
      = Some (job_of (automation_with_cron (Some (py "every monday")))
                default_trigger) /\
    List.length (filter (fun x => N.eqb (job_id x) 3%N) jobs') = 1%nat.
Proof.
  apply (proj1 (@schedule_automation_fallback plain_CronTrigger no_fire_time
                  started_scheduler []
                  (automation_with_cron (Some (py "every monday")))
                  (py "every monday") invoice_world eq_refl eq_refl)).
  vm_compute. lia.
Defined.

(** C8, as stated, fails.  The stored expression "0 9h * * 0" has five
    fields and its hour field does not compile: the operation answers
    [False] and the scheduler, which was started, has no job. *)
Lemma schedule_automation_no_fallback :
  List.length (split (py "0 9h * * 0")) = 5%nat /\
  plain_CronTrigger (py "0") (py "9h") (py "*") (py "*") (py "0")
    = Raise (py "Unrecognized expression") /\
  schedule_automation plain_CronTrigger no_fire_time started_scheduler
    (automation_with_cron (Some (py "0 9h * * 0"))) invoice_world
    = (Ok (false, started_scheduler), invoice_world) /\
  scheduler started_scheduler = Some [].
Proof. repeat split. Qed.

(** * Further properties *)

(** ** The matcher *)

(** What a pattern matches: from input [s] and captures [c] it leaves the
    input [s'] and the captures [c']. *)
Inductive denotes : regex -> pystr -> captures -> pystr -> captures -> Prop :=
| D_Eps s c : denotes Eps s c s c
| D_Chr x s c : denotes (Chr x) (x :: s) c s c
| D_Cls f x s c : f x = true -> denotes (Cls f) (x :: s) c s c
| D_Seq a b s c s1 c1 s2 c2 :
    denotes a s c s1 c1 -> denotes b s1 c1 s2 c2 ->
    denotes (Seq a b) s c s2 c2
| D_AltL a b s c s1 c1 : denotes a s c s1 c1 -> denotes (Alt a b) s c s1 c1
| D_AltR a b s c s1 c1 : denotes b s c s1 c1 -> denotes (Alt a b) s c s1 c1
| D_Star0 a s c : denotes (Star a) s c s c
| D_StarS a s c s1 c1 s2 c2 :
    denotes a s c s1 c1 -> denotes (Star a) s1 c1 s2 c2 ->
    denotes (Star a) s c s2 c2
| D_Group i a s c s1 c1 :
    denotes a s c s1 c1 ->
    denotes (Group i a) s c s1
      ((i, firstn (List.length s - List.length s1) s) :: c1).

(** A match that the matcher finds is a match of the pattern, followed by
    a success of the continuation. *)
Lemma rmatch_sound r : forall s c k m,
  rmatch r s c k = Some m ->
  exists s1 c1, denotes r s c s1 c1 /\ k s1 c1 = Some m.
Proof.
  induction r as [| x | f | a IHa b IHb | a IHa b IHb | a IHa | i a IHa];
    intros s c k m; cbn [rmatch].
  - intros H. exists s, c. split; [constructor | exact H].
  - destruct s as [|y t]; [discriminate |].
    destruct (N.eqb_spec y x) as [->|]; [| discriminate].
    intros H. exists t, c. split; [constructor | exact H].
  - destruct s as [|y t]; [discriminate |].
    destruct (f y) eqn:E; [| discriminate].
    intros H. exists t, c. split; [constructor; exact E | exact H].
  - intros H. apply IHa in H as [s1 [c1 [Ha H]]].
    apply IHb in H as [s2 [c2 [Hb H]]].
    exists s2, c2. split; [econstructor; eassumption | exact H].
  - destruct (rmatch a s c k) as [m'|] eqn:E.
    + intros H; inversion H; subst.
      apply IHa in E as [s1 [c1 [Ha Hk]]].
      exists s1, c1. split; [apply D_AltL; exact Ha | exact Hk].
    + intros H. apply IHb in H as [s1 [c1 [Hb Hk]]].
      exists s1, c1. split; [apply D_AltR; exact Hb | exact Hk].
  - generalize (List.length s) as n. intros n. revert s c.
    induction n as [|n IHn]; intros s c.
    + intros H. exists s, c. split; [constructor | exact H].
    + match goal with
      | |- context [rmatch a s c ?k1] =>
        destruct (rmatch a s c k1) as [m'|] eqn:E
      end.
      * intros H; inversion H; subst.
        apply IHa in E as [s1 [c1 [Ha Hk]]].
        destruct (Nat.ltb (List.length s1) (List.length s)); [| discriminate].
        apply IHn in Hk as [s2 [c2 [Hs Hk]]].
        exists s2, c2. split; [econstructor; eassumption | exact Hk].
      * intros H. exists s, c. split; [constructor | exact H].
  - intros H. apply IHa in H as [s1 [c1 [Ha Hk]]].
    eexists _, _. split; [constructor; exact Ha | exact Hk].
Qed.

Lemma search_sound r : forall s m,
  search r s = Some m -> exists s0 s1, denotes r s0 [] s1 m.
Proof.
  induction s as [|x t IH]; intros m; cbn [search].
  - destruct (rmatch r [] [] _) as [m'|] eqn:E; [| discriminate].
    intros H; inversion H; subst.
    apply rmatch_sound in E as [s1 [c1 [Hd Hk]]].
    inversion Hk; subst. eauto.
  - destruct (rmatch r (x :: t) [] _) as [m'|] eqn:E.
    + intros H; inversion H; subst.
      apply rmatch_sound in E as [s1 [c1 [Hd Hk]]].
      inversion Hk; subst. eauto.
    + apply IH.
Qed.

(** A repeated class captures nothing. *)
Lemma denotes_star_class f s c s1 c1 :
  denotes (Star (Cls f)) s c s1 c1 -> c1 = c.
Proof.
  intros H. remember (Star (Cls f)) as r eqn:Hr.
  induction H; try discriminate; [reflexivity |].
  inversion Hr; subst. inversion H; subst. apply IHdenotes2. reflexivity.
Qed.

(** A decimal digit has a value from 0 to 9. *)
Lemma decimal_range c v : decimal c = Some v -> (v <= 9)%N.
Proof.
  unfold decimal.
  destruct (find (fun zero => ((zero <=? c) && (c <=? zero + 9))%N)
              DIGIT_ZEROS) as [zero|] eqn:E; [| discriminate].
  apply find_some in E as [_ E]. apply andb_prop in E as [H1 H2].
  apply N.leb_le in H1, H2. intros H; inversion H; subst. lia.
Qed.

Lemma int_of_digits_two (g : pystr) :
  (List.length g <= 2)%nat -> forallb is_digit g = true ->
  0 <= int_of_digits g <= 99.
Proof.
  assert (Hd : forall d,
            0 <= Z.of_N (match decimal d with Some v => v | None => 0 end)
              <= 9).
  { intros d. pose proof (decimal_range d) as Hv.
    destruct (decimal d) as [v|]; [specialize (Hv v eq_refl) |]; lia. }
  destruct g as [|d1 [|d2 [|d3 g]]]; cbn [List.length]; intros Hlen _.
  - unfold int_of_digits; simpl; lia.
  - pose proof (Hd d1). unfold int_of_digits; cbn [fold_left]. lia.
  - pose proof (Hd d1). pose proof (Hd d2).
    unfold int_of_digits; cbn [fold_left]. lia.
  - lia.
Qed.

Ltac invert_denotes :=
  repeat match goal with
  | H : denotes (Seq _ _) _ _ _ _ |- _ => inversion H; subst; clear H
  | H : denotes (Cls _) _ _ _ _ |- _ => inversion H; subst; clear H
  | H : denotes (Chr _) _ _ _ _ |- _ => inversion H; subst; clear H
  | H : denotes Eps _ _ _ _ |- _ => inversion H; subst; clear H
  | H : denotes (Group _ _) _ _ _ _ |- _ => inversion H; subst; clear H
  | H : denotes (Alt _ _) _ _ _ _ |- _ => inversion H; subst; clear H
  | H : denotes (Star (Cls _)) _ _ _ _ |- _ =>
    apply denotes_star_class in H; subst
  end.

(** What the hour pattern captures: one or two digits. *)
Lemma hour_pattern_group s0 s1 m :
  denotes hour_pattern s0 [] s1 m ->
  exists g,
    m = [(1%nat, g)] /\ (List.length g <= 2)%nat /\
    forallb is_digit g = true.
Proof.
  unfold hour_pattern, seqs, lit, opt, digit, ws, one_of.
  replace (lit_cps (py "h")) with (Chr 104%N) by reflexivity.
  intros H. invert_denotes;
    (eexists; split; [reflexivity |]);
    match goal with
    | |- context [firstn (List.length (?d1 :: ?d2 :: ?t) - List.length ?t)] =>
      replace (List.length (d1 :: d2 :: t) - List.length t)%nat with 2%nat
        by (cbn [List.length]; lia)
    | |- context [firstn (List.length (?d1 :: ?t) - List.length ?t)] =>
      replace (List.length (d1 :: t) - List.length t)%nat with 1%nat
        by (cbn [List.length]; lia)
    end;
    cbn [firstn List.length forallb];
    repeat match goal with
           | H : is_digit _ = true |- _ => rewrite H; clear H
           end;
    (split; [lia | reflexivity]).
Qed.

Lemma extract_hour_range text : 0 <= extract_hour text <= 99.
Proof.
  unfold extract_hour.
  destruct (search hour_pattern (lower text)) as [m|] eqn:E.
  - apply search_sound in E as [s0 [s1 Hd]].
    apply hour_pattern_group in Hd as [g [-> [Hlen Hdig]]].
    cbn [group Nat.eqb]. apply int_of_digits_two; assumption.
  - destruct (contains (py "matin") (lower text)); [lia |].
    destruct (contains (py "soir") (lower text)); lia.
Qed.

(** X1.  The hour that [extract_hour] reads from a text is between 0 and
    99: the pattern takes one or two decimal digits, of any script, and
    nothing bounds them by 23; "a 99h" gives 99, and "a ٣h", with the
    Arabic-Indic digit three, gives 3. *)
Theorem extract_hour_bounds text :
  0 <= extract_hour text <= 99 /\
  extract_hour (py "chaque jour a 99h") = 99 /\
  extract_hour (py "a ٣h") = 3.
Proof.
  split; [apply extract_hour_range |].
  split; vm_compute; reflexivity.
Qed.

(** ** The parsed trigger *)

Definition frequency_shape (r : pystr * option Z) : bool :=
  mem (fst r) [py "daily"; py "weekly"; py "monthly"] &&
  match snd r with
  | Some n => PyStr.eqb (fst r) (py "weekly") && (0 <=? n) && (n <=? 6)
  | None => true
  end.

Lemma frequency_scan_shape text_lower :
  match frequency_scan text_lower FREQUENCY_PATTERNS with
  | Some r => frequency_shape r = true
  | None => True
  end.
Proof.
  unfold FREQUENCY_PATTERNS. cbn [frequency_scan].
  repeat (destruct (existsb _ _); [vm_compute; reflexivity |]).
  exact I.
Qed.

Lemma extract_frequency_shape text :
  frequency_shape (extract_frequency text) = true.
Proof.
  unfold extract_frequency.
  destruct (find _ DAY_MAPPING) as [[day_name day_num]|] eqn:E.
  - apply find_some in E as [Hin _].
    assert (H : forallb (fun item => frequency_shape (py "weekly", Some (snd item)))
                  DAY_MAPPING = true) by (vm_compute; reflexivity).
    rewrite forallb_forall in H. apply (H _ Hin).
  - pose proof (frequency_scan_shape (lower text)) as H.
    destruct (frequency_scan (lower text) FREQUENCY_PATTERNS) as [r|];
      [exact H | vm_compute; reflexivity].
Qed.

Lemma frequency_shape_spec f d :
  frequency_shape (f, d) = true ->
  In f [py "daily"; py "weekly"; py "monthly"] /\
  (forall n, d = Some n -> f = py "weekly" /\ 0 <= n <= 6).
Proof.
  unfold frequency_shape; cbn [fst snd]. intros H.
  apply andb_prop in H as [Hf Hd]. split; [apply mem_In; exact Hf |].
  intros n ->. apply andb_prop in Hd as [Hd H6]. apply andb_prop in Hd as [Hw H0].
  apply pystr_eqb_eq in Hw. apply Z.leb_le in H0, H6. auto.
Qed.

(** X2.  The trigger of every parsed config is a schedule at minute 0
    whose frequency is daily, weekly or monthly; a day of week, when there
    is one, is between 0 and 6 and the frequency is then weekly.  The
    fall-back branch of the cron builder is therefore never taken. *)
Theorem parsed_trigger_shape text config :
  parse_automation_request text = Some config ->
  trigger_type (trigger config) = SCHEDULE /\
  minute (trigger config) = 0 /\
  (exists f,
     frequency (trigger config) = Some f /\
     In f [py "daily"; py "weekly"; py "monthly"]) /\
  (forall n,
     day_of_week (trigger config) = Some n ->
     frequency (trigger config) = Some (py "weekly") /\ 0 <= n <= 6).
Proof.
  unfold parse_automation_request.
  destruct (negb (detect_automation_intent text)); [discriminate |].
  pose proof (extract_frequency_shape text) as Hshape.
  destruct (extract_frequency text) as [f d].
  apply frequency_shape_spec in Hshape as [Hf Hd].
  intros H; inversion H; subst; cbn.
  split; [reflexivity |]. split; [reflexivity |].
  split; [exists f; auto |].
  intros n Hn. destruct (Hd n Hn) as [-> Hr].
  split; [reflexivity | exact Hr].
Qed.

Lemma parsed_trigger_shape_witness :
  exists config,
    parse_automation_request (py "automatise le suivi metro tous les mois")
      = Some config /\
    minute (trigger config) = 0.
Proof.
  eexists; split; [vm_compute; reflexivity |].
  refine (proj1 (proj2 (@parsed_trigger_shape
    (py "automatise le suivi metro tous les mois") _ _))).
  vm_compute; reflexivity.
Defined.

(** ** The summary *)

Import Summary.

Lemma list_index_day_names_unfold d :
  list_index day_names d =
  if (0 <=? (if d <? 0 then d + 7 else d))
     && ((if d <? 0 then d + 7 else d) <? 7)
  then match nth_error day_names (Z.to_nat (if d <? 0 then d + 7 else d)) with
       | Some x => Ok x
       | None => Raise (py "list index out of range")
       end
  else Raise (py "list index out of range").
Proof. reflexivity. Qed.

Lemma list_index_day_names d :
  (exists day, list_index day_names d = Ok day) <-> -7 <= d <= 6.
Proof.
  rewrite list_index_day_names_unfold.
  set (j := if d <? 0 then d + 7 else d).
  assert (Hj : (0 <= j < 7) <-> -7 <= d <= 6).
  { unfold j. destruct (Z.ltb_spec d 0); lia. }
  destruct ((0 <=? j) && (j <? 7)) eqn:Hin.
  - apply andb_prop in Hin as [H0 H7].
    apply Z.leb_le in H0. apply Z.ltb_lt in H7.
    split; [intros _; apply Hj; lia |]. intros _.
    destruct (nth_error day_names (Z.to_nat j)) as [x|] eqn:E;
      [exists x; reflexivity |].
    apply nth_error_None in E. cbn [day_names List.length] in E. lia.
  - split; [intros [day H]; discriminate |].
    intros H. apply Hj in H. apply andb_false_iff in Hin as [H0|H7].
    + apply Z.leb_gt in H0. lia.
    + apply Z.ltb_ge in H7. lia.
Qed.

Lemma format_summary_ok config :
  (exists summary, format_automation_summary config = Ok summary) <->
  (forall d, day_of_week (trigger config) = Some d -> -7 <= d <= 6).
Proof.
  unfold format_automation_summary.
  destruct (day_of_week (trigger config)) as [d|].
  - pose proof (list_index_day_names d) as Hd.
    destruct (list_index day_names d) as [day|e].
    + split; [intros _ d' H; inversion H; subst; apply Hd; eauto | eauto].
    + split.
      * intros [summary H]; discriminate.
      * intros H. apply Hd in H; [| reflexivity].
        destruct H as [day H]; discriminate.
  - split; [intros _ d H; discriminate | eauto].
Qed.

(** X3.  [format_automation_summary] answers a summary exactly when the
    day of week of the trigger, if any, is between -7 and 6 (a negative day
    counts from Sunday backwards); for any other day it raises
    IndexError. *)
Theorem format_summary_day_range config :
  ((exists summary, format_automation_summary config = Ok summary) <->
   (forall d, day_of_week (trigger config) = Some d -> -7 <= d <= 6)) /\
  (forall d, day_of_week (trigger config) = Some d -> (d < -7 \/ 6 < d) ->
     format_automation_summary config
     = Raise (py "list index out of range")).
Proof.
  split; [apply format_summary_ok |].
  intros d Hd Hout.
  unfold format_automation_summary. rewrite Hd.
  rewrite list_index_day_names_unfold.
  set (j := if d <? 0 then d + 7 else d).
  replace ((0 <=? j) && (j <? 7)) with false; [reflexivity |].
  symmetry. apply andb_false_iff. unfold j.
  destruct (Z.ltb_spec d 0).
  - left. apply Z.leb_gt. lia.
  - right. apply Z.ltb_ge. lia.
Qed.

(** X4.  The summary of a config that the parser produced never raises:
    [create_automation] can always describe what it created from a
    parsed request. *)
Theorem parsed_config_has_summary text config :
  parse_automation_request text = Some config ->
  exists summary, format_automation_summary config = Ok summary.
Proof.
  intros Hparse. apply format_summary_ok. intros d Hd.
  unfold parse_automation_request in Hparse.
  destruct (negb (detect_automation_intent text)); [discriminate |].
  pose proof (extract_frequency_shape text) as Hshape.
  destruct (extract_frequency text) as [f d'].
  apply frequency_shape_spec in Hshape as [_ Hday].
  inversion Hparse; subst; cbn in Hd.
  destruct (Hday d Hd). lia.
Qed.

Lemma parsed_config_has_summary_witness :
  exists config,
    parse_automation_request
      (py "chaque vendredi a 8h les factures metro et distram") = Some config /\
    exists summary, format_automation_summary config = Ok summary.
Proof.
  eexists; split; [vm_compute; reflexivity |].
  apply (@parsed_config_has_summary
           (py "chaque vendredi a 8h les factures metro et distram")).
  vm_compute; reflexivity.
Defined.

(** ** Literal patterns *)

Lemma rmatch_lit_cps p : p <> [] -> forall s c k,
  rmatch (lit_cps p) s c k
  = if startswith p s then k (skipn (List.length p) s) c else None.
Proof.
  induction p as [|x p IH]; [congruence |]. intros _ s c k.
  destruct p as [|y p].
  - cbn [lit_cps rmatch startswith List.length skipn].
    destruct s as [|z t]; [reflexivity |].
    rewrite (N.eqb_sym z x). destruct (N.eqb x z); reflexivity.
  - change (lit_cps (x :: y :: p)) with (Seq (Chr x) (lit_cps (y :: p))).
    cbn [rmatch]. destruct s as [|z t]; [reflexivity |].
    cbn [startswith List.length skipn].
    rewrite (N.eqb_sym z x). destruct (N.eqb x z); [| reflexivity].
    rewrite IH by discriminate. reflexivity.
Qed.

(** Searching a literal is the substring test. *)
Lemma matches_lit_cps p s : p <> [] -> matches (lit_cps p) s = contains p s.
Proof.
  intros Hp. unfold matches.
  induction s as [|x t IH]; cbn [search contains];
    rewrite (rmatch_lit_cps Hp); destruct (startswith p _); try reflexivity.
  exact IH.
Qed.

(** X5.  Every text that has the word "automatise", in any case, passes
    the intent gate and parses to a config, whatever else it says. *)
Theorem automatise_passes_gate text :
  contains (py "automatise") (lower text) = true ->
  detect_automation_intent text = true /\
  exists config, parse_automation_request text = Some config.
Proof.
  intros Hin.
  assert (Hgate : detect_automation_intent text = true).
  { unfold detect_automation_intent. apply existsb_exists.
    exists (lit "automatise"). split.
    - unfold automation_patterns. right; left; reflexivity.
    - unfold lit. rewrite matches_lit_cps by (vm_compute; discriminate).
      exact Hin. }
  split; [exact Hgate |].
  unfold parse_automation_request. rewrite Hgate. cbn [negb].
  destruct (extract_frequency text). eexists; reflexivity.
Qed.

Lemma automatise_passes_gate_witness :
  exists config,
    parse_automation_request (py "Automatise tout") = Some config.
Proof.
  apply (@automatise_passes_gate (py "Automatise tout")).
  vm_compute; reflexivity.
Defined.

(** ** The table manager *)

Lemma existsb_app_false {A} (p : A -> bool) l x :
  (forall y, In y l -> p y = false) ->
  existsb p (l ++ [x]) = p x.
Proof.
  intros H. rewrite existsb_app. cbn [existsb]. rewrite orb_false_r.
  replace (existsb p l) with false; [reflexivity |].
  symmetry. apply not_true_iff_false. intros He.
  apply existsb_exists in He as [y [Hy Hp]]. rewrite (H y Hy) in Hp.
  discriminate.
Qed.

Lemma find_app_fresh {A} (p : A -> bool) l x :
  (forall y, In y l -> p y = false) -> p x = true ->
  find p (l ++ [x]) = Some x.
Proof.
  intros Hl Hx. rewrite find_app_none by (apply find_none_iff; exact Hl).
  cbn [find]. rewrite Hx. reflexivity.
Qed.

(** X6.  A table that [create_table] made, under an id no table had, is
    what [get_table] answers for the id it returned: it has the given
    owner and name, the invoice columns when none were given, no row and
    the total 0, and no message is a duplicate in it. *)
Theorem create_table_then_get utc_offset user name cols yr aid desc w :
  (forall t, In t (tables (db w)) -> table_oid t <> next_oid w) ->
  exists w' t,
    create_table utc_offset user name cols yr aid desc w
      = (Ok (next_oid w), w') /\
    get_table (next_oid w) w' = (Ok (Some t), w') /\
    tables (db w') = tables (db w) ++ [t] /\
    table_user_id t = user /\ table_name t = name /\
    columns t = match cols with Some c => c | None => INVOICE_COLUMNS end /\
    automation_id t = aid /\
    rows t = [] /\ total_amount t = 0 /\
    (forall email_id,
       check_duplicate (next_oid w) email_id w' = (Ok false, w')).
Proof.
  intros Hfresh.
  assert (Hold : forall t, In t (tables (db w)) ->
                   has_table_oid (next_oid w) t = false).
  { intros t Ht. unfold has_table_oid. apply N.eqb_neq. apply Hfresh, Ht. }
  unfold create_table, now_year, tables_insert_one.
  destruct yr as [y|]; run_M; cbn [db clock next_oid oplog];
    (eexists _, _; split; [reflexivity |]);
    unfold get_table, check_duplicate; run_M;
    cbn [tables with_tables];
    (split;
     [rewrite find_app_fresh;
      [reflexivity | exact Hold
      | unfold has_table_oid; cbn [table_oid]; apply N.eqb_refl] |]);
    (split; [reflexivity |]);
    repeat (split; [reflexivity |]);
    intros email_id; rewrite existsb_app_false;
    try (cbn [rows existsb]; rewrite andb_false_r; reflexivity);
    intros t Ht; rewrite (Hold t Ht); reflexivity.
Qed.

Lemma create_table_then_get_witness :
  exists w' t,
    create_table 0 (py "u1") (py "Factures 2026") None None None None
      invoice_world = (Ok 8%N, w') /\
    get_table 8%N w' = (Ok (Some t), w') /\
    rows t = [] /\ total_amount t = 0.
Proof.
  destruct (@create_table_then_get 0 (py "u1") (py "Factures 2026") None None
              None None invoice_world)
    as [w' [t [Hc [Hg [_ [_ [_ [_ [_ [Hr [Ht _]]]]]]]]]]].
  - simpl. intros t [<-|[]]. discriminate.
  - exists w', t. auto.
Defined.

Lemma existsb_update_first_hit {A} (p q : A -> bool) f l :
  existsb p l = true ->
  (forall x, p x = true -> p (f x) = true /\ q (f x) = true) ->
  existsb (fun x => p x && q x) (update_first p f l) = true.
Proof.
  intros He Hf. induction l as [|x l IH]; [discriminate |].
  cbn [update_first existsb] in *. destruct (p x) eqn:E.
  - cbn [existsb]. destruct (Hf x E) as [-> ->]. reflexivity.
  - cbn [existsb]. rewrite E. cbn [andb orb]. apply IH. exact He.
Qed.

Lemma find_existsb {A} (p : A -> bool) l x :
  find p l = Some x -> existsb p l = true.
Proof.
  intros H. apply find_some in H as [Hin Hp].
  apply existsb_exists. eauto.
Qed.

(** X7.  A row that [add_row] adds to a table that exists, for a message,
    makes that message a duplicate: [check_duplicate] answers [True] for
    it afterwards. *)
Theorem add_row_then_duplicate table_id data email_id src w :
  existsb (has_table_oid table_id) (tables (db w)) = true ->
  exists w',
    add_row table_id data (Some email_id) src w = (Ok (next_oid w), w') /\
    check_duplicate table_id email_id w' = (Ok true, w').
Proof.
  intros Hexists. unfold add_row. run_M.
  eexists. split; [reflexivity |].
  unfold check_duplicate. run_M. cbn [tables with_tables].
  rewrite existsb_update_first_hit; [reflexivity | exact Hexists |].
  intros t Ht. split.
  - destruct (montant_of data); exact Ht.
  - assert (Hrows : forall t0,
              existsb (row_from_email email_id)
                (rows (set_updated_at (clock w + 1)
                         (push_rows
                            [{| row_id := next_oid w; row_data := data;
                                row_created_at := clock w;
                                source_email_id := PStr email_id;
                                source_automation_id := src |}] t0)))
              = true).
    { intros t0. cbn [rows set_updated_at push_rows].
      rewrite existsb_app. cbn [existsb]. unfold row_from_email at 2.
      cbn [source_email_id]. rewrite pyval_eqb_refl.
      rewrite orb_true_r. reflexivity. }
    destruct (montant_of data); cbn [rows inc_total_amount]; apply Hrows.
Qed.

Lemma add_row_then_duplicate_witness :
  exists w',
    add_row 1%N [(py "montant", PNum 5)] (Some (py "m9")) None invoice_world
      = (Ok 8%N, w') /\
    check_duplicate 1%N (py "m9") w' = (Ok true, w').
Proof.
  apply (@add_row_then_duplicate 1%N [(py "montant", PNum 5)] (py "m9") None
           invoice_world).
  reflexivity.
Defined.

(** X8.  [add_row] does not check that the table exists.  For an id
    string that is the id of no table, it still answers a new row id when
    the string is an id, and raises what [ObjectId] raises when it is not;
    either way the store is left as it was. *)
Theorem add_row_missing_table ObjectId_of (table_id : pystr) data email src
    w :
  (forall id,
     ObjectId_of table_id = Ok id ->
     existsb (has_table_oid id) (tables (db w)) = false) ->
  exists outcome w',
    ByString.add_row ObjectId_of table_id data email src w = (outcome, w') /\
    db w' = db w /\
    match ObjectId_of table_id with
    | Ok _ => outcome = Ok (next_oid w)
    | Raise e => outcome = Raise e
    end.
Proof.
  intros Hnone. unfold ByString.add_row. run_M.
  destruct (ObjectId_of table_id) as [id|e].
  - eexists _, _. split; [reflexivity |]. cbn [db]. split; [| reflexivity].
    rewrite update_first_no_match by exact (Hnone id eq_refl).
    apply with_tables_same.
  - eexists _, _. split; [reflexivity |]. split; reflexivity.
Qed.

Lemma add_row_missing_table_witness :
  exists w',
    ByString.add_row ByString.plain_ObjectId (py "000000000000000000000063")
      [(py "montant", PNum 5)] None None invoice_world
      = (Ok 8%N, w') /\
    db w' = db invoice_world.
Proof.
  destruct (@add_row_missing_table ByString.plain_ObjectId
              (py "000000000000000000000063") [(py "montant", PNum 5)]
              None None invoice_world)
    as [outcome [w' [Hrun [Hdb Hout]]]].
  - intros id Hid. vm_compute in Hid. inversion Hid; subst. reflexivity.
  - vm_compute in Hout. exists w'. rewrite Hrun, Hout. auto.
Defined.

(** X9.  After [add_rows_bulk] on a table that exists, every message id
    that a row of the batch carries under [email_id] is a duplicate. *)
Theorem add_rows_bulk_then_duplicate table_id rows_data src data email_id w :
  existsb (has_table_oid table_id) (tables (db w)) = true ->
  In data rows_data ->
  get data (py "email_id") = PStr email_id ->
  exists n w',
    add_rows_bulk table_id rows_data src w = (Ok n, w') /\
    check_duplicate table_id email_id w' = (Ok true, w').
Proof.
  intros Hexists Hin Hid. unfold add_rows_bulk, bind at 1.
  destruct (bulk_rows_spec rows_data src [] 0 w)
    as [new [w1 [E [_ [Hids [Hdb _]]]]]].
  rewrite E. simpl app.
  assert (Hrow : existsb (row_from_email email_id) new = true).
  { apply existsb_exists.
    assert (Hin' : In (PStr email_id) (map source_email_id new)).
    { rewrite Hids, <- Hid. apply in_map_iff. eauto. }
    apply in_map_iff in Hin' as [r [Hr Hinr]].
    exists r. split; [exact Hinr |].
    unfold row_from_email. rewrite Hr. apply pyval_eqb_refl. }
  destruct new as [|r new]; [discriminate |].
  run_M. eexists _, _. split; [reflexivity |].
  unfold check_duplicate. run_M. cbn [tables with_tables]. rewrite Hdb.
  rewrite existsb_update_first_hit; [reflexivity | exact Hexists |].
  intros t Ht. split; [exact Ht |].
  cbn [rows inc_total_amount set_updated_at push_rows app].
  rewrite existsb_app, Hrow. apply orb_true_r.
Qed.

Lemma add_rows_bulk_then_duplicate_witness :
  exists n w',
    add_rows_bulk 1%N [[(py "email_id", PStr (py "m7"))]] None invoice_world
      = (Ok n, w') /\
    check_duplicate 1%N (py "m7") w' = (Ok true, w').
Proof.
  apply (@add_rows_bulk_then_duplicate 1%N
           [[(py "email_id", PStr (py "m7"))]] None
           [(py "email_id", PStr (py "m7"))] (py "m7") invoice_world).
  - reflexivity.
  - left; reflexivity.
  - reflexivity.
Defined.

(** *** Editing a row *)

Lemma existsb_update_first_same {A} (p : A -> bool) g l :
  (forall x, p (g x) = p x) -> existsb p (update_first p g l) = existsb p l.
Proof.
  intros Hg. induction l as [|x l IH]; [reflexivity |].
  cbn [update_first existsb]. destruct (p x) eqn:E; cbn [existsb].
  - rewrite Hg, E. reflexivity.
  - rewrite E, IH. reflexivity.
Qed.

(** The table that [tables_update_row] leaves in place of the first table
    that has the row. *)
Definition with_row (row_id : oid) (on_row : TableRow -> TableRow)
    (t : Table) : Table :=
  {| table_oid := table_oid t; table_user_id := table_user_id t;
     table_name := table_name t; table_description := table_description t;
     columns := columns t;
     rows := update_first (has_row_id row_id) on_row (rows t);
     year := year t; table_created_at := table_created_at t;
     table_updated_at := table_updated_at t;
     automation_id := automation_id t; total_amount := total_amount t |}.

Lemma tables_update_row_found table_id row_id on_row on_table w t r :
  (forall x, Store.row_id (on_row x) = Store.row_id x) ->
  (forall x, table_oid (on_table x) = table_oid x) ->
  (forall x, rows (on_table x) = rows x) ->
  find (has_table_row table_id row_id) (tables (db w)) = Some t ->
  find (has_row_id row_id) (rows t) = Some r ->
  exists w',
    tables_update_row table_id row_id on_row on_table w = (Ok true, w') /\
    find (has_table_row table_id row_id) (tables (db w'))
      = Some (on_table (with_row row_id on_row t)) /\
    find (has_row_id row_id) (rows (on_table (with_row row_id on_row t)))
      = Some (on_row r) /\
    automations (db w') = automations (db w) /\
    clock w' = clock w.
Proof.
  intros Hrow Hoid Hrows Ht Hr.
  unfold tables_update_row. rewrite (find_existsb _ _ Ht).
  eexists. split; [reflexivity |]. run_M. cbn [tables with_tables automations].
  fold (with_row row_id on_row).
  split; [| split; [| split; reflexivity]].
  - apply (find_update_first (has_table_row table_id row_id)
             (fun t0 => on_table (with_row row_id on_row t0))); [| exact Ht].
    intros x. unfold has_table_row, has_table_oid.
    rewrite Hoid, Hrows. cbn [table_oid rows with_row].
    rewrite existsb_update_first_same; [reflexivity |].
    intros y. unfold has_row_id. rewrite Hrow. reflexivity.
  - rewrite Hrows. cbn [rows with_row].
    apply find_update_first; [| exact Hr].
    intros y. unfold has_row_id. rewrite Hrow. reflexivity.
Qed.

(** X10.  [update_row] replaces the data of the first row that has the id
    and nothing else of it; it never adjusts [total_amount], so a changed
    amount leaves the total behind. *)
Theorem update_row_keeps_total table_id row_id data w t r :
  find (has_table_row table_id row_id) (tables (db w)) = Some t ->
  find (has_row_id row_id) (rows t) = Some r ->
  exists w' t',
    update_row table_id row_id data w = (Ok true, w') /\
    find (has_table_row table_id row_id) (tables (db w')) = Some t' /\
    find (has_row_id row_id) (rows t') = Some (set_row_data data r) /\
    map Store.row_id (rows t') = map Store.row_id (rows t) /\
    total_amount t' = total_amount t /\
    map total_amount (tables (db w')) = map total_amount (tables (db w)).
Proof.
  intros Ht Hr. unfold update_row. unfold bind, utcnow.
  match goal with
  | |- context [tables_update_row _ _ ?f ?g ?w1] =>
    destruct (@tables_update_row_found table_id row_id f g w1 t r)
      as [w' [Hrun [Hft [Hfr _]]]]; try reflexivity; try assumption
  end.
  exists w', (set_updated_at (clock w) (with_row row_id (set_row_data data) t)).
  split; [exact Hrun |]. split; [exact Hft |]. split; [exact Hfr |].
  split; [| split; [reflexivity |]].
  - cbn [rows set_updated_at with_row].
    generalize (rows t). intros l. induction l as [|x l IH]; [reflexivity |].
    cbn [update_first map]. destruct (has_row_id row_id x); cbn [map];
      [reflexivity | rewrite IH; reflexivity].
  - unfold tables_update_row in Hrun. inversion Hrun; subst.
    cbn [db tables with_tables set_db log]. apply update_first_map.
    reflexivity.
Qed.

Lemma update_row_keeps_total_witness :
  exists w' t',
    update_row 1%N 7%N [(py "montant", PNum 5)] invoice_world = (Ok true, w') /\
    find (has_table_row 1%N 7%N) (tables (db w')) = Some t' /\
    total_amount t' = 1000.
Proof.
  destruct (@update_row_keeps_total 1%N 7%N [(py "montant", PNum 5)]
              invoice_world (invoice_table [invoice_row] 1000) invoice_row
              eq_refl eq_refl)
    as [w' [t' [Hrun [Hf [_ [_ [Htotal _]]]]]]].
  exists w', t'. auto.
Defined.

(** *** The paid flag *)

Lemma lookup_dict_set d key v :
  lookup (dict_set d key v) key = Some v.
Proof.
  induction d as [|[k x] d IH]; cbn [dict_set lookup].
  - rewrite pystr_eqb_refl. reflexivity.
  - destruct (PyStr.eqb k key) eqn:E; cbn [lookup]; rewrite E;
      [reflexivity | exact IH].
Qed.

Lemma lookup_dict_set_other d key v key' :
  key' <> key -> lookup (dict_set d key v) key' = lookup d key'.
Proof.
  intros Hne. induction d as [|[k x] d IH]; cbn [dict_set lookup].
  - rewrite (pystr_eqb_neq (a := key) (b := key')) by congruence. reflexivity.
  - destruct (PyStr.eqb k key) eqn:E; cbn [lookup].
    + apply pystr_eqb_eq in E; subst k.
      rewrite (pystr_eqb_neq (a := key) (b := key')) by congruence.
      reflexivity.
    + rewrite IH. reflexivity.
Qed.

Lemma dict_set_twice d key v v' :
  dict_set (dict_set d key v) key v' = dict_set d key v'.
Proof.
  induction d as [|[k x] d IH]; cbn [dict_set].
  - rewrite pystr_eqb_refl. reflexivity.
  - destruct (PyStr.eqb k key) eqn:E; cbn [dict_set]; rewrite E;
      [reflexivity | rewrite IH; reflexivity].
Qed.

(** The row with its paid flag set. *)
Definition with_paid (paid : bool) (r : TableRow) : TableRow :=
  set_row_data (dict_set (row_data r) (py "payee") (PBool paid)) r.

Lemma toggle_paid_once table_id row_id w t r :
  find (has_table_row table_id row_id) (tables (db w)) = Some t ->
  find (has_row_id row_id) (rows t) = Some r ->
  exists w',
    toggle_paid table_id row_id w = (Ok true, w') /\
    find (has_table_row table_id row_id) (tables (db w'))
      = Some (with_row row_id (with_paid (negb (is_paid r))) t) /\
    find (has_row_id row_id)
      (rows (with_row row_id (with_paid (negb (is_paid r))) t))
      = Some (with_paid (negb (is_paid r)) r) /\
    clock w' = clock w.
Proof.
  intros Ht Hr. unfold toggle_paid. unfold bind, get_db. rewrite Ht, Hr.
  fold (is_paid r).
  match goal with
  | |- context [tables_update_row _ _ ?f ?g w] =>
    destruct (@tables_update_row_found table_id row_id f g w t r)
      as [w' [Hrun [Hft [Hfr [_ Hclock]]]]];
      try reflexivity; try assumption
  end.
  exists w'. split; [exact Hrun |]. split; [exact Hft |].
  split; [exact Hfr | exact Hclock].
Qed.

(** X11.  [toggle_paid] sets the paid flag of the row to the negation of
    its truth value and answers [True]; a second toggle sets it back.
    Neither touches the other keys of the row, the total of the table or
    its update time. *)
Theorem toggle_paid_twice table_id row_id w t r :
  find (has_table_row table_id row_id) (tables (db w)) = Some t ->
  find (has_row_id row_id) (rows t) = Some r ->
  exists w1 t1 r1 w2 t2 r2,
    toggle_paid table_id row_id w = (Ok true, w1) /\
    find (has_table_row table_id row_id) (tables (db w1)) = Some t1 /\
    find (has_row_id row_id) (rows t1) = Some r1 /\
    is_paid r1 = negb (is_paid r) /\
    toggle_paid table_id row_id w1 = (Ok true, w2) /\
    find (has_table_row table_id row_id) (tables (db w2)) = Some t2 /\
    find (has_row_id row_id) (rows t2) = Some r2 /\
    is_paid r2 = is_paid r /\
    (forall key, key <> py "payee" ->
       lookup (row_data r1) key = lookup (row_data r) key /\
       lookup (row_data r2) key = lookup (row_data r) key) /\
    total_amount t2 = total_amount t /\
    table_updated_at t2 = table_updated_at t.
Proof.
  intros Ht Hr.
  destruct (toggle_paid_once _ _ _ Ht Hr) as [w1 [Hrun1 [Ht1 [Hr1 _]]]].
  destruct (toggle_paid_once _ _ _ Ht1 Hr1) as [w2 [Hrun2 [Ht2 [Hr2 _]]]].
  assert (Hpaid : forall b x, is_paid (with_paid b x) = b).
  { intros b x. unfold is_paid, with_paid, get_default.
    cbn [row_data set_row_data]. rewrite lookup_dict_set. reflexivity. }
  eexists w1, _, _, w2, _, _.
  split; [exact Hrun1 |]. split; [exact Ht1 |]. split; [exact Hr1 |].
  split; [apply Hpaid |].
  split; [exact Hrun2 |]. split; [exact Ht2 |]. split; [exact Hr2 |].
  split; [rewrite !Hpaid; apply negb_involutive |].
  split; [| split; reflexivity].
  intros key Hkey. unfold with_paid. cbn [row_data set_row_data].
  rewrite !lookup_dict_set_other by exact Hkey. split; reflexivity.
Qed.

Lemma toggle_paid_twice_witness :
  exists w1 w2,
    toggle_paid 1%N 7%N invoice_world = (Ok true, w1) /\
    toggle_paid 1%N 7%N w1 = (Ok true, w2).
Proof.
  destruct (@toggle_paid_twice 1%N 7%N invoice_world
              (invoice_table [invoice_row] 1000) invoice_row eq_refl eq_refl)
    as [w1 [t1 [r1 [w2 [t2 [r2 [H1 [_ [_ [_ [H2 _]]]]]]]]]]].
  exists w1, w2. auto.
Defined.

(** X12.  [toggle_paid] and [update_row] get a table id string and a row
    id such that no table of that id has a row of that id.  When the
    string is an id, both answer [False]; [toggle_paid] then writes nothing
    at all and [update_row] leaves the store as it was.  When [ObjectId]
    rejects the string, both raise what it raises and write nothing. *)
Theorem row_operations_missing_row ObjectId_of (table_id : pystr) row_id
    data w :
  (forall id,
     ObjectId_of table_id = Ok id ->
     existsb (has_table_row id row_id) (tables (db w)) = false) ->
  match ObjectId_of table_id with
  | Ok _ =>
    ByString.toggle_paid ObjectId_of table_id row_id w = (Ok false, w) /\
    exists w',
      ByString.update_row ObjectId_of table_id row_id data w
        = (Ok false, w') /\
      db w' = db w
  | Raise e =>
    ByString.toggle_paid ObjectId_of table_id row_id w = (Raise e, w) /\
    ByString.update_row ObjectId_of table_id row_id data w = (Raise e, w)
  end.
Proof.
  intros Hnone. unfold ByString.toggle_paid, ByString.update_row.
  rewrite !on_parsed_id.
  destruct (ObjectId_of table_id) as [id|e]; [| split; reflexivity].
  specialize (Hnone id eq_refl). split.
  - unfold toggle_paid, bind, get_db.
    destruct (find (has_table_row id row_id) (tables (db w))) eqn:E;
      [| reflexivity].
    apply find_existsb in E. congruence.
  - unfold update_row, tables_update_row. run_M. rewrite Hnone.
    eexists. split; [reflexivity |]. cbn [db].
    rewrite update_first_no_match by exact Hnone. apply with_tables_same.
Qed.

Lemma row_operations_missing_row_witness :
  ByString.toggle_paid ByString.plain_ObjectId
    (py "000000000000000000000001") 8%N invoice_world
  = (Ok false, invoice_world) /\
  ByString.toggle_paid ByString.plain_ObjectId (py "1") 8%N invoice_world
  = (Raise (py "'1' is not a valid ObjectId, it must be a 12-byte input or a 24-character hex string"),
     invoice_world).
Proof.
  pose proof (@row_operations_missing_row ByString.plain_ObjectId
                (py "000000000000000000000001") 8%N [] invoice_world) as H1.
  pose proof (@row_operations_missing_row ByString.plain_ObjectId
                (py "1") 8%N [] invoice_world) as H2.
  vm_compute ByString.plain_ObjectId in H1, H2.
  split.
  - apply H1. intros id Hid. inversion Hid; subst. reflexivity.
  - apply H2. intros id Hid. discriminate.
Defined.

(** *** Deleting *)

(** X13.  [delete_row] answers [True] whenever the table exists, whether
    or not a row has the id; the rows of other ids stay, in their order,
    none of that id is left, and the total is not adjusted.  For an id
    that no table has it answers [False] and the store is left as it was.
    For a string that [ObjectId] rejects it raises what [ObjectId] raises
    and writes nothing. *)
Theorem delete_row_answer ObjectId_of (table_id : pystr) row_id w :
  match ObjectId_of table_id with
  | Ok id =>
    (forall t,
       find (has_table_oid id) (tables (db w)) = Some t ->
       exists w' t',
         ByString.delete_row ObjectId_of table_id row_id w = (Ok true, w') /\
         find (has_table_oid id) (tables (db w')) = Some t' /\
         rows t' = filter (fun r => negb (has_row_id row_id r)) (rows t) /\
         existsb (has_row_id row_id) (rows t') = false /\
         total_amount t' = total_amount t) /\
    (existsb (has_table_oid id) (tables (db w)) = false ->
     exists w',
       ByString.delete_row ObjectId_of table_id row_id w = (Ok false, w') /\
       db w' = db w)
  | Raise e =>
    ByString.delete_row ObjectId_of table_id row_id w = (Raise e, w)
  end.
Proof.
  unfold ByString.delete_row. rewrite on_parsed_id.
  destruct (ObjectId_of table_id) as [id|e]; [| reflexivity].
  split.
  - intros t Ht. unfold delete_row. run_M. rewrite (find_existsb _ _ Ht).
    eexists _, _. split; [reflexivity |]. cbn [db tables with_tables].
    split; [apply find_update_first; [reflexivity | exact Ht] |].
    cbn [rows total_amount set_updated_at pull_rows].
    split; [reflexivity |]. split; [| reflexivity].
    apply not_true_iff_false. intros He.
    apply existsb_exists in He as [r [Hin Hr]].
    apply filter_In in Hin as [_ Hneg].
    unfold has_row_id in Hr. rewrite Hr in Hneg. discriminate.
  - intros Hnone. unfold delete_row. run_M. rewrite Hnone.
    eexists. split; [reflexivity |]. cbn [db].
    rewrite update_first_no_match by exact Hnone. apply with_tables_same.
Qed.

Lemma delete_first_no_match {A} (p : A -> bool) l :
  existsb p l = false -> delete_first p l = l.
Proof.
  induction l as [|x l IH]; [reflexivity |]. cbn [existsb delete_first].
  destruct (p x); [discriminate |]. intros H; rewrite IH by exact H.
  reflexivity.
Qed.

Lemma delete_first_unique {A} (key : A -> oid) l id :
  NoDup (map key l) ->
  delete_first (fun x => N.eqb (key x) id) l
  = filter (fun x => negb (N.eqb (key x) id)) l.
Proof.
  induction l as [|x l IH]; [reflexivity |]. cbn [map delete_first filter].
  intros Hnd. inversion Hnd as [|k ks Hk Hnd']; subst.
  destruct (N.eqb_spec (key x) id) as [Heq|Hne]; cbn [negb].
  - subst id. symmetry. apply forallb_filter_id. apply forallb_forall.
    intros y Hy. apply negb_true_iff. apply N.eqb_neq. intros Heq.
    apply Hk. rewrite <- Heq. apply in_map. exact Hy.
  - rewrite IH by exact Hnd'. reflexivity.
Qed.

Lemma find_filter_out {A} (key : A -> oid) l id :
  find (fun x => N.eqb (key x) id)
    (filter (fun x => negb (N.eqb (key x) id)) l) = None.
Proof.
  induction l as [|x l IH]; [reflexivity |]. cbn [filter].
  destruct (N.eqb (key x) id) eqn:E; cbn [negb]; [exact IH |].
  cbn [find]. rewrite E. exact IH.
Qed.

(** X14.  With distinct table ids, [delete_table] on an id removes the
    table of that id and no other: [get_table] no longer finds it.  It
    answers whether there was one; when there was none the store is left
    as it was.  On a string that [ObjectId] rejects it raises what
    [ObjectId] raises and writes nothing. *)
Theorem delete_table_then_get ObjectId_of (table_id : pystr) w :
  NoDup (map table_oid (tables (db w))) ->
  match ObjectId_of table_id with
  | Ok id =>
    exists w',
      ByString.delete_table ObjectId_of table_id w
        = (Ok (existsb (has_table_oid id) (tables (db w))), w') /\
      tables (db w')
        = filter (fun t => negb (has_table_oid id t)) (tables (db w)) /\
      ByString.get_table ObjectId_of table_id w' = (Ok None, w') /\
      (existsb (has_table_oid id) (tables (db w)) = false -> db w' = db w)
  | Raise e =>
    ByString.delete_table ObjectId_of table_id w = (Raise e, w)
  end.
Proof.
  intros Hnd.
  destruct (ObjectId_of table_id) as [id|e] eqn:Hid;
    [| unfold ByString.delete_table; rewrite on_parsed_id, Hid;
       reflexivity].
  assert (Hdel : forall w0,
            ByString.delete_table ObjectId_of table_id w0
            = delete_table id w0)
    by (intros; unfold ByString.delete_table; rewrite on_parsed_id, Hid;
        reflexivity).
  assert (Hget : forall w0,
            ByString.get_table ObjectId_of table_id w0 = get_table id w0)
    by (intros; unfold ByString.get_table; rewrite on_parsed_id, Hid;
        reflexivity).
  exists (snd (delete_table id w)). rewrite Hdel, Hget.
  unfold delete_table. cbn [snd]. split; [reflexivity |].
  unfold get_table. run_M. cbn [tables with_tables].
  unfold has_table_oid.
  rewrite (delete_first_unique table_oid _ id Hnd).
  split; [reflexivity |]. split.
  - rewrite find_filter_out. reflexivity.
  - intros Hnone.
    rewrite <- (delete_first_unique table_oid _ id Hnd).
    rewrite delete_first_no_match by exact Hnone. apply with_tables_same.
Qed.

Lemma delete_table_then_get_witness :
  exists w',
    ByString.delete_table ByString.plain_ObjectId
      (py "000000000000000000000001") invoice_world = (Ok true, w') /\
    ByString.get_table ByString.plain_ObjectId
      (py "000000000000000000000001") w' = (Ok None, w').
Proof.
  pose proof (@delete_table_then_get ByString.plain_ObjectId
                (py "000000000000000000000001") invoice_world) as H.
  vm_compute ByString.plain_ObjectId in H.
  destruct H as [w' [Hdel [_ [Hget _]]]].
  - simpl. repeat constructor. intros [].
  - exists w'. split; [exact Hdel | exact Hget].
Defined.

(** *** Statistics *)

(** Whether the amount of a row can be added: a number, a bool, or no
    [montant] at all. *)
Definition addable_montant (r : TableRow) : bool :=
  match lookup (row_data r) (py "montant") with
  | None | Some (PNum _) | Some (PBool _) => true
  | _ => false
  end.

Definition montant_or_zero (r : TableRow) : pyval :=
  get_default (row_data r) (py "montant") (PNum 0).

Definition sum_counts (bv : list (pyval * VendorStats)) : Z :=
  fold_right (fun item acc => vendor_count (snd item) + acc) 0 bv.

Definition sum_totals (bv : list (pyval * VendorStats)) : Z :=
  fold_right (fun item acc => vendor_total (snd item) + acc) 0 bv.

Lemma add_montant_ok r acc :
  addable_montant r = true ->
  add_to_int acc (montant_or_zero r) = Ok (acc + rows_total [r]).
Proof.
  unfold addable_montant, montant_or_zero, get_default, rows_total, montant_of.
  cbn [fold_right].
  destruct (lookup (row_data r) (py "montant")) as [[| b | x | s]|];
    try discriminate; intros _; cbn [add_to_int]; f_equal; lia.
Qed.

Lemma add_montant_raise r acc :
  addable_montant r = false ->
  exists e, add_to_int acc (montant_or_zero r) = Raise e.
Proof.
  unfold addable_montant, montant_or_zero, get_default.
  destruct (lookup (row_data r) (py "montant")) as [[| b | x | s]|];
    try discriminate; intros _; cbn [add_to_int]; eauto.
Qed.

Lemma key_eqb_refl v : key_eqb v v = true.
Proof.
  destruct v; cbn; auto using Bool.eqb_reflx, Z.eqb_refl, pystr_eqb_refl.
Qed.

Lemma bump_vendor_ok bv vendor r :
  existsb (fun item => key_eqb (fst item) vendor) bv = true ->
  addable_montant r = true ->
  exists bv',
    bump_vendor bv vendor (montant_or_zero r) = Ok bv' /\
    sum_counts bv' = sum_counts bv + 1 /\
    sum_totals bv' = sum_totals bv + rows_total [r].
Proof.
  intros Hin Hadd. induction bv as [|[k st] bv IH]; [discriminate |].
  cbn [bump_vendor existsb fst] in *.
  destruct (key_eqb k vendor).
  - rewrite (add_montant_ok _ (vendor_total st) Hadd).
    eexists. split; [reflexivity |].
    unfold sum_counts, sum_totals. cbn [fold_right snd vendor_count vendor_total].
    split; lia.
  - destruct (IH Hin) as [bv' [-> [Hc Ht]]].
    eexists. split; [reflexivity |].
    unfold sum_counts, sum_totals in *.
    cbn [fold_right snd]. split; lia.
Qed.

Lemma bump_vendor_raise bv vendor r :
  existsb (fun item => key_eqb (fst item) vendor) bv = true ->
  addable_montant r = false ->
  exists e, bump_vendor bv vendor (montant_or_zero r) = Raise e.
Proof.
  intros Hin Hadd. induction bv as [|[k st] bv IH]; [discriminate |].
  cbn [bump_vendor existsb fst] in *.
  destruct (key_eqb k vendor).
  - destruct (add_montant_raise r (vendor_total st) Hadd) as [e ->]. eauto.
  - destruct (IH Hin) as [e ->]. eauto.
Qed.

(** The dict once the vendor of the row has its entry. *)
Definition with_vendor (bv : list (pyval * VendorStats)) (vendor : pyval)
    : list (pyval * VendorStats) :=
  if existsb (fun item => key_eqb (fst item) vendor) bv then bv
  else bv ++ [(vendor, {| vendor_count := 0; vendor_total := 0 |})].

Lemma with_vendor_has bv vendor :
  existsb (fun item => key_eqb (fst item) vendor) (with_vendor bv vendor)
  = true /\
  sum_counts (with_vendor bv vendor) = sum_counts bv /\
  sum_totals (with_vendor bv vendor) = sum_totals bv.
Proof.
  unfold with_vendor.
  destruct (existsb _ bv) eqn:E; [auto |].
  split; [| split].
  - rewrite existsb_app. cbn [existsb fst]. rewrite key_eqb_refl.
    rewrite orb_true_r. reflexivity.
  - unfold sum_counts. rewrite fold_right_app. reflexivity.
  - unfold sum_totals. rewrite fold_right_app. reflexivity.
Qed.

Lemma count_by_vendor_ok rs : forall bv,
  forallb addable_montant rs = true ->
  exists bv',
    count_by_vendor rs bv = Ok bv' /\
    sum_counts bv' = sum_counts bv + Z.of_nat (List.length rs) /\
    sum_totals bv' = sum_totals bv + rows_total rs.
Proof.
  induction rs as [|r rs IH]; intros bv Hall.
  - exists bv. cbn. split; [reflexivity |]. split; lia.
  - cbn [forallb] in Hall. apply andb_prop in Hall as [Hr Hrs].
    cbn [count_by_vendor].
    match goal with
    | |- context [bump_vendor ?bv1 ?v ?m] =>
      change bv1 with (with_vendor bv v);
      destruct (with_vendor_has bv v) as [Hv [Hc Ht]];
      destruct (@bump_vendor_ok (with_vendor bv v) v r Hv Hr)
        as [bv1' [Hb [Hc1 Ht1]]]
    end.
    unfold montant_or_zero in Hb. rewrite Hb.
    destruct (IH bv1' Hrs) as [bv' [-> [Hc2 Ht2]]].
    exists bv'. split; [reflexivity |].
    change (r :: rs) with ([r] ++ rs). rewrite rows_total_app.
    cbn [List.length app]. split; lia.
Qed.

Lemma count_by_vendor_raise rs : forall bv r,
  In r rs -> addable_montant r = false ->
  exists e, count_by_vendor rs bv = Raise e.
Proof.
  induction rs as [|x rs IH]; intros bv r Hin Hbad; [destruct Hin |].
  cbn [count_by_vendor].
  match goal with
  | |- context [bump_vendor ?bv1 ?v ?m] =>
    change bv1 with (with_vendor bv v);
    destruct (with_vendor_has bv v) as [Hv _]
  end.
  destruct (addable_montant x) eqn:Hx.
  - destruct (@bump_vendor_ok _ _ x Hv Hx) as [bv1' [Hb _]].
    unfold montant_or_zero in Hb. rewrite Hb.
    destruct Hin as [->|Hin]; [congruence |].
    apply (IH bv1' r Hin Hbad).
  - destruct (@bump_vendor_raise _ _ x Hv Hx) as [e He].
    unfold montant_or_zero in He. rewrite He. eauto.
Qed.

Lemma sum_values_ok rs : forall acc,
  forallb addable_montant rs = true ->
  sum_values (map montant_or_zero rs) acc = Ok (acc + rows_total rs).
Proof.
  induction rs as [|r rs IH]; intros acc Hall.
  - cbn. f_equal. lia.
  - cbn [forallb] in Hall. apply andb_prop in Hall as [Hr Hrs].
    cbn [map sum_values]. rewrite (add_montant_ok _ acc Hr).
    rewrite IH by exact Hrs.
    change (r :: rs) with ([r] ++ rs). rewrite rows_total_app.
    f_equal. lia.
Qed.

(** X15.  When the amount of every row is a number or absent, and the
    amounts and the stored total are whole numbers that doubles add
    exactly, [get_table_stats] answers: the vendor counts add up to the
    number of rows and the vendor totals to the sum of the amounts; the
    paid and unpaid counts add up to the number of rows; the paid amount
    is the sum over the paid rows and, with the unpaid amount, makes the
    stored total. *)
Theorem get_table_stats_partition table_id w t :
  find (has_table_oid table_id) (tables (db w)) = Some t ->
  forallb addable_montant (rows t) = true ->
  exact_in_double
    (total_amount t :: map (fun r => amount_of (row_data r)) (rows t)) ->
  exists st,
    get_table_stats table_id w = (Ok (Some st), w) /\
    row_count st = Z.of_nat (List.length (rows t)) /\
    stats_total_amount st = total_amount t /\
    sum_counts (by_vendor st) = row_count st /\
    sum_totals (by_vendor st) = rows_total (rows t) /\
    paid_count st + unpaid_count st = row_count st /\
    0 <= paid_count st <= row_count st /\
    paid_amount st = rows_total (filter is_paid (rows t)) /\
    paid_amount st + unpaid_amount st = total_amount t.
Proof.
  intros Ht Hall _.
  unfold get_table_stats, get_table. unfold bind at 1. unfold bind at 1.
  unfold get_db, ret at 1. rewrite Ht.
  destruct (count_by_vendor_ok (rows t) [] Hall) as [bv [Hbv [Hc Hs]]].
  unfold bind at 1. unfold lift at 1. rewrite Hbv.
  assert (Hpaid : forallb addable_montant (filter is_paid (rows t)) = true).
  { apply forallb_forall. intros r Hr. apply filter_In in Hr as [Hr _].
    rewrite forallb_forall in Hall. apply Hall, Hr. }
  unfold bind at 1. unfold lift at 1.
  fold montant_or_zero.
  change (fun r : TableRow => get_default (row_data r) (py "montant") (PNum 0))
    with montant_or_zero.
  rewrite (sum_values_ok _ 0 Hpaid).
  eexists. split; [reflexivity |].
  cbn [row_count stats_total_amount by_vendor paid_count unpaid_count
       paid_amount unpaid_amount].
  unfold sum_counts, sum_totals in *. cbn [fold_right] in Hc, Hs.
  pose proof (filter_length_le is_paid (rows t)) as Hle.
  repeat split; try lia.
Qed.

Definition paid_row : TableRow :=
  {| row_id := 9%N;
     row_data := [(py "fournisseur", PStr (py "Metro"));
                  (py "montant", PNum 250); (py "payee", PBool true)];
     row_created_at := 0; source_email_id := PNone;
     source_automation_id := None |}.

Definition stats_world : World :=
  {| db := {| tables := [invoice_table [invoice_row; paid_row] 1250];
              automations := []; automation_runs := [];
              learned_senders := no_learned_senders |};
     clock := 10; next_oid := 10%N; oplog := [] |}.

Lemma get_table_stats_partition_witness :
  exists st,
    get_table_stats 1%N stats_world = (Ok (Some st), stats_world) /\
    paid_amount st = 250 /\ unpaid_amount st = 1000.
Proof.
  destruct (@get_table_stats_partition 1%N stats_world
              (invoice_table [invoice_row; paid_row] 1250) eq_refl eq_refl)
    as [st [Hrun [_ [_ [_ [_ [_ [_ [Hp Hsum]]]]]]]]].
  { vm_compute. discriminate. }
  exists st. split; [exact Hrun |].
  assert (H250 : paid_amount st = 250) by (rewrite Hp; reflexivity).
  split; [exact H250 |]. cbn in Hsum. lia.
Defined.

(** X16.  A row whose [montant] is neither a number nor a bool, which
    [add_row] stores without complaint, makes [get_table_stats] raise a
    TypeError for the whole table. *)
Theorem get_table_stats_raises table_id w t r :
  find (has_table_oid table_id) (tables (db w)) = Some t ->
  In r (rows t) ->
  addable_montant r = false ->
  exists e, get_table_stats table_id w = (Raise e, w).
Proof.
  intros Ht Hin Hbad.
  unfold get_table_stats, get_table. unfold bind at 1. unfold bind at 1.
  unfold get_db, ret at 1. rewrite Ht.
  destruct (count_by_vendor_raise (rows t) [] r Hin Hbad) as [e He].
  unfold bind at 1. unfold lift at 1. rewrite He. eauto.
Qed.

Definition unpriced_row : TableRow :=
  {| row_id := 9%N; row_data := [(py "montant", PStr (py "12,50"))];
     row_created_at := 0; source_email_id := PNone;
     source_automation_id := None |}.

Definition unpriced_world : World :=
  {| db := {| tables := [invoice_table [invoice_row; unpriced_row] 1000];
              automations := []; automation_runs := [];
              learned_senders := no_learned_senders |};
     clock := 10; next_oid := 10%N; oplog := [] |}.

Lemma get_table_stats_raises_witness :
  exists e, get_table_stats 1%N unpriced_world = (Raise e, unpriced_world).
Proof.
  apply (@get_table_stats_raises 1%N unpriced_world
           (invoice_table [invoice_row; unpriced_row] 1000) unpriced_row).
  - reflexivity.
  - right; left; reflexivity.
  - reflexivity.
Defined.

(** ** The engine: a run that succeeds *)

(** X17.  When the action pipeline answers [r], [run_automation] returns
    the success with the id of the run record; the record gets the status
    success, the results, its two counts and a completion time; the
    automation gets one more run, a last-run time and no last error, and
    keeps its status; no other automation changes. *)
Theorem run_automation_success_path svc automation_id automation w r w2 :
  find (has_auto_oid automation_id) (automations (db w)) = Some automation ->
  fresh_run_oid w ->
  _execute_actions svc automation (run_opened automation_id automation w)
    = (Ok r, w2) ->
  exists w3 completed now automation',
    run_automation svc automation_id w
      = (Ok (RunSuccess (next_oid w) r), w3) /\
    automation_runs (db w3) =
      automation_runs (db w) ++
      [ {| run_oid := next_oid w; run_automation_id := automation_id;
           run_user_id := user_id automation; started_at := clock w;
           completed_at := Some completed; run_status := success;
           results := Some r;
           emails_processed := res_emails_processed r;
           rows_added := res_rows_added r; error := None |} ] /\
    automations (db w3) =
      update_first (has_auto_oid automation_id) (set_run_succeeded now)
        (automations (db w)) /\
    find (has_auto_oid automation_id) (automations (db w3))
      = Some automation' /\
    run_count automation' = run_count automation + 1 /\
    last_error automation' = None /\
    last_run automation' = Some now /\
    status automation' = status automation /\
    tables (db w3) = tables (db w2).
Proof.
  intros Hfind Hfresh Hexec.
  destruct (_execute_actions_frame _ _ _ Hexec) as [Hautos Hruns].
  cbn [run_opened db automations automation_runs with_automation_runs]
    in Hautos, Hruns.
  exists
    {| db := with_automations
               (update_first (has_auto_oid automation_id)
                  (set_run_succeeded (clock w2 + 1)) (automations (db w)))
               (with_automation_runs
                  (automation_runs (db w) ++
                   [run_completed (clock w2) r
                      (run_record automation_id automation w)])
                  (db w2));
       clock := clock w2 + 1 + 1;
       next_oid := next_oid w2;
       oplog := (oplog w2 ++ [UpdateOne "automation_runs" (next_oid w)])
                ++ [UpdateOne "automations" automation_id] |},
    (clock w2), (clock w2 + 1), (set_run_succeeded (clock w2 + 1) automation).
  split; [| repeat split].
  - unfold run_automation, bind at 1, get_db. rewrite Hfind.
    unfold bind at 1. unfold utcnow at 1. unfold bind at 1.
    unfold automation_runs_insert_one at 1. unfold log, set_db.
    cbn [db clock next_oid oplog].
    fold (run_record automation_id automation w).
    fold (run_opened automation_id automation w).
    unfold try_except. rewrite (bind_Ok _ _ _ Hexec).
    run_M. cbn [automations with_automation_runs].
    rewrite Hruns, Hautos.
    rewrite update_first_app_fresh.
    + reflexivity.
    + intros x Hx. unfold has_run_oid. apply N.eqb_neq. apply Hfresh, Hx.
    + unfold has_run_oid; apply N.eqb_refl.
  - cbn. apply find_update_first; [reflexivity | exact Hfind].
Qed.

Lemma run_automation_success_path_witness :
  exists w3,
    run_automation promocash_down 3%N
      (a_world [invoice_table [] 0] [py "metro"] no_learned_senders)
    = (Ok (RunSuccess 8%N
             {| res_emails_processed := 1; res_invoices_found := 1;
                res_rows_added := 1;
                res_invoices :=
                  [[(py "date", PStr (py "2026-11-02"));
                    (py "fournisseur", PStr (py "Metro"));
                    (py "montant", PNum 100);
                    (py "n_facture", PStr (py "F-1"));
                    (py "email_id", PStr (py "m1"));
                    (py "payee", PBool false)]] |}), w3).
Proof.
  destruct (@run_automation_success_path promocash_down 3%N
              (an_automation [py "metro"])
              (a_world [invoice_table [] 0] [py "metro"] no_learned_senders)
              {| res_emails_processed := 1; res_invoices_found := 1;
                 res_rows_added := 1;
                 res_invoices :=
                   [[(py "date", PStr (py "2026-11-02"));
                     (py "fournisseur", PStr (py "Metro"));
                     (py "montant", PNum 100);
                     (py "n_facture", PStr (py "F-1"));
                     (py "email_id", PStr (py "m1"));
                     (py "payee", PBool false)]] |}
              (snd (_execute_actions promocash_down (an_automation [py "metro"])
                      (run_opened 3%N (an_automation [py "metro"])
                         (a_world [invoice_table [] 0] [py "metro"]
                            no_learned_senders)))))
    as [w3 [completed [now [automation' [Hrun _]]]]].
  - reflexivity.
  - intros x [].
  - vm_compute; reflexivity.
  - exists w3; exact Hrun.
Defined.

(** Witnesses of the properties of the table invariant and of the
    duplicate check. *)
Lemma add_row_total_consistent_witness :
  exists id w',
    add_row 1%N [(py "montant", PNum 5)] None None invoice_world
      = (Ok id, w') /\
    Forall total_consistent (tables (db w')).
Proof.
  destruct (@add_row_total_consistent 1%N [(py "montant", PNum 5)] None None
              invoice_world) as [id [w' [Hrun [Hinv _]]]].
  - repeat constructor.
  - intros b. discriminate.
  - intros t [<-|[]] _. vm_compute. discriminate.
  - exists id, w'. auto.
Defined.

Lemma add_rows_bulk_total_consistent_witness :
  exists n w',
    add_rows_bulk 1%N [[(py "montant", PNum 5)]; [(py "montant", PNum 7)]]
      None invoice_world = (Ok n, w') /\
    Forall total_consistent (tables (db w')).
Proof.
  destruct (@add_rows_bulk_total_consistent 1%N
              [[(py "montant", PNum 5)]; [(py "montant", PNum 7)]] None
              invoice_world) as [n [w' [Hrun [Hinv _]]]].
  - repeat constructor.
  - intros t [<-|[]] _. vm_compute. discriminate.
  - exists n, w'. auto.
Defined.

(** A table with two rows added by hand and the row of the message d1. *)
Definition manual_row (id : oid) : TableRow :=
  {| row_id := id; row_data := [(py "montant", PNum 40)];
     row_created_at := 0; source_email_id := PNone;
     source_automation_id := None |}.

Definition d1_row : TableRow :=
  {| row_id := 7%N;
     row_data := [(py "montant", PNum 100); (py "email_id", PStr (py "d1"))];
     row_created_at := 0; source_email_id := PStr (py "d1");
     source_automation_id := Some 3%N |}.

Definition distram_world : World :=
  a_world [invoice_table [manual_row 5%N; manual_row 6%N; d1_row] 180]
    [py "distram"] no_learned_senders.

Lemma run_keeps_distinct_witness :
  exists r w3 tbl',
    run_automation promocash_down 3%N distram_world
      = (Ok (RunSuccess 8%N r), w3) /\
    res_emails_processed r = 2 /\
    find (has_table_oid 1%N) (tables (db w3)) = Some tbl' /\
    message_ids (rows tbl') = [py "d1"; py "d2"] /\
    NoDup (message_ids (rows tbl')).
Proof.
  eexists _, _.
  assert (Hrun : run_automation promocash_down 3%N distram_world
                 = (Ok (RunSuccess 8%N _), _))
    by (vm_compute; reflexivity).
  destruct (@run_keeps_distinct promocash_down 3%N
              (an_automation [py "distram"]) distram_world 8%N _ _ 1%N
              (invoice_table [manual_row 5%N; manual_row 6%N; d1_row] 180)
              eq_refl eq_refl eq_refl Hrun) as [tbl' [Hf [Hm Hnd]]].
  - vm_compute. repeat constructor; simpl; intuition discriminate.
  - vm_compute. repeat constructor; simpl; intuition discriminate.
  - exists tbl'. split; [exact Hrun |]. split; [reflexivity |].
    split; [exact Hf |]. split; [| exact Hnd].
    rewrite Hm. vm_compute. reflexivity.
Defined.

Lemma run_automation_succeeds_witness :
  exists r w3,
    run_automation promocash_down 3%N
      (a_world [invoice_table [] 0] [py "promocash"] no_learned_senders)
    = (Ok (RunSuccess 8%N r), w3).
Proof.
  apply (@run_automation_succeeds promocash_down 3%N
           (an_automation [py "promocash"])
           (a_world [invoice_table [] 0] [py "promocash"] no_learned_senders)).
  - reflexivity.
  - intros vendor [<-|[]]. eexists. vm_compute. reflexivity.
Defined.

(** ** The scheduler: jobs *)

Lemma find_app {A} (p : A -> bool) l1 l2 :
  find p (l1 ++ l2)
  = match find p l1 with Some x => Some x | None => find p l2 end.
Proof.
  induction l1 as [|x l1 IH]; [reflexivity |]. cbn [app find].
  destruct (p x); [reflexivity | exact IH].
Qed.

Lemma get_job_remove_other jobs id id' :
  id' <> id -> get_job (remove_job jobs id) id' = get_job jobs id'.
Proof.
  intros Hne. unfold get_job, remove_job.
  induction jobs as [|j jobs IH]; [reflexivity |]. cbn [filter find].
  destruct (N.eqb_spec (job_id j) id) as [Heq|Hneq]; cbn [negb].
  - destruct (N.eqb_spec (job_id j) id') as [Heq'|_]; [congruence | exact IH].
  - cbn [find]. destruct (N.eqb (job_id j) id'); [reflexivity | exact IH].
Qed.

Lemma remove_job_absent jobs id :
  get_job jobs id = None -> remove_job jobs id = jobs.
Proof.
  unfold get_job, remove_job.
  induction jobs as [|j jobs IH]; [reflexivity |]. cbn [filter find].
  destruct (N.eqb (job_id j) id); [discriminate |]. cbn [negb].
  intros H. rewrite IH by exact H. reflexivity.
Qed.

Lemma get_job_add_other jobs j id' :
  id' <> job_id j -> get_job (add_job jobs j) id' = get_job jobs id'.
Proof.
  intros Hne. unfold add_job.
  change (get_job (remove_job jobs (job_id j) ++ [j]) id')
    with (find (fun x => N.eqb (job_id x) id')
            (remove_job jobs (job_id j) ++ [j])).
  rewrite find_app.
  change (find (fun x => N.eqb (job_id x) id') (remove_job jobs (job_id j)))
    with (get_job (remove_job jobs (job_id j)) id').
  rewrite get_job_remove_other by exact Hne.
  destruct (get_job jobs id'); [reflexivity |].
  cbn [find]. destruct (N.eqb_spec (job_id j) id'); [congruence | reflexivity].
Qed.

(** X18.  [unschedule_automation] leaves no job of that id and keeps
    every other job; when there was no such job, or no scheduler yet, it
    changes nothing and does not fail. *)
Theorem unschedule_automation_removes self automation_id :
  (forall jobs,
     scheduler self = Some jobs ->
     exists jobs',
       scheduler (unschedule_automation self automation_id) = Some jobs' /\
       get_job jobs' automation_id = None /\
       (forall id', id' <> automation_id ->
          get_job jobs' id' = get_job jobs id') /\
       (get_job jobs automation_id = None -> jobs' = jobs)) /\
  (scheduler self = None ->
   unschedule_automation self automation_id = self) /\
  _started (unschedule_automation self automation_id) = _started self.
Proof.
  unfold unschedule_automation. split; [| split].
  - intros jobs ->. eexists. split; [reflexivity |].
    split; [apply find_removed |].
    split; [intros id' Hne; apply get_job_remove_other; exact Hne |].
    apply remove_job_absent.
  - intros ->. reflexivity.
  - destruct (scheduler self); reflexivity.
Qed.

(** What [schedule_automation] does, in full: with a scheduler, the job of
    a trigger that builds replaces any job of the id and the next fire time
    is stored; otherwise nothing changes. *)
Lemma schedule_automation_run CronTrigger next_fire self automation w :
  exists b self' w',
    schedule_automation CronTrigger next_fire self automation w
      = (Ok (b, self'), w') /\
    _started self' = _started self /\ engine self' = engine self /\
    tables (db w') = tables (db w) /\
    match scheduler self,
          trigger_of CronTrigger (cron (auto_trigger automation)) with
    | Some jobs, Ok trigger =>
      b = true /\
      scheduler self' = Some (add_job jobs (job_of automation trigger)) /\
      automations (db w') =
        update_first (has_auto_oid (auto_oid automation))
          (set_next_run (next_fire trigger (clock w))) (automations (db w))
    | _, _ => b = false /\ self' = self /\ w' = w
    end.
Proof.
  unfold schedule_automation.
  destruct (scheduler self) as [jobs|] eqn:Hs.
  - unfold try_except, bind at 1, lift.
    destruct (trigger_of CronTrigger (cron (auto_trigger automation)))
      as [trigger|e].
    + run_M. fold (job_of automation trigger).
      eexists _, _, _. split; [reflexivity |].
      cbn [_started engine scheduler db tables automations with_automations].
      repeat split.
      destruct (get_job jobs (auto_oid automation)); [| reflexivity].
      unfold add_job. cbn [job_id job_of]. rewrite remove_job_twice.
      reflexivity.
    + unfold ret. eexists _, _, _. split; [reflexivity |]. repeat split.
  - unfold ret. eexists _, _, _. split; [reflexivity |].
    destruct (trigger_of CronTrigger (cron (auto_trigger automation)));
      repeat split.
Qed.

(** X19.  Scheduling an automation whose trigger builds installs its job,
    leaves the jobs of the other automations as they were, and stores the
    next fire time of the trigger in the automation document: nothing else
    of the store changes, neither the other automations, nor the tables,
    nor the run history. *)
Theorem schedule_automation_keeps_others CronTrigger next_fire self jobs
    automation trigger w :
  scheduler self = Some jobs ->
  trigger_of CronTrigger (cron (auto_trigger automation)) = Ok trigger ->
  exists self' jobs' w',
    schedule_automation CronTrigger next_fire self automation w
      = (Ok (true, self'), w') /\
    scheduler self' = Some jobs' /\
    get_job jobs' (auto_oid automation) = Some (job_of automation trigger) /\
    (forall id', id' <> auto_oid automation ->
       get_job jobs' id' = get_job jobs id') /\
    db w' =
      with_automations
        (update_first (has_auto_oid (auto_oid automation))
           (set_next_run (next_fire trigger (clock w))) (automations (db w)))
        (db w).
Proof.
  intros Hs Ht. unfold schedule_automation. rewrite Hs.
  unfold try_except, bind at 1, lift. rewrite Ht.
  run_M. fold (job_of automation trigger).
  eexists _, _, _. split; [reflexivity |].
  cbn [scheduler db]. split; [reflexivity |].
  split; [apply (proj1 (get_job_add_job _ (job_of automation trigger))) |].
  split; [| reflexivity].
  intros id' Hne. rewrite get_job_add_other by exact Hne.
  destruct (get_job jobs (auto_oid automation)); [| reflexivity].
  apply get_job_remove_other. exact Hne.
Qed.

(** A scheduler that holds the job of another automation, and a trigger
    that fires an hour after it is asked. *)
Definition another_job : Job :=
  {| job_id := 4%N; job_trigger := default_trigger; job_args := [4%N];
     job_name := py "Suivi Metro" |}.

Definition busy_scheduler : AutomationScheduler :=
  {| scheduler := Some [another_job]; engine := None; _started := true |}.

Definition fire_in_an_hour : cron_trigger -> datetime -> option datetime :=
  fun _ now => Some (now + 3600000000).

Lemma schedule_automation_keeps_others_witness :
  exists self' jobs' w' automation',
    schedule_automation plain_CronTrigger fire_in_an_hour busy_scheduler
      (an_automation [py "metro"])
      (a_world [invoice_table [] 0] [py "metro"] no_learned_senders)
      = (Ok (true, self'), w') /\
    scheduler self' = Some jobs' /\
    get_job jobs' 4%N = Some another_job /\
    find (has_auto_oid 3%N) (automations (db w')) = Some automation' /\
    next_run automation' = Some 1793667600000000 /\
    tables (db w') = [invoice_table [] 0] /\
    automation_runs (db w') = [].
Proof.
  destruct (@schedule_automation_keeps_others plain_CronTrigger
              fire_in_an_hour busy_scheduler [another_job]
              (an_automation [py "metro"])
              {| cron_minute := py "0"; cron_hour := py "9";
                 cron_day := py "*"; cron_month := py "*";
                 cron_day_of_week := py "0" |}
              (a_world [invoice_table [] 0] [py "metro"] no_learned_senders)
              eq_refl)
    as [self' [jobs' [w' [Hrun [Hs [_ [Hother Hdb]]]]]]].
  - vm_compute; reflexivity.
  - exists self', jobs', w'. eexists.
    split; [exact Hrun |]. split; [exact Hs |].
    split; [rewrite Hother; [reflexivity | discriminate] |].
    rewrite Hdb. cbn [db automations tables automation_runs with_automations
                      a_world update_first has_auto_oid an_automation
                      auto_oid N.eqb Pos.eqb find].
    split; [reflexivity |]. split; [reflexivity |]. split; reflexivity.
Defined.

(** ** The scheduler: start *)

Section Recovery.

Variable CronTrigger :
  pystr -> pystr -> pystr -> pystr -> pystr -> result cron_trigger.
Variable next_fire : cron_trigger -> datetime -> option datetime.

(** The job an automation is due: one when it is active and its trigger
    builds, none otherwise. *)
Definition job_due (a : Automation) : option Job :=
  if is_active a then
    match trigger_of CronTrigger (cron (auto_trigger a)) with
    | Ok trigger => Some (job_of a trigger)
    | Raise _ => None
    end
  else None.

Definition jobs_for (l : list Automation) : list Job :=
  flat_map (fun a => match job_due a with Some j => [j] | None => [] end) l.

Lemma jobs_for_ids l j :
  In j (jobs_for l) -> In (job_id j) (map auto_oid l).
Proof.
  unfold jobs_for. intros H. apply in_flat_map in H as [a [Ha Hj]].
  apply in_map_iff. exists a. split; [| exact Ha].
  unfold job_due in Hj. destruct (is_active a); [| destruct Hj].
  destruct (trigger_of _ _); [| destruct Hj].
  destruct Hj as [<-|[]]. reflexivity.
Qed.

Lemma get_job_absent jobs id :
  ~ In id (map job_id jobs) -> get_job jobs id = None.
Proof.
  intros H. unfold get_job. apply find_none_iff. intros j Hj.
  apply N.eqb_neq. intros Heq. apply H. rewrite <- Heq.
  apply in_map. exact Hj.
Qed.

Lemma get_job_jobs_for_absent l id :
  ~ In id (map auto_oid l) -> get_job (jobs_for l) id = None.
Proof.
  intros H. apply get_job_absent. intros Hin.
  apply in_map_iff in Hin as [j [Hid Hj]]. apply H. rewrite <- Hid.
  apply jobs_for_ids. exact Hj.
Qed.

Lemma job_due_id a j : job_due a = Some j -> job_id j = auto_oid a.
Proof.
  unfold job_due. destruct (is_active a); [| discriminate].
  destruct (trigger_of _ _); [| discriminate].
  intros H; inversion H; reflexivity.
Qed.

(** With distinct ids, the job found under the id of an automation is the
    job it is due. *)
Lemma get_job_jobs_for l :
  NoDup (map auto_oid l) ->
  forall a, In a l -> get_job (jobs_for l) (auto_oid a) = job_due a.
Proof.
  induction l as [|x l IH]; intros Hnd a Hin; [destruct Hin |].
  inversion Hnd as [|k ks Hk Hnd']; subst.
  change (jobs_for (x :: l))
    with (match job_due x with Some j => [j] | None => [] end ++ jobs_for l).
  unfold get_job. rewrite find_app.
  destruct Hin as [->|Hin].
  - destruct (job_due a) as [j|] eqn:E.
    + cbn [find]. rewrite (job_due_id _ E), N.eqb_refl. reflexivity.
    + cbn [find]. apply (get_job_jobs_for_absent l). exact Hk.
  - assert (Hne : auto_oid x <> auto_oid a).
    { intros Heq. apply Hk. rewrite Heq. apply in_map. exact Hin. }
    destruct (job_due x) as [j|] eqn:E.
    + cbn [find]. rewrite (job_due_id _ E).
      destruct (N.eqb_spec (auto_oid x) (auto_oid a)); [congruence |].
      apply (IH Hnd' a Hin).
    + cbn [find]. apply (IH Hnd' a Hin).
Qed.

Lemma jobs_for_distinct l :
  NoDup (map auto_oid l) -> NoDup (map job_id (jobs_for l)).
Proof.
  induction l as [|x l IH]; intros Hnd; [constructor |].
  inversion Hnd as [|k ks Hk Hnd']; subst.
  change (jobs_for (x :: l))
    with (match job_due x with Some j => [j] | None => [] end ++ jobs_for l).
  destruct (job_due x) as [j|] eqn:E; cbn [app map]; [| auto].
  constructor; [| auto].
  rewrite (job_due_id _ E). intros Hin.
  apply in_map_iff in Hin as [j' [Hid Hj']]. apply Hk. rewrite <- Hid.
  apply jobs_for_ids. exact Hj'.
Qed.

Lemma jobs_for_filter_active l :
  jobs_for (filter is_active l) = jobs_for l.
Proof.
  induction l as [|x l IH]; [reflexivity |]. cbn [filter].
  change (jobs_for (x :: l))
    with (match job_due x with Some j => [j] | None => [] end ++ jobs_for l).
  destruct (is_active x) eqn:E.
  - change (jobs_for (x :: filter is_active l))
      with (match job_due x with Some j => [j] | None => [] end
            ++ jobs_for (filter is_active l)).
    rewrite IH. reflexivity.
  - unfold job_due at 1. rewrite E. exact IH.
Qed.

Lemma NoDup_map_filter {A} (f : A -> oid) p l :
  NoDup (map f l) -> NoDup (map f (filter p l)).
Proof.
  induction l as [|x l IH]; intros Hnd; [constructor |].
  inversion Hnd as [|k ks Hk Hnd']; subst. cbn [filter].
  destruct (p x); cbn [map]; [| auto].
  constructor; [| auto]. intros Hin. apply Hk.
  apply in_map_iff in Hin as [y [Hy Hf]]. apply filter_In in Hf as [Hf _].
  apply in_map_iff. eauto.
Qed.

(** The loop of [_load_automations] adds, after the jobs there are, the
    jobs that the documents are due. *)
Lemma load_loop_jobs found : forall self jobs w,
  scheduler self = Some jobs ->
  NoDup (map auto_oid found) ->
  (forall a, In a found -> is_active a = true) ->
  (forall a, In a found -> get_job jobs (auto_oid a) = None) ->
  exists self' w',
    load_loop CronTrigger next_fire self found w = (Ok self', w') /\
    scheduler self' = Some (jobs ++ jobs_for found) /\
    _started self' = _started self /\ engine self' = engine self /\
    tables (db w') = tables (db w).
Proof.
  induction found as [|a rest IH]; intros self jobs w Hs Hnd Hact Hnew.
  - exists self, w. cbn [load_loop jobs_for flat_map]. rewrite app_nil_r.
    unfold ret. auto.
  - inversion Hnd as [|k ks Hk Hnd']; subst.
    cbn [load_loop].
    destruct (schedule_automation_run CronTrigger next_fire self a w)
      as [b [self1 [w1 [Hrun [Hst [Hen [Htb Hcase]]]]]]].
    unfold bind at 1. rewrite Hrun. cbn [snd].
    change (jobs_for (a :: rest))
      with (match job_due a with Some j => [j] | None => [] end
            ++ jobs_for rest).
    rewrite Hs in Hcase.
    assert (Hjobs1 : scheduler self1
              = Some (jobs ++ match job_due a with
                              | Some j => [j] | None => [] end)).
    { unfold job_due. rewrite (Hact a (or_introl eq_refl)).
      destruct (trigger_of CronTrigger (cron (auto_trigger a)))
        as [trigger|e].
      - destruct Hcase as [_ [Hj _]]. rewrite Hj. unfold add_job.
        cbn [job_id job_of].
        rewrite remove_job_absent by (apply Hnew; left; reflexivity).
        reflexivity.
      - destruct Hcase as [_ [-> _]]. rewrite Hs, app_nil_r. reflexivity. }
    destruct (IH self1 _ w1 Hjobs1 Hnd') as [self' [w' [Hl [Hj [Hst' [Hen' Htb']]]]]].
    + intros x Hx. apply Hact. right; exact Hx.
    + intros x Hx. unfold get_job. rewrite find_app.
      change (find (fun j => N.eqb (job_id j) (auto_oid x)) jobs)
        with (get_job jobs (auto_oid x)).
      rewrite (Hnew x (or_intror Hx)).
      destruct (job_due a) as [j|] eqn:E; [| reflexivity].
      cbn [find]. rewrite (job_due_id _ E).
      destruct (N.eqb_spec (auto_oid a) (auto_oid x)) as [Heq|]; [| reflexivity].
      exfalso. apply Hk. rewrite Heq. apply in_map. exact Hx.
    + exists self', w'. split; [exact Hl |].
      rewrite Hj, <- app_assoc. repeat split; congruence.
Qed.

(** X20.  Started afresh, with distinct automation ids, the scheduler
    holds the jobs that the stored automations are due and no other: under
    the id of a stored automation, its job when it is active and its
    trigger builds, and none when it is paused, in error, or its trigger
    does not build; under any other id, none; and no id twice.  A
    scheduler that is started already does nothing. *)
Theorem start_recovers self w :
  NoDup (map auto_oid (automations (db w))) ->
  (_started self = false ->
   exists self' w' jobs,
     start CronTrigger next_fire self w = (Ok self', w') /\
     _started self' = true /\
     scheduler self' = Some jobs /\
     NoDup (map job_id jobs) /\
     (forall a, In a (automations (db w)) ->
        get_job jobs (auto_oid a) = job_due a) /\
     (forall a, In a (automations (db w)) -> status a <> active ->
        get_job jobs (auto_oid a) = None) /\
     (forall id, ~ In id (map auto_oid (automations (db w))) ->
        get_job jobs id = None)) /\
  (_started self = true ->
   start CronTrigger next_fire self w = (Ok self, w)).
Proof.
  intros Hnd. split.
  - intros Hoff. unfold start. rewrite Hoff.
    unfold _load_automations, bind at 1, get_db.
    destruct (@load_loop_jobs (filter is_active (automations (db w)))
                {| scheduler := Some []; engine := engine self;
                   _started := true |} [] w eq_refl)
      as [self' [w' [Hl [Hj [Hst _]]]]].
    + apply NoDup_map_filter. exact Hnd.
    + intros a Ha. apply filter_In in Ha as [_ Ha]. exact Ha.
    + reflexivity.
    + exists self', w', (jobs_for (automations (db w))).
      split; [exact Hl |]. split; [exact Hst |].
      split; [rewrite Hj, jobs_for_filter_active; reflexivity |].
      split; [apply jobs_for_distinct; exact Hnd |].
      split; [apply get_job_jobs_for; exact Hnd |].
      split; [| apply get_job_jobs_for_absent].
      intros a Ha Hstatus. rewrite (@get_job_jobs_for _ Hnd a Ha).
      unfold job_due, is_active. destruct (status a); congruence.
  - intros Hon. unfold start. rewrite Hon. reflexivity.
Qed.

End Recovery.

Definition paused_automation : Automation :=
  {| auto_oid := 4%N; user_id := py "u1"; account_id := py "acc1";
     auto_name := py "Suivi Metro"; auto_description := None;
     auto_trigger := weekly_trigger; auto_actions := [];
     auto_vendors := [py "metro"]; table_id := None; status := paused;
     created_at := 0; updated_at := 0; last_run := None; next_run := None;
     run_count := 0; last_error := None |}.

Definition two_automations : World :=
  {| db := {| tables := [];
              automations := [an_automation [py "metro"]; paused_automation];
              automation_runs := []; learned_senders := no_learned_senders |};
     clock := 10; next_oid := 8%N; oplog := [] |}.

Definition stopped_scheduler : AutomationScheduler :=
  {| scheduler := None; engine := None; _started := false |}.

Lemma start_recovers_witness :
  exists self' w' jobs,
    start plain_CronTrigger no_fire_time stopped_scheduler two_automations
      = (Ok self', w') /\
    scheduler self' = Some jobs /\
    get_job jobs 3%N
      = Some (job_of (an_automation [py "metro"])
                {| cron_minute := py "0"; cron_hour := py "9";
                   cron_day := py "*"; cron_month := py "*";
                   cron_day_of_week := py "0" |}) /\
    get_job jobs 4%N = None.
Proof.
  destruct (proj1 (@start_recovers plain_CronTrigger no_fire_time
                     stopped_scheduler two_automations
                     ltac:(simpl; repeat constructor; simpl; intuition discriminate))
              eq_refl)
    as [self' [w' [jobs [Hrun [_ [Hjobs [_ [Hdue _]]]]]]]].
  exists self', w', jobs. split; [exact Hrun |]. split; [exact Hjobs |].
  split.
  - pose proof (Hdue (an_automation [py "metro"]) (or_introl eq_refl)) as H3.
    cbn [auto_oid an_automation] in H3. rewrite H3. vm_compute. reflexivity.
  - pose proof (Hdue paused_automation (or_intror (or_introl eq_refl))) as H4.
    cbn [auto_oid paused_automation] in H4. rewrite H4. reflexivity.
Defined.

(** ** The life of an automation *)

Import EngineLifecycle.

Lemma find_auto_oid id l a :
  find (has_auto_oid id) l = Some a -> auto_oid a = id.
Proof.
  intros H. apply find_some in H as [_ H]. apply N.eqb_eq. exact H.
Qed.

(** What [unschedule_automation] leaves of a job store: the jobs of other
    names. *)
Lemma unschedule_by_name str_of_oid self (automation_id : pystr) jobs :
  scheduler self = Some jobs ->
  exists jobs',
    scheduler (ByString.unschedule_automation str_of_oid self automation_id)
      = Some jobs' /\
    (forall j, In j jobs' <->
               In j jobs /\ str_of_oid (job_id j) <> automation_id) /\
    (forall id, str_of_oid id = automation_id -> get_job jobs' id = None).
Proof.
  intros Hs. unfold ByString.unschedule_automation. rewrite Hs.
  eexists. split; [reflexivity |].
  assert (Hin : forall j,
            In j (filter (fun j => negb (ByString.job_named str_of_oid
                                           automation_id j)) jobs) <->
            In j jobs /\ str_of_oid (job_id j) <> automation_id).
  { intros j. rewrite filter_In. unfold ByString.job_named.
    destruct (pystr_eqb_spec (str_of_oid (job_id j)) automation_id);
      cbn [negb]; intuition congruence. }
  split; [exact Hin |].
  intros id Hid. unfold get_job.
  match goal with |- find ?p ?l = None => destruct (find p l) eqn:E end;
    [| reflexivity].
  apply find_some in E as [Hj Hid']. apply Hin in Hj as [_ Hne].
  apply N.eqb_eq in Hid'. congruence.
Qed.

(** X21.  [pause_automation] gets an id string.  The jobs of that name are
    removed from the scheduler and the others are kept; the job of an id
    that is written so is gone.  When the string is the id of a stored
    automation, its status is set to paused and the answer is [True]; its
    run count, last error, trigger and table are kept, and the tables are
    untouched.  When it is an id that no automation has, the answer is
    [False] and the store is left as it was.  When [ObjectId] rejects the
    string, what it raises escapes and nothing is written. *)
Theorem pause_automation_effect ObjectId_of str_of_oid sched
    (automation_id : pystr) w :
  match ObjectId_of automation_id with
  | Ok id =>
    (forall automation,
       find (has_auto_oid id) (automations (db w)) = Some automation ->
       exists w' automation',
         ByString.pause_automation ObjectId_of str_of_oid sched
           automation_id w
         = (Ok (true,
                ByString.unschedule_automation str_of_oid sched
                  automation_id), w') /\
         find (has_auto_oid id) (automations (db w')) = Some automation' /\
         status automation' = paused /\
         run_count automation' = run_count automation /\
         last_error automation' = last_error automation /\
         auto_trigger automation' = auto_trigger automation /\
         table_id automation' = table_id automation /\
         tables (db w') = tables (db w)) /\
    (existsb (has_auto_oid id) (automations (db w)) = false ->
     exists w',
       ByString.pause_automation ObjectId_of str_of_oid sched
         automation_id w
       = (Ok (false,
              ByString.unschedule_automation str_of_oid sched
                automation_id), w') /\
       db w' = db w)
  | Raise e =>
    ByString.pause_automation ObjectId_of str_of_oid sched automation_id w
    = (Raise e, w)
  end /\
  (forall jobs,
     scheduler sched = Some jobs ->
     exists jobs',
       scheduler (ByString.unschedule_automation str_of_oid sched
                    automation_id) = Some jobs' /\
       (forall j, In j jobs' <->
                  In j jobs /\ str_of_oid (job_id j) <> automation_id) /\
       (forall id, str_of_oid id = automation_id ->
                   get_job jobs' id = None)).
Proof.
  split; [| apply unschedule_by_name].
  unfold ByString.pause_automation. rewrite on_parsed_id.
  destruct (ObjectId_of automation_id) as [id|e]; [| reflexivity].
  split.
  - intros a Ha. run_M. rewrite (find_existsb _ _ Ha).
    eexists _, (set_status paused (clock w) a).
    split; [reflexivity |]. cbn [db automations tables with_automations].
    split; [apply find_update_first; [reflexivity | exact Ha] |].
    repeat split.
  - intros Hnone. run_M. rewrite Hnone.
    eexists. split; [reflexivity |]. cbn [db].
    rewrite update_first_no_match by exact Hnone.
    destruct (db w); reflexivity.
Qed.

Section Resume.

Variable CronTrigger :
  pystr -> pystr -> pystr -> pystr -> pystr -> result cron_trigger.
Variable next_fire : cron_trigger -> datetime -> option datetime.

(** After [schedule_automation], the document found under the id differs
    at most by its next run. *)
Lemma schedule_automation_document sched automation w b sched' w' :
  find (has_auto_oid (auto_oid automation)) (automations (db w))
    = Some automation ->
  schedule_automation CronTrigger next_fire sched automation w
    = (Ok (b, sched'), w') ->
  exists next,
    find (has_auto_oid (auto_oid automation)) (automations (db w'))
      = Some (set_next_run next automation).
Proof.
  intros Hfind Hrun.
  destruct (schedule_automation_run CronTrigger next_fire sched automation w)
    as [b1 [s1 [w1 [Hrun1 [_ [_ [_ Hcase]]]]]]].
  rewrite Hrun in Hrun1. inversion Hrun1; subst b1 s1 w1.
  destruct (scheduler sched) as [jobs|].
  - destruct (trigger_of CronTrigger (cron (auto_trigger automation)))
      as [trigger|e].
    + destruct Hcase as [_ [_ Hautos]]. rewrite Hautos.
      eexists. apply find_update_first; [reflexivity | exact Hfind].
    + destruct Hcase as [_ [_ ->]]. exists (next_run automation).
      rewrite Hfind. destruct automation; reflexivity.
  - destruct Hcase as [_ [_ ->]]. exists (next_run automation).
    rewrite Hfind. destruct automation; reflexivity.
Qed.

(** What [resume_automation] does with a stored automation. *)
Lemma resume_automation_run sched automation_id w automation :
  find (has_auto_oid automation_id) (automations (db w)) = Some automation ->
  exists b sched' w1 w' next,
    schedule_automation CronTrigger next_fire sched automation w
      = (Ok (b, sched'), w1) /\
    resume_automation CronTrigger next_fire sched automation_id w
      = (Ok (true, sched'), w') /\
    find (has_auto_oid automation_id) (automations (db w'))
      = Some (set_status active (clock w1) (set_next_run next automation)) /\
    tables (db w') = tables (db w) /\
    match scheduler sched,
          trigger_of CronTrigger (cron (auto_trigger automation)) with
    | Some jobs, Ok trigger =>
      scheduler sched' = Some (add_job jobs (job_of automation trigger))
    | _, _ => sched' = sched
    end.
Proof.
  intros Hfind.
  pose proof (find_auto_oid _ _ Hfind) as Hid.
  destruct (schedule_automation_run CronTrigger next_fire sched automation w)
    as [b [sched' [w1 [Hrun [_ [_ [Htables Hcase]]]]]]].
  assert (Hfind' : find (has_auto_oid (auto_oid automation))
                     (automations (db w)) = Some automation)
    by (rewrite Hid; exact Hfind).
  destruct (@schedule_automation_document sched automation w b sched' w1
              Hfind' Hrun) as [next Hdoc].
  rewrite Hid in Hdoc.
  exists b, sched', w1. eexists _, next.
  split; [exact Hrun |].
  split; [| split; [| split]].
  - unfold resume_automation. unfold bind at 1. unfold get_db.
    rewrite Hfind. unfold bind at 1. rewrite Hrun. cbn [snd]. run_M.
    rewrite (find_existsb _ _ Hdoc). reflexivity.
  - cbn [db automations with_automations].
    apply find_update_first; [reflexivity | exact Hdoc].
  - cbn [db tables with_automations]. exact Htables.
  - destruct (scheduler sched) as [jobs|];
      [destruct (trigger_of CronTrigger (cron (auto_trigger automation)))|];
      apply Hcase.
Qed.

(** [ObjectId(s)] *)
Variable ObjectId_of : pystr -> result oid.

(** X22.  [resume_automation] gets an id string.  When it is the id of a
    stored automation, the answer is [True] and the status is set to
    active whatever [schedule_automation] answered: the scheduler is left
    as that call left it, so without a job store, or with a trigger that
    does not build, the automation is active and no job was added.  The
    run count and last error are kept.  When it is an id that no
    automation has, the answer is [False] and nothing changes.  When
    [ObjectId] rejects the string, what it raises escapes and nothing is
    written. *)
Theorem resume_automation_marks_active sched (automation_id : pystr) w :
  match ObjectId_of automation_id with
  | Ok id =>
    (forall automation,
       find (has_auto_oid id) (automations (db w)) = Some automation ->
       exists b sched' w1 w' automation',
         schedule_automation CronTrigger next_fire sched automation w
           = (Ok (b, sched'), w1) /\
         ByString.resume_automation ObjectId_of CronTrigger next_fire sched
           automation_id w
         = (Ok (true, sched'), w') /\
         find (has_auto_oid id) (automations (db w')) = Some automation' /\
         status automation' = active /\
         run_count automation' = run_count automation /\
         last_error automation' = last_error automation /\
         (scheduler sched = None -> sched' = sched) /\
         (forall e,
            trigger_of CronTrigger (cron (auto_trigger automation))
            = Raise e ->
            sched' = sched)) /\
    (find (has_auto_oid id) (automations (db w)) = None ->
     ByString.resume_automation ObjectId_of CronTrigger next_fire sched
       automation_id w
     = (Ok (false, sched), w))
  | Raise e =>
    ByString.resume_automation ObjectId_of CronTrigger next_fire sched
      automation_id w
    = (Raise e, w)
  end.
Proof.
  unfold ByString.resume_automation. rewrite on_parsed_id.
  destruct (ObjectId_of automation_id) as [id|e]; [| reflexivity].
  split.
  - intros automation Hfind.
    destruct (@resume_automation_run sched id w automation Hfind)
      as [b [sched' [w1 [w' [next [Hrun [Hres [Hdoc [_ Hcase]]]]]]]]].
    exists b, sched', w1, w'. eexists.
    split; [exact Hrun |]. split; [exact Hres |]. split; [exact Hdoc |].
    split; [reflexivity |]. split; [reflexivity |]. split; [reflexivity |].
    split.
    + intros Hnone. rewrite Hnone in Hcase. exact Hcase.
    + intros e He. rewrite He in Hcase.
      destruct (scheduler sched); exact Hcase.
  - intros Hnone. unfold resume_automation. unfold bind at 1.
    unfold get_db. rewrite Hnone. reflexivity.
Qed.

(** X23.  Pause, then resume, with a job store and a trigger that builds:
    the automation is active again, it has its job exactly once, the jobs
    of the other automations are as before the pause, and its run count
    and last error are what they were. *)
Theorem pause_resume_round_trip sched jobs automation_id w automation
    trigger :
  scheduler sched = Some jobs ->
  find (has_auto_oid automation_id) (automations (db w)) = Some automation ->
  trigger_of CronTrigger (cron (auto_trigger automation)) = Ok trigger ->
  exists sched1 w1 sched2 jobs2 w2 automation2,
    pause_automation sched automation_id w = (Ok (true, sched1), w1) /\
    resume_automation CronTrigger next_fire sched1 automation_id w1
      = (Ok (true, sched2), w2) /\
    find (has_auto_oid automation_id) (automations (db w2))
      = Some automation2 /\
    status automation2 = active /\
    run_count automation2 = run_count automation /\
    last_error automation2 = last_error automation /\
    scheduler sched2 = Some jobs2 /\
    get_job jobs2 automation_id = Some (job_of automation trigger) /\
    List.length (filter (fun x => N.eqb (job_id x) automation_id) jobs2)
    = 1%nat /\
    (forall other, other <> automation_id ->
       get_job jobs2 other = get_job jobs other).
Proof.
  intros Hs Hfind Htrigger.
  pose proof (find_auto_oid _ _ Hfind) as Hid.
  assert (Hpause : exists w1,
            pause_automation sched automation_id w
              = (Ok (true, unschedule_automation sched automation_id), w1) /\
            find (has_auto_oid automation_id) (automations (db w1))
              = Some (set_status paused (clock w) automation)).
  { unfold pause_automation. run_M. rewrite (find_existsb _ _ Hfind).
    eexists. split; [reflexivity |]. cbn [db automations with_automations].
    apply find_update_first; [reflexivity | exact Hfind]. }
  destruct Hpause as [w1 [Hpause Hf1]].
  destruct (@resume_automation_run (unschedule_automation sched automation_id)
              automation_id w1 _ Hf1)
    as [b [sched2 [w1' [w2 [next [_ [Hres [Hdoc [_ Hcase]]]]]]]]].
  unfold unschedule_automation in Hcase at 1. rewrite Hs in Hcase.
  cbn [scheduler set_status auto_trigger] in Hcase. rewrite Htrigger in Hcase.
  exists (unschedule_automation sched automation_id), w1, sched2.
  eexists _, w2, _.
  split; [exact Hpause |]. split; [exact Hres |]. split; [exact Hdoc |].
  split; [reflexivity |]. split; [reflexivity |]. split; [reflexivity |].
  split; [exact Hcase |].
  change (job_of (set_status paused (clock w) automation) trigger)
    with (job_of automation trigger).
  pose proof (get_job_add_job (remove_job jobs automation_id)
                (job_of automation trigger)) as [Hget Hone].
  cbn [job_id job_of] in Hget, Hone. rewrite Hid in Hget, Hone.
  split; [exact Hget |]. split; [exact Hone |].
  intros other Hother.
  rewrite get_job_add_other by (cbn [job_id job_of]; congruence).
  apply get_job_remove_other. exact Hother.
Qed.

End Resume.

Lemma pause_resume_round_trip_witness :
  exists sched1 w1 sched2 w2 automation2,
    pause_automation started_scheduler 3%N two_automations
      = (Ok (true, sched1), w1) /\
    resume_automation plain_CronTrigger no_fire_time sched1 3%N w1
      = (Ok (true, sched2), w2) /\
    find (has_auto_oid 3%N) (automations (db w2)) = Some automation2 /\
    status automation2 = active /\ run_count automation2 = 4.
Proof.
  destruct (@pause_resume_round_trip plain_CronTrigger no_fire_time
              started_scheduler [] 3%N two_automations
              (an_automation [py "metro"])
              {| cron_minute := py "0"; cron_hour := py "9";
                 cron_day := py "*"; cron_month := py "*";
                 cron_day_of_week := py "0" |}
              eq_refl eq_refl)
    as [sched1 [w1 [sched2 [jobs2 [w2 [a2 [Hp [Hr [Hf [Hst [Hrc _]]]]]]]]]]].
  - vm_compute; reflexivity.
  - exists sched1, w1, sched2, w2, a2. auto.
Defined.

Lemma find_filter_other {A} (key : A -> oid) l id other :
  other <> id ->
  find (fun x => N.eqb (key x) other)
    (filter (fun x => negb (N.eqb (key x) id)) l)
  = find (fun x => N.eqb (key x) other) l.
Proof.
  intros Hne. induction l as [|x l IH]; [reflexivity |]. cbn [filter find].
  destruct (N.eqb_spec (key x) id) as [Heq|Hneq]; cbn [negb].
  - destruct (N.eqb_spec (key x) other) as [Heq'|_]; [congruence | exact IH].
  - cbn [find]. destruct (N.eqb (key x) other); [reflexivity | exact IH].
Qed.

(** X24.  [delete_automation] gets an id string, in a store where no two
    automations share an id.  When the string is the id of a stored
    automation: the jobs of that name are removed, the automation is no
    longer found, the others are found as before, and the answer is
    [True]; without the flag the tables are untouched, and with it the
    first table under the automation's table id is deleted.  When it is an
    id that no automation has, the answer is [False] and the store and
    the scheduler are left as they were.  When [ObjectId] rejects the
    string, what it raises escapes and nothing is written. *)
Theorem delete_automation_effect ObjectId_of str_of_oid sched
    (automation_id : pystr) delete_table_too w :
  NoDup (map auto_oid (automations (db w))) ->
  match ObjectId_of automation_id with
  | Ok id =>
    (forall automation,
       find (has_auto_oid id) (automations (db w)) = Some automation ->
       exists w',
         ByString.delete_automation ObjectId_of str_of_oid sched
           automation_id delete_table_too w
         = (Ok (true,
                ByString.unschedule_automation str_of_oid sched
                  automation_id), w') /\
         find (has_auto_oid id) (automations (db w')) = None /\
         (forall other, other <> id ->
            find (has_auto_oid other) (automations (db w'))
            = find (has_auto_oid other) (automations (db w))) /\
         tables (db w')
         = match table_id automation with
           | Some t =>
             if delete_table_too
             then delete_first (has_table_oid t) (tables (db w))
             else tables (db w)
           | None => tables (db w)
           end) /\
    (find (has_auto_oid id) (automations (db w)) = None ->
     ByString.delete_automation ObjectId_of str_of_oid sched automation_id
       delete_table_too w
     = (Ok (false, sched), w))
  | Raise e =>
    ByString.delete_automation ObjectId_of str_of_oid sched automation_id
      delete_table_too w
    = (Raise e, w)
  end.
Proof.
  intros Hnd. unfold ByString.delete_automation. rewrite on_parsed_id.
  destruct (ObjectId_of automation_id) as [id|e]; [| reflexivity].
  split.
  - intros a Ha. unfold bind at 1. unfold get_db. rewrite Ha.
    assert (Hdel :
              find (has_auto_oid id)
                (delete_first (has_auto_oid id) (automations (db w)))
              = None /\
              forall other, other <> id ->
                find (has_auto_oid other)
                  (delete_first (has_auto_oid id) (automations (db w)))
                = find (has_auto_oid other) (automations (db w))).
    { unfold has_auto_oid.
      rewrite (@delete_first_unique _ auto_oid _ id Hnd).
      split; [apply find_filter_out |].
      intros other Hother. apply find_filter_other. exact Hother. }
    destruct Hdel as [Hgone Hothers].
    destruct delete_table_too; destruct (table_id a) as [t|];
      unfold delete_table, automations_delete_one; run_M;
      cbn [automations tables with_tables with_automations];
      rewrite (find_existsb _ _ Ha);
      (eexists; split; [reflexivity |]);
      cbn [db automations tables with_tables with_automations];
      (split; [exact Hgone |]); (split; [exact Hothers | reflexivity]).
  - intros Hnone. unfold bind at 1. unfold get_db. rewrite Hnone.
    reflexivity.
Qed.

Lemma delete_automation_effect_witness :
  exists sched' w',
    ByString.delete_automation ByString.plain_ObjectId ByString.plain_str
      started_scheduler (py "000000000000000000000004") true two_automations
      = (Ok (true, sched'), w') /\
    find (has_auto_oid 4%N) (automations (db w')) = None /\
    find (has_auto_oid 3%N) (automations (db w'))
      = Some (an_automation [py "metro"]).
Proof.
  pose proof (@delete_automation_effect ByString.plain_ObjectId
                ByString.plain_str started_scheduler
                (py "000000000000000000000004") true two_automations) as H.
  vm_compute ByString.plain_ObjectId in H.
  destruct H as [H _].
  - vm_compute. repeat constructor; simpl; intuition discriminate.
  - destruct (H paused_automation eq_refl)
      as [w' [Hrun [Hgone [Hothers _]]]].
    eexists _, w'. split; [exact Hrun |]. split; [exact Hgone |].
    rewrite Hothers by discriminate. reflexivity.
Defined.

Section Create.

Variable CronTrigger :
  pystr -> pystr -> pystr -> pystr -> pystr -> result cron_trigger.
Variable next_fire : cron_trigger -> datetime -> option datetime.
Variable utc_offset : Z.

(** Reading the clock changes neither the database nor the next id. *)
Lemma utcnow_run w :
  exists w1,
    utcnow w = (Ok (clock w), w1) /\
    db w1 = db w /\ next_oid w1 = next_oid w.
Proof.
  unfold utcnow. eexists. split; [reflexivity |]. split; reflexivity.
Qed.

Lemma now_year_run w :
  exists y w1,
    now_year utc_offset w = (Ok y, w1) /\
    db w1 = db w /\ next_oid w1 = next_oid w.
Proof.
  unfold now_year, bind, utcnow, ret. eexists _, _.
  split; [reflexivity |]. split; reflexivity.
Qed.

(** The name of the table: the vendors, titled, when there are one to
    three of them. *)
Lemma table_name_run (vs : list pystr) (table_name : pystr) w :
  exists nm w1,
    match vs with
    | [] => ret table_name
    | _ :: _ =>
      if Nat.leb (List.length vs) 3 then
        year <- now_year utc_offset ;;
        ret (py "Factures " ++ join (py ", ") (map title vs)
             ++ py " " ++ str_of_int year)
      else ret table_name
    end w = (Ok nm, w1) /\
    db w1 = db w /\ next_oid w1 = next_oid w.
Proof.
  destruct vs as [|v vs];
    [| destruct (Nat.leb (List.length (v :: vs)) 3)];
    try (exists table_name, w; split; [reflexivity |]; split; reflexivity).
  destruct (now_year_run w) as [y [w1 [Hy [Hdb Hoid]]]].
  eexists _, w1. split; [| split; assumption].
  unfold bind at 1. rewrite Hy. reflexivity.
Qed.

Lemma create_table_run user nm cols y aid desc w :
  exists t w1,
    create_table utc_offset user nm cols (Some y) aid desc w
      = (Ok (next_oid w), w1) /\
    tables (db w1) = tables (db w) ++ [t] /\
    automations (db w1) = automations (db w) /\
    next_oid w1 = N.succ (next_oid w) /\
    table_oid t = next_oid w /\ table_name t = nm /\
    table_user_id t = user /\ rows t = [] /\ total_amount t = 0.
Proof.
  unfold create_table, tables_insert_one. run_M.
  eexists _, _. split; [reflexivity |].
  cbn [db next_oid tables automations with_tables table_oid table_name
       table_user_id rows total_amount].
  repeat split.
Qed.

Lemma automations_insert_one_run doc w :
  exists w1,
    automations_insert_one doc w = (Ok (next_oid w), w1) /\
    automations (db w1) = automations (db w) ++ [doc (next_oid w)] /\
    tables (db w1) = tables (db w).
Proof.
  unfold automations_insert_one, log. eexists. split; [reflexivity |].
  cbn [db automations tables with_automations]. split; reflexivity.
Qed.

Ltac bind_step H :=
  eapply eq_trans; [eapply bind_Ok; exact H |]; cbv beta.

(** X25.  [create_automation] with a config whose summary formats, in a
    store where the next two ids are free: the table gets the first id and
    the automation the second; the table is found under its id with the
    returned name and the given owner, empty and with total 0; the
    automation is found under its id, active, never run, without error,
    bound to that table and with the vendors, trigger and name of the
    config; and it has a job when the scheduler has a job store and the
    trigger builds, while otherwise the scheduler is as it was and the
    automation is stored and active all the same. *)
Theorem create_automation_effect sched user account config summary w :
  (forall t, In t (tables (db w)) -> table_oid t <> next_oid w) ->
  (forall a, In a (automations (db w)) ->
     auto_oid a <> N.succ (next_oid w)) ->
  format_automation_summary config = Ok summary ->
  exists created sched' w' t a,
    create_automation CronTrigger next_fire utc_offset sched user account
      config w = (Ok (Ok created, sched'), w') /\
    created_table_id created = next_oid w /\
    created_id created = N.succ (next_oid w) /\
    created_summary created = summary /\
    get_table (next_oid w) w' = (Ok (Some t), w') /\
    table_name t = created_table_name created /\
    table_user_id t = user /\ rows t = [] /\ total_amount t = 0 /\
    find (has_auto_oid (N.succ (next_oid w))) (automations (db w')) = Some a /\
    status a = active /\ run_count a = 0 /\ last_error a = None /\
    last_run a = None /\
    table_id a = Some (next_oid w) /\ auto_vendors a = vendors config /\
    auto_trigger a = trigger config /\ auto_name a = name config /\
    match scheduler sched,
          trigger_of CronTrigger (cron (trigger config)) with
    | Some jobs, Ok trigger =>
      exists jobs',
        scheduler sched' = Some jobs' /\
        get_job jobs' (N.succ (next_oid w))
        = Some {| job_id := N.succ (next_oid w); job_trigger := trigger;
                  job_args := [N.succ (next_oid w)];
                  job_name := name config |} /\
        forall other, other <> N.succ (next_oid w) ->
          get_job jobs' other = get_job jobs other
    | _, _ => sched' = sched
    end.
Proof.
  intros Htables Hautos Hsummary.
  destruct (now_year_run w) as [y1 [w1 [H1 [Hdb1 Hoid1]]]].
  destruct (table_name_run (vendors config)
              (py "Factures " ++ str_of_int y1) w1)
    as [nm [w2 [H2 [Hdb2 Hoid2]]]].
  destruct (now_year_run w2) as [y3 [w3 [H3 [Hdb3 Hoid3]]]].
  destruct (create_table_run user nm None y3 None
              (Some (py "Généré par: " ++ name config)) w3)
    as [t [w4 [H4 [Hts4 [Has4 [Hoid4 [Hto [Htn [Htu [Htr Htt]]]]]]]]]].
  destruct (utcnow_run w4) as [w5 [H5 [Hdb5 Hoid5]]].
  destruct (utcnow_run w5) as [w6 [H6 [Hdb6 Hoid6]]].
  assert (E3 : next_oid w3 = next_oid w) by congruence.
  assert (E6 : next_oid w6 = N.succ (next_oid w)) by congruence.
  assert (T4 : tables (db w4) = tables (db w) ++ [t]) by congruence.
  assert (A4 : automations (db w4) = automations (db w)) by congruence.
  rewrite E3 in H4, Hto. clear E3 Hts4 Has4 Hoid4 Hdb1 Hoid1 Hdb2 Hoid2
    Hdb3 Hoid3.
  set (doc := fun id =>
    {| auto_oid := id; Store.user_id := user; account_id := account;
       auto_name := name config; auto_description := description config;
       auto_trigger := trigger config; auto_actions := actions config;
       auto_vendors := vendors config; table_id := Some (next_oid w);
       status := active; created_at := clock w4; updated_at := clock w5;
       last_run := None; next_run := None; run_count := 0;
       last_error := None |}).
  destruct (automations_insert_one_run doc w6) as [w7 [H7 [Has7 Hts7]]].
  rewrite E6 in H7, Has7.
  destruct (schedule_automation_run CronTrigger next_fire sched
              (doc (N.succ (next_oid w))) w7)
    as [b [sched' [w' [Hrun [_ [_ [Hts Hcase]]]]]]].
  assert (Hstored : find (has_auto_oid (N.succ (next_oid w)))
                      (automations (db w7))
                    = Some (doc (N.succ (next_oid w)))).
  { rewrite Has7, Hdb6, Hdb5, A4. apply find_app_fresh.
    - intros a Ha. unfold has_auto_oid. apply N.eqb_neq.
      apply Hautos, Ha.
    - unfold has_auto_oid. apply N.eqb_refl. }
  destruct (@schedule_automation_document CronTrigger next_fire sched
              (doc (N.succ (next_oid w))) w7 b sched' w' Hstored Hrun)
    as [next Hfound].
  exists {| created_id := N.succ (next_oid w); created_name := name config;
            created_table_id := next_oid w; created_table_name := nm;
            created_trigger := trigger config;
            created_vendors := vendors config;
            created_summary := summary |},
    sched', w', t, (set_next_run next (doc (N.succ (next_oid w)))).
  split.
  { unfold create_automation.
    bind_step H1. bind_step H2. bind_step H3. bind_step H4.
    bind_step H5. bind_step H6. bind_step H7. bind_step Hrun.
    rewrite Hsummary. reflexivity. }
  split; [reflexivity |]. split; [reflexivity |]. split; [reflexivity |].
  split.
  { unfold get_table, bind, get_db, ret.
    rewrite Hts, Hts7, Hdb6, Hdb5, T4.
    rewrite find_app_fresh; [reflexivity | |].
    - intros t0 Ht0. unfold has_table_oid. apply N.eqb_neq.
      apply Htables, Ht0.
    - unfold has_table_oid. rewrite Hto. apply N.eqb_refl. }
  split; [exact Htn |]. split; [exact Htu |]. split; [exact Htr |].
  split; [exact Htt |]. split; [exact Hfound |].
  repeat (split; [reflexivity |]).
  change (cron (auto_trigger (doc (N.succ (next_oid w)))))
    with (cron (trigger config)) in Hcase.
  destruct (scheduler sched) as [jobs|];
    [destruct (trigger_of CronTrigger (cron (trigger config)))
       as [trigger|e] |];
    try solve [apply Hcase].
  destruct Hcase as [_ [Hjobs _]].
  eexists. split; [exact Hjobs |]. split.
  - apply (proj1 (get_job_add_job jobs
                    (job_of (doc (N.succ (next_oid w))) trigger))).
  - intros other Hother. apply get_job_add_other. exact Hother.
Qed.

End Create.

Definition metro_config : AutomationConfig :=
  {| name := py "Suivi factures Metro"; description := None;
     trigger := weekly_trigger; actions := []; vendors := [py "metro"] |}.

Definition metro_summary : pystr :=
  Eval vm_compute in
    match format_automation_summary metro_config with
    | Ok summary => summary
    | Raise _ => []
    end.

Lemma create_automation_effect_witness :
  exists created sched' w' a,
    create_automation plain_CronTrigger no_fire_time 0 started_scheduler
      (py "u1") (py "acc1") metro_config two_automations
      = (Ok (Ok created, sched'), w') /\
    created_table_id created = 8%N /\ created_id created = 9%N /\
    find (has_auto_oid 9%N) (automations (db w')) = Some a /\
    status a = active /\ table_id a = Some 8%N.
Proof.
  destruct (@create_automation_effect plain_CronTrigger no_fire_time 0
              started_scheduler (py "u1") (py "acc1") metro_config
              metro_summary two_automations)
    as [created [sched' [w' [t [a [Hrun [Ht [Hid [_ [_ [_ [_ [_ [_
         [Hfind [Hst [_ [_ [_ [Htid _]]]]]]]]]]]]]]]]]]]].
  - simpl. intros t [].
  - simpl. intros a [<-|[<-|[]]]; discriminate.
  - vm_compute; reflexivity.
  - exists created, sched', w', a.
    split; [exact Hrun |]. split; [exact Ht |]. split; [exact Hid |].
    split; [exact Hfind |]. split; [exact Hst | exact Htid].
Defined.

(** ** The scheduler: the body of a job *)

(** X30.  The body of a job never raises.  Without an engine it does
    nothing; with one, whatever [run_automation] answers or raises, the job
    returns and the store is the one that [run_automation] left, run
    record included. *)
Theorem job_body_never_raises self automation_id w :
  exists w',
    _run_automation self automation_id w = (Ok tt, w') /\
    (engine self = None -> w' = w) /\
    (forall e, engine self = Some e ->
       w' = snd (AutomationEngine.run_automation e automation_id w)).
Proof.
  unfold _run_automation. destruct (engine self) as [e|].
  - unfold try_except, bind, ret.
    destruct (AutomationEngine.run_automation e automation_id w)
      as [[outcome|err] w1] eqn:Hrun;
      (eexists; split; [reflexivity |]); (split; [discriminate |]);
      intros e' He'; inversion He'; subst e'; rewrite Hrun; reflexivity.
  - exists w. split; [reflexivity |]. split; [reflexivity | discriminate].
Qed.
